(** * DDG-Chat-go: an OpenAI-compatible adapter in front of an event-stream chat backend

    A shallow embedding of [main.go] (and of its hardcoded-token variant)
    together with the properties the specification states about it.

    Go values are modelled as follows.
    - [string] is Go's byte string; string literals are UTF-8 encoded.
    - [error] values are represented by their message ([err.Error()]).
    - [interface{}] values produced by [encoding/json] are the type [Value].
    - [http.Header] and [map[string]string] are [gmap string string].
    - Calls that reach outside the process (round trips, the clock, the
      response writer of the inbound request) go through a state [St] threaded
      by the monad [M], against an environment [Env] that fixes what the outside
      answers.
    - [log.Printf] output is not modelled, and neither are the branches for
      an error of [json.Marshal], which the string-only bodies of the
      program rule out, and of [http.NewRequest] on a constant address,
      which [url.Parse] accepts ([constant_addresses_parse]).  The address
      of a script asset comes from the landing page, and the branch for a
      [http.NewRequest] that rejects it is there.
    - The loops that read a body line by line run over the list of its
      lines ([splitLines]); the retry loop carries fuel and is shown never
      to run out of it. *)

From Stdlib Require Import ZArith NArith String Ascii List Lia DecimalString.
From stdpp Require Import base gmap strings list.

Open Scope string_scope.
Open Scope list_scope.
Open Scope Z_scope.

(** ** Bytes and strings *)

Definition dquote : ascii := "034"%char.
Definition squote : ascii := "039"%char.
Definition LF : ascii := "010"%char.
Definition CR : ascii := "013"%char.

Definition byteIn (lo hi : N) (c : ascii) : bool :=
  (lo <=? N_of_ascii c)%N && (N_of_ascii c <=? hi)%N.

Definition byteIs (n : N) (c : ascii) : bool := (N_of_ascii c =? n)%N.

Fixpoint mapBytes (f : ascii -> ascii) (s : string) : string :=
  match s with
  | EmptyString => EmptyString
  | String c r => String (f c) (mapBytes f r)
  end.

Fixpoint allBytes (p : ascii -> bool) (s : string) : bool :=
  match s with
  | EmptyString => true
  | String c r => p c && allBytes p r
  end.

Fixpoint anyByte (p : ascii -> bool) (s : string) : bool :=
  match s with
  | EmptyString => false
  | String c r => p c || anyByte p r
  end.

(** [strings.HasPrefix] and [strings.TrimPrefix]. *)
Fixpoint HasPrefix (s p : string) {struct p} : bool :=
  match p, s with
  | EmptyString, _ => true
  | String a p', String b s' => Ascii.eqb a b && HasPrefix s' p'
  | String _ _, EmptyString => false
  end.

Fixpoint dropBytes (n : nat) (s : string) : string :=
  match n, s with
  | O, _ => s
  | S n', String _ r => dropBytes n' r
  | S _, EmptyString => EmptyString
  end.

Fixpoint takeBytes (n : nat) (s : string) : string :=
  match n, s with
  | O, _ => EmptyString
  | S n', String c r => String c (takeBytes n' r)
  | S _, EmptyString => EmptyString
  end.

Definition TrimPrefix (s p : string) : string :=
  if HasPrefix s p then dropBytes (String.length p) s else s.

Fixpoint revBytes (acc s : string) : string :=
  match s with
  | EmptyString => acc
  | String c r => revBytes (String c acc) r
  end.

Definition quoted (s : string) : string :=
  String dquote (s +:+ String dquote EmptyString).

(** [%d] of an integer. *)
Definition itoa (z : Z) : string := NilEmpty.string_of_int (Z.to_int z).

(** *** strings.TrimSpace

    Unicode white space, as [unicode.IsSpace] defines it, in its UTF-8
    encoding: the six ASCII characters, U+0085, U+00A0, U+1680, U+2000 to
    U+200A, U+2028, U+2029, U+202F, U+205F and U+3000. *)

Definition isSpace1 (a : ascii) : bool := byteIn 9 13 a || byteIs 32 a.

Definition isSpace2 (a b : ascii) : bool :=
  byteIs 194 a && (byteIs 133 b || byteIs 160 b).

Definition isSpace3 (a b c : ascii) : bool :=
  (byteIs 225 a && byteIs 154 b && byteIs 128 c)
  || (byteIs 226 a && byteIs 128 b &&
      (byteIn 128 138 c || byteIs 168 c || byteIs 169 c || byteIs 175 c))
  || (byteIs 226 a && byteIs 129 b && byteIs 159 c)
  || (byteIs 227 a && byteIs 128 b && byteIs 128 c).

Fixpoint trimLeftSpace (s : string) : string :=
  match s with
  | EmptyString => s
  | String a r1 =>
      if isSpace1 a then trimLeftSpace r1
      else match r1 with
           | EmptyString => s
           | String b r2 =>
               if isSpace2 a b then trimLeftSpace r2
               else match r2 with
                    | EmptyString => s
                    | String c r3 => if isSpace3 a b c then trimLeftSpace r3 else s
                    end
           end
  end.

(** The same scan over the reversed string, for the right end. *)
Fixpoint trimLeftSpaceRev (s : string) : string :=
  match s with
  | EmptyString => s
  | String a r1 =>
      if isSpace1 a then trimLeftSpaceRev r1
      else match r1 with
           | EmptyString => s
           | String b r2 =>
               if isSpace2 b a then trimLeftSpaceRev r2
               else match r2 with
                    | EmptyString => s
                    | String c r3 => if isSpace3 c b a then trimLeftSpaceRev r3 else s
                    end
           end
  end.

Definition TrimSpace (s : string) : string :=
  revBytes EmptyString (trimLeftSpaceRev (revBytes EmptyString (trimLeftSpace s))).

(** *** bufio.Reader.ReadString

    [splitLines s] lists the successive results of [ReadString('\n')] on a
    reader over [s] that come back without an error: the newline-terminated
    lines, each with its newline.  The second component is what the last
    call returns together with its error, the unterminated rest. *)
Fixpoint splitLines (s : string) : list string * string :=
  match s with
  | EmptyString => ([], EmptyString)
  | String c r =>
      let (ls, rest) := splitLines r in
      if Ascii.eqb c LF then (String c EmptyString :: ls, rest)
      else match ls with
           | [] => ([], String c rest)
           | l :: ls' => (String c l :: ls', rest)
           end
  end.

(** *** strings.ToLower

    Go lower-cases an all-ASCII string byte by byte and hands every other
    string to [strings.Map(unicode.ToLower, s)], which needs the Unicode case
    tables; that second half is the parameter [unicodeLower] of the program
    section.  [asciiLower] is the byte-wise half on its own. *)

Definition isUpperByte (c : ascii) : bool := byteIn 65 90 c.

Definition lowerByte (c : ascii) : ascii :=
  if isUpperByte c then ascii_of_N (N_of_ascii c + 32) else c.

Definition isASCII (s : string) : bool :=
  allBytes (fun c => (N_of_ascii c <? 128)%N) s.

Definition asciiLower (s : string) : string := mapBytes lowerByte s.

(** ** Values of type interface{} and encoding/json *)

Inductive result (A : Type) : Type :=
| Ok (a : A)
| Err (e : string).
Arguments Ok {A} a.
Arguments Err {A} e.

#[local] Set Warnings "-register-all".

(** What [json.Unmarshal] stores in an [interface{}], plus [VInt] for the
    integers the program itself puts into the objects it sends.  A decoded
    number keeps its source text: the program never looks at its value. *)
Inductive Value : Type :=
| VNil
| VBool (b : bool)
| VInt (n : Z)
| VNumber (lit : string)
| VString (s : string)
| VSlice (l : list Value)
| VMap (m : list (string * Value)).

Fixpoint mapGet (m : list (string * Value)) (k : string) : option Value :=
  match m with
  | [] => None
  | (k', v) :: m' => if String.eqb k' k then Some v else mapGet m' k
  end.

(** [m[k] = v]. *)
Fixpoint mapSet (k : string) (v : Value) (m : list (string * Value)) : list (string * Value) :=
  match m with
  | [] => [(k, v)]
  | (k', v') :: m' => if String.eqb k' k then (k, v) :: m' else (k', v') :: mapSet k v m'
  end.

(** [v == "..."] for an interface value and a string constant. *)
Definition valueIsString (v : option Value) (s : string) : bool :=
  match v with
  | Some (VString t) => String.eqb t s
  | _ => false
  end.

(** *** json.Unmarshal into a map[string]interface{}

    The decoder follows [encoding/json]: the grammar of its scanner (white
    space is space, tab, CR and LF; no control character inside a string;
    at most 10000 nested arrays and objects; nothing but white space after
    the value), the string unquoting of [unquote] (escapes, surrogate pairs,
    U+FFFD for an ill-formed UTF-8 byte or a lone surrogate), a number that
    overflows float64 is an error, and in an object a repeated key keeps
    its last value. *)

Definition isJSONSpace (c : ascii) : bool :=
  byteIs 32 c || byteIs 9 c || byteIs 13 c || byteIs 10 c.

Fixpoint skipWS (s : string) : string :=
  match s with
  | String c r => if isJSONSpace c then skipWS r else s
  | EmptyString => s
  end.

Definition isDigit (c : ascii) : bool := byteIn 48 57 c.

Definition hexVal (c : ascii) : option N :=
  let n := N_of_ascii c in
  if byteIn 48 57 c then Some (n - 48)%N
  else if byteIn 97 102 c then Some (n - 87)%N
  else if byteIn 65 70 c then Some (n - 55)%N
  else None.

Definition hex4 (a b c d : ascii) : option N :=
  match hexVal a, hexVal b, hexVal c, hexVal d with
  | Some x, Some y, Some z, Some w => Some (x * 4096 + y * 256 + z * 16 + w)%N
  | _, _, _, _ => None
  end.

Definition byteOf (n : N) : ascii := ascii_of_N n.

(** [utf8.EncodeRune] for a rune that is no surrogate and at most U+10FFFF. *)
Definition encodeRune (r : N) : string :=
  if (r <? 128)%N then String (byteOf r) EmptyString
  else if (r <? 2048)%N then
    String (byteOf (192 + r / 64)) (String (byteOf (128 + r mod 64)) EmptyString)
  else if (r <? 65536)%N then
    String (byteOf (224 + r / 4096))
      (String (byteOf (128 + (r / 64) mod 64)) (String (byteOf (128 + r mod 64)) EmptyString))
  else
    String (byteOf (240 + r / 262144))
      (String (byteOf (128 + (r / 4096) mod 64))
         (String (byteOf (128 + (r / 64) mod 64)) (String (byteOf (128 + r mod 64)) EmptyString))).

Definition replacementChar : string := encodeRune 65533.

Definition isCont (c : ascii) : bool := byteIn 128 191 c.

(** Second byte allowed after the lead byte [a] of a multi-byte sequence. *)
Definition secondOK (a b : ascii) : bool :=
  if byteIs 224 a then byteIn 160 191 b
  else if byteIs 237 a then byteIn 128 159 b
  else if byteIs 240 a then byteIn 144 191 b
  else if byteIs 244 a then byteIn 128 143 b
  else isCont b.

(** The body of a string literal, after its opening quote: the decoded text
    and what follows the closing quote. *)
Fixpoint unquoteBody (s : string) : option (string * string) :=
  let emit (t : string) (r : string) :=
    match unquoteBody r with
    | Some (u, rest) => Some (t +:+ u, rest)
    | None => None
    end in
  let byte (n : N) := String (byteOf n) EmptyString in
  match s with
  | EmptyString => None
  | String a r1 =>
    if byteIs 34 a then Some (EmptyString, r1)
    else if (N_of_ascii a <? 32)%N then None
    else if byteIs 92 a then
      match r1 with
      | EmptyString => None
      | String e r2 =>
        if byteIs 34 e || byteIs 92 e || byteIs 47 e then emit (String e EmptyString) r2
        else if byteIs 98 e then emit (byte 8%N) r2
        else if byteIs 102 e then emit (byte 12%N) r2
        else if byteIs 110 e then emit (byte 10%N) r2
        else if byteIs 114 e then emit (byte 13%N) r2
        else if byteIs 116 e then emit (byte 9%N) r2
        else if byteIs 117 e then
          match r2 with
          | String h1 (String h2 (String h3 (String h4 r6))) =>
            match hex4 h1 h2 h3 h4 with
            | None => None
            | Some rr =>
              if (55296 <=? rr)%N && (rr <? 57344)%N then
                (* a surrogate: a pair when a low surrogate escape follows a high one *)
                match r6 with
                | String b1 (String b2 (String l1 (String l2 (String l3 (String l4 r12))))) =>
                  match (if byteIs 92 b1 && byteIs 117 b2 then hex4 l1 l2 l3 l4 else None) with
                  | Some rr1 =>
                    if (rr <? 56320)%N && (56320 <=? rr1)%N && (rr1 <? 57344)%N then
                      emit (encodeRune ((rr - 55296) * 1024 + (rr1 - 56320) + 65536)) r12
                    else emit replacementChar r6
                  | None => emit replacementChar r6
                  end
                | _ => emit replacementChar r6
                end
              else emit (encodeRune rr) r6
            end
          | _ => None
          end
        else None
      end
    else if (N_of_ascii a <? 128)%N then emit (String a EmptyString) r1
    else
      (* a byte of a multi-byte rune: kept when well-formed, else U+FFFD *)
      match r1 with
      | String b r2 =>
        if byteIn 194 223 a then
          if isCont b then emit (String a (String b EmptyString)) r2
          else emit replacementChar r1
        else if byteIn 224 239 a then
          match r2 with
          | String c r3 =>
            if secondOK a b && isCont c then emit (String a (String b (String c EmptyString))) r3
            else emit replacementChar r1
          | EmptyString => emit replacementChar r1
          end
        else if byteIn 240 244 a then
          match r2 with
          | String c (String d r4) =>
            if secondOK a b && isCont c && isCont d then
              emit (String a (String b (String c (String d EmptyString)))) r4
            else emit replacementChar r1
          | _ => emit replacementChar r1
          end
        else emit replacementChar r1
      | EmptyString => emit replacementChar r1
      end
  end.

Fixpoint spanDigits (s : string) : string * string :=
  match s with
  | String c r =>
      if isDigit c then let (d, rest) := spanDigits r in (String c d, rest)
      else (EmptyString, s)
  | EmptyString => (EmptyString, s)
  end.

Fixpoint digitsToZ (acc : Z) (s : string) : Z :=
  match s with
  | String c r => digitsToZ (10 * acc + (Z.of_N (N_of_ascii c) - 48)) r
  | EmptyString => acc
  end.

(** The integer part of a number: [0], or a digit from 1 to 9 followed by
    digits. *)
Definition spanInt (s : string) : option (string * string) :=
  match s with
  | String c r =>
      if byteIs 48 c then Some (String c EmptyString, r)
      else if byteIn 49 57 c then Some (spanDigits s)
      else None
  | EmptyString => None
  end.

(** Whether the decimal [m * 10^k] rounds to an infinite float64: it does
    from [2^1024 - 2^970] on, the midpoint above the largest finite value. *)
Definition overflowsFloat64 (m k : Z) (ndigits : nat) : bool :=
  let limit := 2 ^ 1024 - 2 ^ 970 in
  if m =? 0 then false
  else if 0 <=? k then
    if 400 <? k then true else limit <=? m * 10 ^ k
  else if Z.of_nat ndigits <? - k then false
  else limit * 10 ^ (- k) <=? m.

(** A number literal: its text and what follows it. *)
Definition scanNumber (s : string) : option (string * string) :=
  let (sign, s1) :=
    match s with
    | String c r => if byteIs 45 c then (String c EmptyString, r) else (EmptyString, s)
    | EmptyString => (EmptyString, s)
    end in
  match spanInt s1 with
  | None => None
  | Some (ip, s2) =>
    let frac :=
      match s2 with
      | String c r =>
          if byteIs 46 c then
            let (fp, s3) := spanDigits r in
            match fp with
            | EmptyString => None
            | _ => Some (fp, String c fp, s3)
            end
          else Some (EmptyString, EmptyString, s2)
      | EmptyString => Some (EmptyString, EmptyString, s2)
      end in
    match frac with
    | None => None
    | Some (fp, ftext, s3) =>
      let expo :=
        match s3 with
        | String c r =>
            if byteIs 101 c || byteIs 69 c then
              let '(neg, stext, r') :=
                match r with
                | String g r'' =>
                    if byteIs 43 g then (false, String g EmptyString, r'')
                    else if byteIs 45 g then (true, String g EmptyString, r'')
                    else (false, EmptyString, r)
                | EmptyString => (false, EmptyString, r)
                end in
              let (ep, s4) := spanDigits r' in
              match ep with
              | EmptyString => None
              | _ => Some ((if neg then - digitsToZ 0 ep else digitsToZ 0 ep),
                           String c (stext +:+ ep), s4)
              end
            else Some (0, EmptyString, s3)
        | EmptyString => Some (0, EmptyString, s3)
        end in
      match expo with
      | None => None
      | Some (e, etext, s4) =>
          let digits := ip +:+ fp in
          if overflowsFloat64 (digitsToZ 0 digits) (e - Z.of_nat (String.length fp))
               (String.length digits)
          then None
          else Some (sign +:+ ip +:+ ftext +:+ etext, s4)
      end
    end
  end.

Definition maxNestingDepth : Z := 10000.

(** One JSON value at the head of [s], after white space.  [fuel] bounds
    the number of nested calls; [depth] counts the enclosing arrays and
    objects. *)
Fixpoint parseValue (fuel : nat) (depth : Z) (s : string) : option (Value * string) :=
  match fuel with
  | O => None
  | S fuel' =>
    match skipWS s with
    | EmptyString => None
    | String c r =>
      if byteIs 123 c then
        if maxNestingDepth <=? depth then None
        else match skipWS r with
             | String c' r' =>
                 if byteIs 125 c' then Some (VMap [], r')
                 else parseMembers fuel' (depth + 1) (String c' r') []
             | EmptyString => None
             end
      else if byteIs 91 c then
        if maxNestingDepth <=? depth then None
        else match skipWS r with
             | String c' r' =>
                 if byteIs 93 c' then Some (VSlice [], r')
                 else parseElements fuel' (depth + 1) (String c' r') []
             | EmptyString => None
             end
      else if byteIs 34 c then
        match unquoteBody r with
        | Some (t, rest) => Some (VString t, rest)
        | None => None
        end
      else if byteIs 45 c || isDigit c then
        match scanNumber (String c r) with
        | Some (lit, rest) => Some (VNumber lit, rest)
        | None => None
        end
      else if HasPrefix (String c r) "true" then Some (VBool true, dropBytes 4 (String c r))
      else if HasPrefix (String c r) "false" then Some (VBool false, dropBytes 5 (String c r))
      else if HasPrefix (String c r) "null" then Some (VNil, dropBytes 4 (String c r))
      else None
    end
  end

with parseElements (fuel : nat) (depth : Z) (s : string) (acc : list Value) : option (Value * string) :=
  match fuel with
  | O => None
  | S fuel' =>
    match parseValue fuel' depth s with
    | None => None
    | Some (v, rest) =>
      match skipWS rest with
      | String c r =>
          if byteIs 44 c then parseElements fuel' depth r (acc ++ [v])
          else if byteIs 93 c then Some (VSlice (acc ++ [v]), r)
          else None
      | EmptyString => None
      end
    end
  end

with parseMembers (fuel : nat) (depth : Z) (s : string) (acc : list (string * Value)) : option (Value * string) :=
  match fuel with
  | O => None
  | S fuel' =>
    match skipWS s with
    | String q r0 =>
      if byteIs 34 q then
        match unquoteBody r0 with
        | None => None
        | Some (k, r1) =>
          match skipWS r1 with
          | String c r2 =>
            if byteIs 58 c then
              match parseValue fuel' depth r2 with
              | None => None
              | Some (v, rest) =>
                match skipWS rest with
                | String c' r3 =>
                    if byteIs 44 c' then parseMembers fuel' depth r3 (mapSet k v acc)
                    else if byteIs 125 c' then Some (VMap (mapSet k v acc), r3)
                    else None
                | EmptyString => None
                end
              end
            else None
          | EmptyString => None
          end
        end
      else None
    | EmptyString => None
    end
  end.

(** [json.Unmarshal(data, &chunk)] for [var chunk map[string]interface{}]:
    the decoded object; the empty (nil) map for [null]; an error for text
    that is no JSON value or is another kind of value. *)
Definition Unmarshal (data : string) : result (list (string * Value)) :=
  match parseValue (2 * String.length data + 2) 0 data with
  | None => Err "invalid JSON"
  | Some (v, rest) =>
      match skipWS rest with
      | EmptyString =>
          match v with
          | VMap m => Ok m
          | VNil => Ok []
          | _ => Err "json: cannot unmarshal into Go value of type map[string]interface {}"
          end
      | String _ _ => Err "invalid character after top-level value"
      end
  end.

(** ** Regular expressions

    The patterns of the program use literals, character classes, a greedy
    [*] or [+] on a class, concatenation and one capture group.  Go returns
    the leftmost match and, at that position, the match a backtracking
    search finds first; [matchK] is that search, with [k] the rest of the
    pattern.  Every class of the program is a set of ASCII characters or the
    complement of one, so matching byte by byte and rune by rune agree. *)

Inductive regex : Type :=
| Lit (l : string)
| Class (p : ascii -> bool)
| Star (p : ascii -> bool)
| Plus (p : ascii -> bool)
| Cat (r1 r2 : regex)
| Group (r : regex).

Definition oneOf (set : string) (c : ascii) : bool := anyByte (Ascii.eqb c) set.
Definition noneOf (set : string) (c : ascii) : bool := negb (oneOf set c).

(** [\s]: tab, line feed, form feed, carriage return, space. *)
Definition reSpace (c : ascii) : bool :=
  byteIs 9 c || byteIs 10 c || byteIs 12 c || byteIs 13 c || byteIs 32 c.

Fixpoint catAll (rs : list regex) : regex :=
  match rs with
  | [] => Lit EmptyString
  | [r] => r
  | r :: rs' => Cat r (catAll rs')
  end.

Fixpoint starK {A : Type} (p : ascii -> bool) (s : string) (k : string -> option A) : option A :=
  match s with
  | String c r =>
      if p c then
        match starK p r k with
        | Some x => Some x
        | None => k s
        end
      else k s
  | EmptyString => k s
  end.

Fixpoint matchK {A : Type} (re : regex) (s : string) (caps : list string)
  (k : string -> list string -> option A) : option A :=
  match re with
  | Lit l => if HasPrefix s l then k (dropBytes (String.length l) s) caps else None
  | Class p =>
      match s with
      | String c r => if p c then k r caps else None
      | EmptyString => None
      end
  | Star p => starK p s (fun r => k r caps)
  | Plus p =>
      match s with
      | String c r => if p c then starK p r (fun r' => k r' caps) else None
      | EmptyString => None
      end
  | Cat a b => matchK a s caps (fun r caps' => matchK b r caps' k)
  | Group a =>
      matchK a s caps
        (fun r caps' => k r (caps' ++ [takeBytes (String.length s - String.length r) s]))
  end.

(** A match that starts at the head of [s]: the matched text followed by
    the groups, and the input after the match. *)
Definition matchHere (re : regex) (s : string) : option (list string * string) :=
  matchK re s []
    (fun r caps => Some (takeBytes (String.length s - String.length r) s :: caps, r)).

Fixpoint findFirst (re : regex) (s : string) : option (list string * string) :=
  match matchHere re s with
  | Some m => Some m
  | None =>
      match s with
      | String _ r => findFirst re r
      | EmptyString => None
      end
  end.

(** [re.FindStringSubmatch(s)]; [nil] is the empty list. *)
Definition FindStringSubmatch (re : regex) (s : string) : list string :=
  match findFirst re s with
  | Some (m, _) => m
  | None => []
  end.

Fixpoint findAll (fuel : nat) (re : regex) (s : string) : list (list string) :=
  match fuel with
  | O => []
  | S fuel' =>
      match findFirst re s with
      | Some (m, rest) => m :: findAll fuel' re rest
      | None => []
      end
  end.

(** [re.FindAllStringSubmatch(s, -1)], for a pattern that matches no empty
    text: the successive matches, each searched after the previous one. *)
Definition FindAllStringSubmatch (re : regex) (s : string) : list (list string) :=
  findAll (String.length s) re s.

Definition quotes : string := String dquote (String squote EmptyString).
Definition dq : string := String dquote EmptyString.
Definition sq : string := String squote EmptyString.

(** The patterns are written with [q] for the class of the two quote
    characters, [d] for the double quote, [a] for the apostrophe and [^x]
    for the complement of [x].

    [vqd=q(^q+)q] *)
Definition vqdRegex : regex :=
  catAll [Lit "vqd="; Class (oneOf quotes); Group (Plus (noneOf quotes)); Class (oneOf quotes)].

(** [vqd[:=]q(^q+)q], [dvqdd:d(^d+)d] and [avqda:a(^a+)a] *)
Definition alternatePatterns : list regex :=
  [ catAll [Lit "vqd"; Class (oneOf ":="); Class (oneOf quotes);
            Group (Plus (noneOf quotes)); Class (oneOf quotes)];
    catAll [Lit (quoted "vqd" +:+ ":" +:+ dq); Group (Plus (noneOf dq)); Lit dq];
    catAll [Lit (sq +:+ "vqd" +:+ sq +:+ ":" +:+ sq); Group (Plus (noneOf sq)); Lit sq] ].

(** [(/dist/^q+\.js)] *)
Definition jsURLRegex : regex :=
  Group (catAll [Lit "/dist/"; Plus (noneOf quotes); Lit ".js"]).

(** [vqd\s*[:=]\s*q(^q+)q] *)
Definition vqdInJSRegex : regex :=
  catAll [Lit "vqd"; Star reSpace; Class (oneOf ":="); Star reSpace; Class (oneOf quotes);
          Group (Plus (noneOf quotes)); Class (oneOf quotes)].

(** [dvqdd\s*:\s*d(^d+)d] *)
Definition vqdInJSRegex2 : regex :=
  catAll [Lit (quoted "vqd"); Star reSpace; Lit ":"; Star reSpace; Lit dq;
          Group (Plus (noneOf dq)); Lit dq].

(** [avqda\s*:\s*a(^a+)a] *)
Definition vqdInJSRegex3 : regex :=
  catAll [Lit (sq +:+ "vqd" +:+ sq); Star reSpace; Lit ":"; Star reSpace; Lit sq;
          Group (Plus (noneOf sq)); Lit sq].

Definition fallbackPatterns : list regex := [vqdInJSRegex; vqdInJSRegex2; vqdInJSRegex3].

(** ** net/url

    [http.NewRequest] returns an error exactly when [url.Parse] rejects
    the address: the methods the program uses are valid.  What follows is
    the part of [url.Parse] that decides on the error, as in Go 1.21, the
    release the Dockerfile builds with.  Each function with [OK] in its
    name tells whether the error of the Go function is [nil]. *)

(** [strings.Cut(s, sep)] for a separator of one byte. *)
Fixpoint Cut (s : string) (sep : ascii) : string * string * bool :=
  match s with
  | EmptyString => (EmptyString, EmptyString, false)
  | String c r =>
      if Ascii.eqb c sep then (EmptyString, r, true)
      else let '(before, after, found) := Cut r sep in (String c before, after, found)
  end.

(** [s[:i]] and [s[i:]] for [i := strings.LastIndex(s, sep)], when [sep]
    occurs. *)
Fixpoint cutLast (s : string) (sep : ascii) : option (string * string) :=
  match s with
  | EmptyString => None
  | String c r =>
      match cutLast r sep with
      | Some (before, from) => Some (String c before, from)
      | None => if Ascii.eqb c sep then Some (EmptyString, s) else None
      end
  end.

(** [s[:i]] and [s[i:]] for [i := strings.Index(s, sub)], when [sub]
    occurs. *)
Fixpoint cutAt (s sub : string) : option (string * string) :=
  if HasPrefix s sub then Some (EmptyString, s)
  else match s with
       | EmptyString => None
       | String c r =>
           match cutAt r sub with
           | Some (before, from) => Some (String c before, from)
           | None => None
           end
       end.

Fixpoint countByte (c : ascii) (s : string) : nat :=
  match s with
  | EmptyString => O
  | String d r => if Ascii.eqb d c then S (countByte c r) else countByte c r
  end.

Definition endsWith (s : string) (c : ascii) : bool :=
  match revBytes EmptyString s with
  | String d _ => Ascii.eqb d c
  | EmptyString => false
  end.

(** [s[:len(s)-1]] *)
Definition dropLast (s : string) : string :=
  revBytes EmptyString (dropBytes 1 (revBytes EmptyString s)).

Definition stringContainsCTLByte (s : string) : bool :=
  anyByte (fun c => (N_of_ascii c <? 32)%N || byteIs 127 c) s.

Definition isLetter (c : ascii) : bool := byteIn 97 122 c || byteIn 65 90 c.

Inductive SchemeScan : Type :=
| MissingScheme
| NoScheme
| HasScheme (scheme rest : string).

(** The loop of [getScheme]; [first] tells whether the index is 0. *)
Fixpoint scanScheme (first : bool) (s : string) : SchemeScan :=
  match s with
  | EmptyString => NoScheme
  | String c r =>
      let more :=
        match scanScheme false r with
        | HasScheme scheme rest => HasScheme (String c scheme) rest
        | other => other
        end in
      if isLetter c then more
      else if isDigit c || oneOf "+-." c then (if first then NoScheme else more)
      else if byteIs 58 c then (if first then MissingScheme else HasScheme EmptyString r)
      else NoScheme
  end.

(** [getScheme]: the scheme and the rest, [None] for the error. *)
Definition getScheme (rawURL : string) : option (string * string) :=
  match scanScheme true rawURL with
  | MissingScheme => None
  | NoScheme => Some (EmptyString, rawURL)
  | HasScheme scheme rest => Some (scheme, rest)
  end.

Inductive encoding : Type :=
| encodePath
| encodePathSegment
| encodeHost
| encodeZone
| encodeUserPassword
| encodeQueryComponent
| encodeFragment.

Definition isHostMode (mode : encoding) : bool :=
  match mode with
  | encodeHost | encodeZone => true
  | _ => false
  end.

Definition shouldEscape (c : ascii) (mode : encoding) : bool :=
  if isLetter c || isDigit c then false
  else if isHostMode mode
          && (oneOf "!$&'()*+,;=:[]<>" c || Ascii.eqb c dquote) then false
  else if oneOf "-_.~" c then false
  else if oneOf "$&+,/:;=?@" c then
    match mode with
    | encodePath => byteIs 63 c
    | encodePathSegment => oneOf "/;,?" c
    | encodeUserPassword => oneOf "@/?:" c
    | encodeQueryComponent => true
    | encodeFragment => false
    | encodeHost | encodeZone => true
    end
  else if (match mode with encodeFragment => true | _ => false end) && oneOf "!()*" c then false
  else true.

(** [unescape(s, mode)] returns no error. *)
Fixpoint unescapeOK (mode : encoding) (s : string) : bool :=
  match s with
  | EmptyString => true
  | String c r =>
      if byteIs 37 c then
        match r with
        | String a (String b r') =>
            match hexVal a, hexVal b with
            | Some x, Some y =>
                let is25 := byteIs 50 a && byteIs 53 b in
                if (match mode with encodeHost => true | _ => false end)
                   && (x <? 8)%N && negb is25 then false
                else if (match mode with encodeZone => true | _ => false end)
                        && negb is25 && negb (x * 16 + y =? 32)%N
                        && shouldEscape (ascii_of_N (x * 16 + y)) encodeHost then false
                else unescapeOK mode r'
            | _, _ => false
            end
        | _ => false
        end
      else if isHostMode mode && negb (byteIs 43 c) && (N_of_ascii c <? 128)%N
              && shouldEscape c encodeHost then false
      else unescapeOK mode r
  end.

Definition validOptionalPort (port : string) : bool :=
  match port with
  | EmptyString => true
  | String c r => byteIs 58 c && allBytes isDigit r
  end.

Definition validUserinfo (s : string) : bool :=
  allBytes (fun c => isLetter c || isDigit c || oneOf "-._:~!$&'()*+,;=%@" c) s.

Definition parseHostOK (host : string) : bool :=
  if HasPrefix host "[" then
    match cutLast host "]" with
    | None => false
    | Some (before, from) =>
        if negb (validOptionalPort (dropBytes 1 from)) then false
        else
          match cutAt before "%25" with
          | Some (host1, host2) =>
              unescapeOK encodeHost host1 && unescapeOK encodeZone host2
              && unescapeOK encodeHost from
          | None => unescapeOK encodeHost host
          end
    end
  else
    match cutLast host ":" with
    | Some (_, colonPort) =>
        if negb (validOptionalPort colonPort) then false else unescapeOK encodeHost host
    | None => unescapeOK encodeHost host
    end.

Definition parseAuthorityOK (authority : string) : bool :=
  match cutLast authority "@" with
  | None => parseHostOK authority
  | Some (userinfo, from) =>
      parseHostOK (dropBytes 1 from)
      && validUserinfo userinfo
      && (let '(username, password, found) := Cut userinfo ":" in
          if found then
            unescapeOK encodeUserPassword username && unescapeOK encodeUserPassword password
          else unescapeOK encodeUserPassword userinfo)
  end.

(** [parse(rawURL, false)] *)
Definition parseOK (rawURL : string) : bool :=
  if stringContainsCTLByte rawURL then false
  else if String.eqb rawURL "*" then true
  else
    match getScheme rawURL with
    | None => false
    | Some (scheme, rest) =>
        let rest :=
          if endsWith rest "?" && (countByte "?" rest =? 1)%nat then dropLast rest
          else fst (fst (Cut rest "?")) in
        if negb (HasPrefix rest "/") && negb (String.eqb scheme EmptyString) then true
        else if negb (HasPrefix rest "/")
                && anyByte (Ascii.eqb ":") (fst (fst (Cut rest "/"))) then false
        else if (negb (String.eqb scheme EmptyString) || negb (HasPrefix rest "///"))
                && HasPrefix rest "//" then
          let '(authority, after, found) := Cut (dropBytes 2 rest) "/" in
          parseAuthorityOK authority
          && unescapeOK encodePath (if found then String "/" after else EmptyString)
        else unescapeOK encodePath rest
    end.

(** [url.Parse(rawURL)] returns no error. *)
Definition ParseOK (rawURL : string) : bool :=
  let '(u, frag, _) := Cut rawURL "#" in
  parseOK u && unescapeOK encodeFragment frag.

(** ** net/http *)

Definition isTokenByte (c : ascii) : bool :=
  byteIn 48 57 c || byteIn 65 90 c || byteIn 97 122 c || oneOf "!#$%&'*+-.^_`|~" c.

Definition upperByte (c : ascii) : ascii :=
  if byteIn 97 122 c then ascii_of_N (N_of_ascii c - 32) else c.

Fixpoint canonicalCase (upper : bool) (s : string) : string :=
  match s with
  | EmptyString => EmptyString
  | String c r =>
      let c' := if upper then upperByte c else lowerByte c in
      String c' (canonicalCase (byteIs 45 c') r)
  end.

(** [textproto.CanonicalMIMEHeaderKey]: [x-vqd-4] becomes [X-Vqd-4]; a key
    with a byte that no header name may contain is left as it is. *)
Definition CanonicalMIMEHeaderKey (s : string) : string :=
  if allBytes isTokenByte s then canonicalCase true s else s.

(** [h.Set(k, v)] and [h.Get(k)]. *)
Definition HeaderSet (k v : string) (h : gmap string string) : gmap string string :=
  <[CanonicalMIMEHeaderKey k := v]> h.

Definition HeaderGet (h : gmap string string) (k : string) : string :=
  default EmptyString (h !! CanonicalMIMEHeaderKey k).

(** A request as [client.Do] receives it.  [ReqBody] is the value whose
    [json.Marshal] is the body, when there is one. *)
Record Request : Type := mkRequest {
  Method : string;
  URL : string;
  Header : gmap string string;
  ReqBody : option Value
}.

(** A response: [Body] is what reading [resp.Body] delivers and [BodyErr]
    how the read ends, [None] for [io.EOF]. *)
Record Response : Type := mkResponse {
  StatusCode : Z;
  RespHeader : gmap string string;
  Body : string;
  BodyErr : option string
}.

Record Config : Type := mkConfig {
  APIPrefix : string;
  MaxRetryCount : Z;
  RetryDelay : Z;
  FakeHeaders : gmap string string;
  ProxyURL : string
}.

(** ** The inbound request and the outside world *)

Record Message : Type := mkMessage {
  Role : string;
  Content : Value
}.

Record ChatRequest : Type := mkChatRequest {
  Model : string;
  Messages : list Message;
  Stream : bool
}.

(** The part of [*gin.Context] that the handler reads: the request headers
    under their canonical names, and what [c.ShouldBindJSON(&req)] makes of
    the body. *)
Record Context : Type := mkContext {
  ReqHeader : gmap string string;
  ShouldBindJSON : result ChatRequest
}.

Definition GetHeader (c : Context) (k : string) : string := HeaderGet (ReqHeader c) k.

(** What the outside answers.  Round trips, clock readings and writes are
    numbered from 0 in the order the program makes them. *)
Record Env : Type := mkEnv {
  Getenv : string -> string;
  roundTrip : nat -> Request -> result Response;
  unixTime : nat -> Z;
  isFlusher : bool;
  writeErr : nat -> option string
}.

(** What reaches the client of the inbound request: [OutJSON code obj] for
    the body [json.Marshal(obj)] that a [c.JSON] writes, [code] being the
    status of the response it arrives under, and [OutData obj] for a
    successful [c.Writer.Write] of the frame [data: ] followed by
    [json.Marshal(obj)] and a blank line. *)
Inductive Output : Type :=
| OutJSON (code : Z) (obj : Value)
| OutData (obj : Value).

Record St : Type := mkSt {
  sent : list Request;
  clockReads : nat;
  slept : list Z;
  wHeader : gmap string string;
  writes : nat;
  out : list Output
}.

Definition M (A : Type) : Type := St -> A * St.

Definition ret {A : Type} (a : A) : M A := fun st => (a, st).

Definition bind {A B : Type} (m : M A) (f : A -> M B) : M B :=
  fun st => let (a, st') := m st in f a st'.

Notation "x <- m ;; k" := (bind m (fun x => k))
  (at level 200, m at level 99, k at level 200, right associativity).
Notation "m ;;; k" := (bind m (fun _ => k))
  (at level 200, k at level 200, right associativity).

(** [time.Sleep(d)] *)
Definition Sleep (d : Z) : M unit :=
  fun st => (tt, mkSt (sent st) (clockReads st) (slept st ++ [d]) (wHeader st) (writes st) (out st)).

(** [c.Writer.Header().Set(k, v)] *)
Definition SetHeader (k v : string) : M unit :=
  fun st => (tt, mkSt (sent st) (clockReads st) (slept st) (HeaderSet k v (wHeader st))
                   (writes st) (out st)).

Definition StatusOK : Z := 200.
Definition StatusBadRequest : Z := 400.
Definition StatusUnauthorized : Z := 401.
Definition StatusInternalServerError : Z := 500.

(** The status line of the response, once it is written.  gin writes the
    header of the response with the first [c.Writer.Write], whether the
    write then succeeds or not, under the status 200 the writer starts
    with, or with the first [c.JSON], under the status of that call.
    [None] as long as nothing has been written. *)
Definition committed (st : St) : option Z :=
  match out st with
  | OutJSON code _ :: _ => Some code
  | OutData _ :: _ => Some StatusOK
  | [] => if (writes st =? 0)%nat then None else Some StatusOK
  end.

(** The status under which the body of [c.JSON(code, ...)] arrives:
    [code], unless the header is written already, which [WriteHeader]
    cannot undo. *)
Definition statusSent (st : St) (code : Z) : Z := default code (committed st).

(** [c.JSON(code, obj)] *)
Definition JSON (code : Z) (obj : Value) : M unit :=
  fun st => (tt, mkSt (sent st) (clockReads st) (slept st) (wHeader st) (writes st)
                   (out st ++ [OutJSON (statusSent st code) obj])).

(** [gin.H{"error": msg}] *)
Definition errorBody (msg : string) : Value := VMap [("error", VString msg)].

(** How a call of the handler ends.  [Panicked] is a run-time panic;
    [OutOfFuel] is an artefact of the bounded loop below and never the
    result of [handleCompletion] (see [handleCompletion_exits]). *)
Inductive Exit : Type :=
| Returned
| Panicked
| OutOfFuel.

Definition chatID : string := "chatcmpl-QXlha2FBbmROaXhpZUFyZUF3ZXNvbWUK".

Definition homepageURL : string := "https://duckduckgo.com/".
Definition statusURL : string := "https://duckduckgo.com/duckchat/v1/status".
Definition chatURL : string := "https://duckduckgo.com/duckchat/v1/chat".

Definition fallbackURLs : list string :=
  [ "https://duckduckgo.com/duck.js";
    "https://duckduckgo.com/chat.js";
    "https://duckduckgo.com/d.js" ].

(** The configuration [init] builds when the environment sets nothing. *)
Definition defaultFakeHeaders : gmap string string :=
  list_to_map
    [ ("Accept", "*/*");
      ("Accept-Encoding", "gzip, deflate, br, zstd");
      ("Accept-Language", "zh-CN,zh;q=0.9");
      ("Origin", "https://duckduckgo.com/");
      ("Cookie", "dcm=3; dcs=1");
      ("Priority", "u=1, i");
      ("Referer", "https://duckduckgo.com/");
      ("Sec-Ch-Ua", quoted "Chromium" +:+ ";v=" +:+ quoted "134" +:+ ", "
                    +:+ quoted "Not:A-Brand" +:+ ";v=" +:+ quoted "24" +:+ ", "
                    +:+ quoted "Google Chrome" +:+ ";v=" +:+ quoted "134");
      ("Sec-Ch-Ua-Mobile", "?0");
      ("Sec-Ch-Ua-Platform", quoted "Windows");
      ("Sec-Fetch-Dest", "empty");
      ("Sec-Fetch-Mode", "cors");
      ("Sec-Fetch-Site", "same-origin");
      ("User-Agent", "Mozilla/5.0 (Windows NT 10.0; Win64; x64) AppleWebKit/537.36 (KHTML, like Gecko) Chrome/134.0.0.0 Safari/537.36") ].

Definition defaultConfig : Config :=
  mkConfig "/" 3 5000 defaultFakeHeaders EmptyString.

(** ** The program *)

Section Program.

(** [strings.Map(unicode.ToLower, s)], used for a string with a byte
    outside ASCII. *)
Variable unicodeLower : string -> string.

(** [fmt.Sprintf("%v", v)] *)
Variable Sprint : Value -> string.

Variable config : Config.
Variable E : Env.

Definition ToLower (s : string) : string :=
  if isASCII s then
    if anyByte isUpperByte s then mapBytes lowerByte s else s
  else unicodeLower s.

Definition convertModel (inputModel : string) : string :=
  let m := ToLower inputModel in
  if String.eqb m "claude-3-haiku" then "claude-3-haiku-20240307"
  else if String.eqb m "llama-3.3-70b" then "meta-llama/Llama-3.3-70B-Instruct-Turbo"
  else if String.eqb m "mistral-small" then "mistralai/Mistral-Small-24B-Instruct-2501"
  else if String.eqb m "o3-mini" then "o3-mini"
  else "gpt-4o-mini".

(** The [switch v := msg.Content.(type)] of [prepareMessages]. *)
Definition contentStr (content : Value) : string :=
  match content with
  | VString v => v
  | VSlice v =>
      fold_left
        (fun acc item =>
           match item with
           | VMap itemMap =>
               match mapGet itemMap "text" with
               | Some (VString text) => acc +:+ text
               | _ => acc
               end
           | _ => acc
           end)
        v EmptyString
  | _ => Sprint content
  end.

Definition prepareMessages (messages : list Message) : string :=
  fold_left
    (fun contentBuilder msg =>
       let role := if String.eqb (Role msg) "system" then "user" else Role msg in
       contentBuilder +:+ (role +:+ ":" +:+ contentStr (Content msg) +:+ ";"
                           +:+ String CR (String LF EmptyString)))
    messages EmptyString.

(** *** Effects *)

(** [time.Now().Unix()] *)
Definition Now : M Z :=
  fun st => (unixTime E (clockReads st),
             mkSt (sent st) (S (clockReads st)) (slept st) (wHeader st) (writes st) (out st)).

(** [client.Do(req)] *)
Definition Do (req : Request) : M (result Response) :=
  fun st => (roundTrip E (length (sent st)) req,
             mkSt (sent st ++ [req]) (clockReads st) (slept st) (wHeader st) (writes st) (out st)).

(** [c.Writer.Write] of the frame of [obj], followed on success by
    [flusher.Flush()]: the error, if the write fails. *)
Definition writeFrame (obj : Value) : M (option string) :=
  fun st =>
    match writeErr E (writes st) with
    | Some e => (Some e, mkSt (sent st) (clockReads st) (slept st) (wHeader st)
                           (S (writes st)) (out st))
    | None => (None, mkSt (sent st) (clockReads st) (slept st) (wHeader st)
                       (S (writes st)) (out st ++ [OutData obj]))
    end.

(** The request that [http.NewRequest(method, url, body)] returns for an
    address that [url.Parse] accepts, after the loop that copies
    [config.FakeHeaders] into its header.  (Go visits the map in no fixed
    order, which matters only if two of its keys have the same canonical
    form; [map_fold] fixes one order.) *)
Definition NewRequest (method url : string) (body : option Value) : Request :=
  mkRequest method url (map_fold HeaderSet ∅ (FakeHeaders config)) body.

Definition setHeader (k v : string) (req : Request) : Request :=
  mkRequest (Method req) (URL req) (HeaderSet k v (Header req)) (ReqBody req).

(** *** The response translators *)

Definition stopChunk (created : Z) (model : string) : Value :=
  VMap [ ("id", VString chatID);
         ("object", VString "chat.completion.chunk");
         ("created", VInt created);
         ("model", VString model);
         ("choices", VSlice [VMap [("index", VInt 0); ("finish_reason", VString "stop")]]) ].

Definition deltaChunk (created : Z) (model msgStr : string) : Value :=
  VMap [ ("id", VString chatID);
         ("object", VString "chat.completion.chunk");
         ("created", VInt created);
         ("model", VString model);
         ("choices", VSlice [VMap [("index", VInt 0);
                                   ("delta", VMap [("content", VString msgStr)]);
                                   ("finish_reason", VNil)]]) ].

Definition completionObject (created : Z) (model content : string) : Value :=
  VMap [ ("id", VString chatID);
         ("object", VString "chat.completion");
         ("created", VInt created);
         ("model", VString model);
         ("usage", VMap [("prompt_tokens", VInt 0);
                         ("completion_tokens", VInt 0);
                         ("total_tokens", VInt 0)]);
         ("choices", VSlice [VMap [("message", VMap [("role", VString "assistant");
                                                    ("content", VString content)]);
                                   ("index", VInt 0)]]) ].

(** The loop of [handleStreamResponse] over the lines that [ReadString]
    delivers.  When the lines run out the next read fails, with [io.EOF]
    or not, and the loop is left.  The result is the error returned. *)
Fixpoint streamLoop (model : string) (lines : list string) : M (option string) :=
  match lines with
  | [] => ret None
  | line :: rest =>
      if HasPrefix line "data: " then
        let line := TrimSpace (TrimPrefix line "data: ") in
        if String.eqb line "[DONE]" then
          created <- Now ;;
          err <- writeFrame (stopChunk created model) ;;
          match err with
          | Some e => ret (Some ("写入响应失败: " +:+ e))
          | None => ret None
          end
        else
          match Unmarshal line with
          | Err _ => streamLoop model rest
          | Ok chunk =>
              if negb (valueIsString (mapGet chunk "action") "success") then streamLoop model rest
              else
                match mapGet chunk "message" with
                | Some (VString msgStr) =>
                    created <- Now ;;
                    err <- writeFrame (deltaChunk created model msgStr) ;;
                    match err with
                    | Some e => ret (Some ("写入响应失败: " +:+ e))
                    | None => streamLoop model rest
                    end
                | _ => streamLoop model rest
                end
          end
      else streamLoop model rest
  end.

Definition handleStreamResponse (resp : Response) (model : string) : M (option string) :=
  SetHeader "Content-Type" "text/event-stream" ;;;
  SetHeader "Cache-Control" "no-cache" ;;;
  SetHeader "Connection" "keep-alive" ;;;
  if negb (isFlusher E) then ret (Some "Streaming not supported")
  else streamLoop model (fst (splitLines (Body resp))).

(** The loop of [handleNonStreamResponse]: the accumulated text, or the
    error of a read that fails otherwise than with [io.EOF]. *)
Fixpoint nonStreamLoop (readErr : option string) (lines : list string) (fullResponse : string)
  : result string :=
  match lines with
  | [] =>
      match readErr with
      | None => Ok fullResponse
      | Some e => Err ("读取响应失败: " +:+ e)
      end
  | line :: rest =>
      if HasPrefix line "data: " then
        let line := TrimSpace (TrimPrefix line "data: ") in
        if String.eqb line "[DONE]" then Ok fullResponse
        else
          match Unmarshal line with
          | Err _ => nonStreamLoop readErr rest fullResponse
          | Ok chunk =>
              if negb (valueIsString (mapGet chunk "action") "success")
              then nonStreamLoop readErr rest fullResponse
              else
                match mapGet chunk "message" with
                | Some (VString msgStr) => nonStreamLoop readErr rest (fullResponse +:+ msgStr)
                | _ => nonStreamLoop readErr rest fullResponse
                end
          end
      else nonStreamLoop readErr rest fullResponse
  end.

Definition handleNonStreamResponse (resp : Response) (model : string) : M (option string) :=
  match nonStreamLoop (BodyErr resp) (fst (splitLines (Body resp))) EmptyString with
  | Err e => ret (Some e)
  | Ok fullResponse =>
      created <- Now ;;
      JSON StatusOK (completionObject created model fullResponse) ;;;
      ret None
  end.

Definition handleResponse (resp : Response) (isStream : bool) (model : string) : M (option string) :=
  if isStream then handleStreamResponse resp model
  else handleNonStreamResponse resp model.

(** *** requestTokenAndHash *)

(** The loop over [alternatePatterns]: [matches] is reassigned by every
    pattern tried, and the loop stops at the first one with a group. *)
Fixpoint tryPatterns (patterns : list regex) (bodyStr : string) (matches : list string)
  : list string :=
  match patterns with
  | [] => matches
  | pattern :: rest =>
      let matches := FindStringSubmatch pattern bodyStr in
      if (2 <=? length matches)%nat then matches else tryPatterns rest bodyStr matches
  end.

(** The token the patterns of the landing page give, if any. *)
Definition extractFromPage (bodyStr : string) : option string :=
  let matches := FindStringSubmatch vqdRegex bodyStr in
  let matches :=
    if (length matches <? 2)%nat then tryPatterns alternatePatterns bodyStr matches
    else matches in
  if (2 <=? length matches)%nat then Some (nth 1 matches EmptyString) else None.

(** The loop over the script assets found on the landing page.  An
    address that [http.NewRequest] rejects is passed over without a round
    trip. *)
Fixpoint scanScripts (jsMatches : list (list string)) : M (option string) :=
  match jsMatches with
  | [] => ret None
  | match_ :: rest =>
      if (length match_ <? 2)%nat then scanScripts rest
      else
        let jsURL := "https://duckduckgo.com" +:+ nth 1 match_ EmptyString in
        if negb (ParseOK jsURL) then scanScripts rest
        else
        jsResp <- Do (NewRequest "GET" jsURL None) ;;
        match jsResp with
        | Err _ => scanScripts rest
        | Ok jsResp =>
            match BodyErr jsResp with
            | Some _ => scanScripts rest
            | None =>
                let jsContent := Body jsResp in
                let jsMatches := FindStringSubmatch vqdInJSRegex jsContent in
                if (2 <=? length jsMatches)%nat then ret (Some (nth 1 jsMatches EmptyString))
                else
                  let jsMatches2 := FindStringSubmatch vqdInJSRegex2 jsContent in
                  if (2 <=? length jsMatches2)%nat then ret (Some (nth 1 jsMatches2 EmptyString))
                  else scanScripts rest
            end
        end
  end.

(** The inner loop over the patterns tried on a fallback asset. *)
Fixpoint firstGroup (patterns : list regex) (content : string) : option string :=
  match patterns with
  | [] => None
  | pattern :: rest =>
      let m := FindStringSubmatch pattern content in
      if (2 <=? length m)%nat then Some (nth 1 m EmptyString) else firstGroup rest content
  end.

(** The loop over [fallbackURLs]. *)
Fixpoint scanFallbacks (urls : list string) : M (option string) :=
  match urls with
  | [] => ret None
  | url :: rest =>
      fallbackResp <- Do (NewRequest "GET" url None) ;;
      match fallbackResp with
      | Err _ => scanFallbacks rest
      | Ok fallbackResp =>
          match BodyErr fallbackResp with
          | Some _ => scanFallbacks rest
          | None =>
              match firstGroup fallbackPatterns (Body fallbackResp) with
              | Some token => ret (Some token)
              | None => scanFallbacks rest
              end
          end
      end
  end.

(** The token, the hash and the error of [requestTokenAndHash]: [Ok] of
    the first two when the error is [nil]. *)
Definition requestTokenAndHash : M (result (string * string)) :=
  resp <- Do (NewRequest "GET" homepageURL None) ;;
  match resp with
  | Err err => ret (Err ("homepage request failed: " +:+ err))
  | Ok resp =>
      if negb (StatusCode resp =? StatusOK) then
        ret (Err ("homepage request returned status " +:+ itoa (StatusCode resp)
                  +:+ ": " +:+ Body resp))
      else
        match BodyErr resp with
        | Some err => ret (Err ("failed to read homepage: " +:+ err))
        | None =>
            let bodyStr := Body resp in
            match extractFromPage bodyStr with
            | Some token => ret (Ok (token, EmptyString))
            | None =>
                found <- scanScripts (FindAllStringSubmatch jsURLRegex bodyStr) ;;
                match found with
                | Some token => ret (Ok (token, EmptyString))
                | None =>
                    found <- scanFallbacks fallbackURLs ;;
                    match found with
                    | Some token => ret (Ok (token, EmptyString))
                    | None =>
                        statusResp <-
                          Do (setHeader "x-vqd-accept" "1" (NewRequest "GET" statusURL None)) ;;
                        match statusResp with
                        | Err err => ret (Err ("status request failed: " +:+ err))
                        | Ok statusResp =>
                            let token := HeaderGet (RespHeader statusResp) "x-vqd-4" in
                            if negb (String.eqb token EmptyString)
                            then ret (Ok (token, EmptyString))
                            else ret (Err "could not find vqd token using any method")
                        end
                    end
                end
            end
        end
  end.

(** The variant of the program with a hardcoded token. *)
Definition hardcodedToken : string := "4-254683533747813303106479798401426525337".
Definition hardcodedHash : string :=
  "eyJzZXJ2ZXJfaGFzaGVzIjpbIlhjeXJBK0duWGVCZHRPVlJFNGxnOUl2djZHRFFuWmpmdWNhMGlSVUFwYm89IiwiSWRnOVVoVDZxUHEvenR5NWIwNWJuQ09wVVJZR1ZaSXk1bW00UnBaeHpiZz0iXSwiY2xpZW50X2hhc2hlcyI6WyJrZFFzVzJHY3NXR29XUW0zN01QOEp0MHJvMko5d1BkSVhodHhicWRjSGdZPSIsIm1rUzJRZ0VuempqM1NZRjMwUFBFNm0wdUkwczU5RmtqM3IrQ3VYWjFVWGM9Il0sInNpZ25hbHMiOnt9fQ==".
Definition multiTurnToken : string := "4-212890776487765339064984812855765849703".

Definition requestTokenAndHash_hardcoded : M (result (string * string)) :=
  ret (Ok (hardcodedToken, hardcodedHash)).

(** *** handleCompletion *)

Definition chatBody (model content : string) : Value :=
  VMap [ ("model", VString model);
         ("messages", VSlice [VMap [("role", VString "user"); ("content", VString content)]]) ].

(** The request sent to the chat endpoint. *)
Definition upstreamRequest (model content token vqdHash : string) : Request :=
  let upstreamReq := NewRequest "POST" chatURL (Some (chatBody model content)) in
  let upstreamReq := setHeader "x-vqd-4" token upstreamReq in
  let upstreamReq :=
    if negb (String.eqb vqdHash EmptyString) then setHeader "x-vqd-hash-1" vqdHash upstreamReq
    else upstreamReq in
  let upstreamReq := setHeader "Content-Type" "application/json" upstreamReq in
  setHeader "Accept" "text/event-stream" upstreamReq.

(** The part of an attempt after the token is there: [Some] of the new
    [lastError] when the attempt fails, [None] when the response is written.
    ([json.Marshal] of the body and [http.NewRequest] cannot fail here,
    their error branches are left out.) *)
Definition sendChat (req : ChatRequest) (model content token vqdHash : string) : M (option string) :=
  resp <- Do (upstreamRequest model content token vqdHash) ;;
  match resp with
  | Err err => ret (Some ("请求失败: " +:+ err))
  | Ok resp =>
      if negb (StatusCode resp =? StatusOK) then
        ret (Some ("非200响应: " +:+ itoa (StatusCode resp) +:+ ", 内容: " +:+ Body resp))
      else handleResponse resp (Stream req) model
  end.

(** One pass through the body of the retry loop, after the sleep. *)
Definition attempt (req : ChatRequest) (model content : string) : M (option string) :=
  acquired <- requestTokenAndHash ;;
  match acquired with
  | Err err => ret (Some ("无法获取token: " +:+ err))
  | Ok (token, vqdHash) => sendChat req model content token vqdHash
  end.

Definition attempt_hardcoded (req : ChatRequest) (model content : string) : M (option string) :=
  acquired <- requestTokenAndHash_hardcoded ;;
  match acquired with
  | Err err => ret (Some ("无法获取token: " +:+ err))
  | Ok (token, vqdHash) =>
      let token := if (1 <? length (Messages req))%nat then multiTurnToken else token in
      sendChat req model content token vqdHash
  end.

(** [for retryCount <= config.MaxRetryCount { ... }] and the statement after
    it.  [body] is the pass through the loop.  Each pass that continues
    adds one to [retryCount], so [MaxRetryCount + 1 - retryCount] units of
    fuel are enough.  [retryCount] is unbounded here; Go's [int] is not,
    which shows only for a [MaxRetryCount] of [2^63 - 1]. *)
Fixpoint retryLoop (body : M (option string)) (fuel : nat) (retryCount : Z)
  (lastError : option string) : M Exit :=
  if retryCount <=? MaxRetryCount config then
    match fuel with
    | O => ret OutOfFuel
    | S fuel' =>
        (if 0 <? retryCount then Sleep (RetryDelay config) else ret tt) ;;;
        failure <- body ;;
        match failure with
        | Some err => retryLoop body fuel' (retryCount + 1) (Some err)
        | None => ret Returned
        end
    end
  else
    match lastError with
    | Some err => JSON StatusInternalServerError (errorBody err) ;;; ret Returned
    | None => ret Panicked
    end.

(** [handleCompletion] from the binding of the body on. *)
Definition serveCompletion (c : Context) : M Exit :=
  match ShouldBindJSON c with
  | Err err => JSON StatusBadRequest (errorBody err) ;;; ret Returned
  | Ok req =>
      let model := convertModel (Model req) in
      let content := prepareMessages (Messages req) in
      retryLoop (attempt req model content) (Z.to_nat (MaxRetryCount config + 1)) 0 None
  end.

Definition serveCompletion_hardcoded (c : Context) : M Exit :=
  match ShouldBindJSON c with
  | Err err => JSON StatusBadRequest (errorBody err) ;;; ret Returned
  | Ok req =>
      let model := convertModel (Model req) in
      let content := prepareMessages (Messages req) in
      retryLoop (attempt_hardcoded req model content) (Z.to_nat (MaxRetryCount config + 1)) 0 None
  end.

(** The check of the shared secret, which both variants start with;
    [serve] is the rest of the handler. *)
Definition authenticated (serve : Context -> M Exit) (c : Context) : M Exit :=
  let apiKey := Getenv E "APIKEY" in
  let authorizationHeader := GetHeader c "Authorization" in
  if negb (String.eqb apiKey EmptyString) then
    if String.eqb authorizationHeader EmptyString then
      JSON StatusUnauthorized (errorBody "未提供 APIKEY") ;;; ret Returned
    else if negb (HasPrefix authorizationHeader "Bearer ") then
      JSON StatusUnauthorized (errorBody "APIKEY 格式错误") ;;; ret Returned
    else
      let providedToken := TrimPrefix authorizationHeader "Bearer " in
      if negb (String.eqb providedToken apiKey) then
        JSON StatusUnauthorized (errorBody "APIKEY无效") ;;; ret Returned
      else serve c
  else serve c.

Definition handleCompletion (c : Context) : M Exit := authenticated serveCompletion c.

Definition handleCompletion_hardcoded (c : Context) : M Exit :=
  authenticated serveCompletion_hardcoded c.

(** ** The vocabulary of the specification *)


Definition joinAll (parts : list string) : string :=
  fold_right String.append EmptyString parts.

(** *** The flattened prompt *)

Definition fragmentText (item : Value) : option string :=
  match item with
  | VMap itemMap =>
      match mapGet itemMap "text" with
      | Some (VString text) => Some text
      | _ => None
      end
  | _ => None
  end.

(** Content as plain text: the string itself, the [text] fields of a list
    of fragments in order, the textual form of anything else. *)
Definition normalizeContent (content : Value) : string :=
  match content with
  | VString text => text
  | VSlice items => joinAll (omap fragmentText items)
  | _ => Sprint content
  end.

Definition upstreamRole (role : string) : string :=
  if String.eqb role "system" then "user" else role.

(** The line of one message, [<role>:<content>;] and CR LF. *)
Definition promptLine (msg : Message) : string :=
  upstreamRole (Role msg) +:+ ":" +:+ normalizeContent (Content msg) +:+ ";"
  +:+ String CR (String LF EmptyString).

(** *** Records of an event-stream body *)

(** A line is text without a line feed, followed by one. *)
Fixpoint isLine (l : string) : bool :=
  match l with
  | EmptyString => false
  | String c EmptyString => Ascii.eqb c LF
  | String c r => negb (Ascii.eqb c LF) && isLine r
  end.

Definition hasLF (s : string) : bool := anyByte (Ascii.eqb LF) s.

(** The body made of the lines [ls] and the unterminated rest [rest]. *)
Definition unlines (ls : list string) (rest : string) : string :=
  fold_right String.append rest ls.

(** The payload of a line with the prefix [data: ]. *)
Definition payload (line : string) : option string :=
  if HasPrefix line "data: " then Some (TrimSpace (TrimPrefix line "data: ")) else None.

(** The [data: ] records of a body, in order. *)
Definition dataRecords (body : string) : list string :=
  omap payload (fst (splitLines body)).

Definition doneMarker : string := "[DONE]".

(** The records before the first terminal marker. *)
Fixpoint untilDone (records : list string) : list string :=
  match records with
  | [] => []
  | r :: rest => if String.eqb r doneMarker then [] else r :: untilDone rest
  end.

(** The message fragment of a record: that of a record that decodes, is
    tagged [success] and carries a string as [message]. *)
Definition fragment (record : string) : option string :=
  match Unmarshal record with
  | Err _ => None
  | Ok chunk =>
      if valueIsString (mapGet chunk "action") "success" then
        match mapGet chunk "message" with
        | Some (VString msgStr) => Some msgStr
        | _ => None
        end
      else None
  end.

(** The concatenation of the fragments up to the terminal marker or the
    end of the body. *)
Definition aggregate (body : string) : string :=
  joinAll (omap fragment (untilDone (dataRecords body))).

(** A record that leaves no trace: a line without the prefix, or a payload
    other than the terminal marker that has no fragment. *)
Definition silent (line : string) : Prop :=
  match payload line with
  | None => True
  | Some p => p <> doneMarker /\ fragment p = None
  end.

Definition withBody (resp : Response) (body : string) : Response :=
  mkResponse (StatusCode resp) (RespHeader resp) body (BodyErr resp).

(** Reading the members of the objects sent to the client. *)
Definition field (v : Value) (k : string) : option Value :=
  match v with
  | VMap m => mapGet m k
  | _ => None
  end.

Definition choicesOf (v : Value) : list Value :=
  match field v "choices" with
  | Some (VSlice l) => l
  | _ => []
  end.

(** *** The sources of a credential *)

(** Try the sources in order and stop at the first token. *)
Fixpoint firstToken (sources : list (M (option string))) : M (option string) :=
  match sources with
  | [] => ret None
  | source :: rest =>
      found <- source ;;
      match found with
      | Some token => ret (Some token)
      | None => firstToken rest
      end
  end.

(** Fetch an asset and search its text with the patterns in order. *)
Definition searchAsset (patterns : list regex) (url : string) : M (option string) :=
  got <- Do (NewRequest "GET" url None) ;;
  ret match got with
      | Err _ => None
      | Ok resp =>
          match BodyErr resp with
          | Some _ => None
          | None => firstGroup patterns (Body resp)
          end
      end.

(** The addresses of the script assets a page links, in the order of the
    page: the upstream host followed by each non-overlapping stretch of the
    page that starts with [/dist/], ends with [.js] and has no quote
    character in between. *)
Definition scriptURLs (page : string) : list string :=
  omap (fun m => if (length m <? 2)%nat then None
                 else Some ("https://duckduckgo.com" +:+ nth 1 m EmptyString))
       (FindAllStringSubmatch jsURLRegex page).

(** Method 1: the patterns on the landing page. *)
Definition method1 (page : string) : M (option string) :=
  ret (firstGroup (vqdRegex :: alternatePatterns) page).

(** Method 2: the script assets linked from the landing page, those whose
    address is one a request can be made for. *)
Definition method2 (page : string) : M (option string) :=
  firstToken (map (searchAsset [vqdInJSRegex; vqdInJSRegex2])
                  (List.filter ParseOK (scriptURLs page))).

(** Method 3: the fixed fallback assets. *)
Definition method3 : M (option string) :=
  firstToken (map (searchAsset fallbackPatterns) fallbackURLs).

(** Method 4: the [x-vqd-4] header of the status probe. *)
Definition method4 : M (option string) :=
  got <- Do (setHeader "x-vqd-accept" "1" (NewRequest "GET" statusURL None)) ;;
  ret match got with
      | Err _ => None
      | Ok statusResp =>
          let token := HeaderGet (RespHeader statusResp) "x-vqd-4" in
          if String.eqb token EmptyString then None else Some token
      end.

(** The landing page, or the error that ends the acquisition at once. *)
Definition fetchLanding : M (result string) :=
  got <- Do (NewRequest "GET" homepageURL None) ;;
  ret match got with
      | Err err => Err ("homepage request failed: " +:+ err)
      | Ok resp =>
          if negb (StatusCode resp =? StatusOK) then
            Err ("homepage request returned status " +:+ itoa (StatusCode resp)
                 +:+ ": " +:+ Body resp)
          else
            match BodyErr resp with
            | Some err => Err ("failed to read homepage: " +:+ err)
            | None => Ok (Body resp)
            end
      end.

(** All four methods in the order of the specification. *)
Definition fourMethods (page : string) : M (option string) :=
  firstToken [method1 page; method2 page; method3; method4].

(** *** Retries *)

(** The pass numbered [retryCount] of the retry loop: the sleep before a
    retry, then the attempt. *)
Definition pass (body : M (option string)) (retryCount : Z) : M (option string) :=
  (if 0 <? retryCount then Sleep (RetryDelay config) else ret tt) ;;;
  body.

(** [n] passes in a row that all fail, from the pass numbered
    [retryCount]: their errors in order and the state they leave. *)
Fixpoint failures (body : M (option string)) (n : nat) (retryCount : Z) (st : St)
  : option (list string * St) :=
  match n with
  | O => Some ([], st)
  | S n' =>
      match pass body retryCount st with
      | (Some err, st1) =>
          match failures body n' (retryCount + 1) st1 with
          | Some (errs, st') => Some (err :: errs, st')
          | None => None
          end
      | (None, _) => None
      end
  end.

(** The state after [c.JSON(code, obj)]. *)
Definition afterJSON (code : Z) (obj : Value) (st : St) : St :=
  mkSt (sent st) (clockReads st) (slept st) (wHeader st) (writes st)
       (out st ++ [OutJSON (statusSent st code) obj]).

(** A request passes the check of the shared secret. *)
Definition authorized (c : Context) : Prop :=
  Getenv E "APIKEY" = EmptyString
  \/ GetHeader c "Authorization" = "Bearer " +:+ Getenv E "APIKEY".

(** ** Sample data *)

Definition newline : string := String LF EmptyString.

(** The record [{"action":"success","message":"Hi"}]. *)
Definition sampleRecord : string :=
  "{" +:+ quoted "action" +:+ ":" +:+ quoted "success" +:+ ","
  +:+ quoted "message" +:+ ":" +:+ quoted "Hi" +:+ "}".

(** That record on one line and the terminal marker on the next. *)
Definition sampleBody : string :=
  "data: " +:+ sampleRecord +:+ newline +:+ "data: [DONE]" +:+ newline.

Definition sampleResponse : Response := mkResponse 200 ∅ sampleBody None.

(** A landing page that carries a token. *)
Definition samplePage : string :=
  "<html><script src=" +:+ quoted "/dist/app.js" +:+ "></script><a vqd="
  +:+ quoted "4-99" +:+ "></a></html>".

(** Nothing sent, nothing written. *)
Definition idle : St := mkSt [] 0 [] ∅ 0 [].

Definition sampleClock (n : nat) : Z := 1700000000 + Z.of_nat n.

(** An upstream that serves the landing page and answers the chat call
    with the sample body. *)
Definition healthyEnv : Env :=
  mkEnv (fun _ => EmptyString)
        (fun _ req =>
           if String.eqb (URL req) homepageURL then Ok (mkResponse 200 ∅ samplePage None)
           else Ok sampleResponse)
        sampleClock true (fun _ => None).

(** An upstream whose chat endpoint answers 503 to the first [k] chat calls
    (each attempt makes two round trips) and the sample body afterwards. *)
Definition flakyEnv (k : nat) : Env :=
  mkEnv (fun _ => EmptyString)
        (fun n req =>
           if String.eqb (URL req) homepageURL then Ok (mkResponse 200 ∅ samplePage None)
           else if (n <? 2 * k)%nat then Ok (mkResponse 503 ∅ "busy" None)
           else Ok sampleResponse)
        sampleClock true (fun _ => None).

(** An upstream whose landing page cannot be reached while every other
    address answers with a token in the [x-vqd-4] header. *)
Definition probeOnlyEnv : Env :=
  mkEnv (fun _ => EmptyString)
        (fun _ req =>
           if String.eqb (URL req) homepageURL then Err "connection refused"
           else Ok (mkResponse 200 (HeaderSet "x-vqd-4" "4-77" ∅) EmptyString None))
        sampleClock true (fun _ => None).

(** A process with the shared secret [secret] configured. *)
Definition guardedEnv : Env :=
  mkEnv (fun k => if String.eqb k "APIKEY" then "secret" else EmptyString)
        (fun _ req =>
           if String.eqb (URL req) homepageURL then Ok (mkResponse 200 ∅ samplePage None)
           else Ok sampleResponse)
        sampleClock true (fun _ => None).

Definition sampleMessages : list Message :=
  [ mkMessage "system" (VString "be brief");
    mkMessage "user"
      (VSlice [ VMap [("type", VString "text"); ("text", VString "hello")];
                VMap [("text", VString " there")] ]) ].

Definition sampleRequest : ChatRequest := mkChatRequest "Claude-3-Haiku" sampleMessages true.

Definition sampleContext : Context := mkContext ∅ (Ok sampleRequest).

Definition contextWith (authorization : string) : Context :=
  mkContext (HeaderSet "Authorization" authorization ∅) (Ok sampleRequest).

Definition sampleSprint (v : Value) : string := "<nil>".

(** The line of a record that is not tagged [success]. *)
Definition progressLine : string :=
  "data: {" +:+ quoted "action" +:+ ":" +:+ quoted "progress" +:+ ","
  +:+ quoted "message" +:+ ":" +:+ quoted "secret" +:+ "}" +:+ newline.

Definition sampleLine : string := "data: " +:+ sampleRecord +:+ newline.

(** ** The rest of the program *)

(** [requestToken] *)
Definition requestToken : M (result string) :=
  acquired <- requestTokenAndHash ;;
  ret match acquired with
      | Ok (token, _) => Ok token
      | Err err => Err err
      end.

(** The object the handler of [/v1/models] sends. *)
Definition modelEntry (id : string) : Value :=
  VMap [("id", VString id); ("object", VString "model"); ("owned_by", VString "ddg")].

Definition modelsResponse : Value :=
  VMap [ ("object", VString "list");
         ("data", VSlice [ modelEntry "gpt-4o-mini";
                           modelEntry "claude-3-haiku";
                           modelEntry "llama-3.3-70b";
                           modelEntry "mistral-small";
                           modelEntry "o3-mini" ]) ].

(** The identifiers a models object lists. *)
Definition modelIDs (v : Value) : list string :=
  match field v "data" with
  | Some (VSlice entries) =>
      omap (fun entry => match field entry "id" with
                         | Some (VString id) => Some id
                         | _ => None
                         end) entries
  | _ => []
  end.

(** How a request leaves [corsMiddleware]: aborted with a status, or
    through [c.Next()], that is through the handler [next]. *)
Inductive Served : Type :=
| Aborted (code : Z)
| Passed (e : Exit).

Definition StatusNoContent : Z := 204.

Definition corsMiddleware (method : string) (next : M Exit) : M Served :=
  SetHeader "Access-Control-Allow-Origin" "*" ;;;
  SetHeader "Access-Control-Allow-Methods" "*" ;;;
  SetHeader "Access-Control-Allow-Headers" "*" ;;;
  if String.eqb method "OPTIONS" then ret (Aborted StatusNoContent)
  else (e <- next ;; ret (Passed e)).

(** ** Further vocabulary *)

(** Whether the terminal marker is among the records. *)
Definition hasDone (records : list string) : bool :=
  existsb (fun r => String.eqb r doneMarker) records.

(** The frames of the fragments [frags], stamped with the clock readings
    from the [n]-th on. *)
Fixpoint deltaFrames (model : string) (n : nat) (frags : list string) : list Output :=
  match frags with
  | [] => []
  | msgStr :: rest => OutData (deltaChunk (unixTime E n) model msgStr) :: deltaFrames model (S n) rest
  end.

(** The frame of the terminal marker, when there is one. *)
Definition stopFrame (model : string) (n : nat) (done : bool) : list Output :=
  if done then [OutData (stopChunk (unixTime E n) model)] else [].

(** The delta contents carried by what reached the client. *)
Definition deltaContent (o : Output) : option string :=
  match o with
  | OutData obj =>
      match choicesOf obj with
      | [choice] =>
          match field choice "delta" with
          | Some delta =>
              match field delta "content" with
              | Some (VString text) => Some text
              | _ => None
              end
          | None => None
          end
      | _ => None
      end
  | OutJSON _ _ => None
  end.

(** The message content of a non-streamed answer. *)
Definition messageContent (o : Output) : option string :=
  match o with
  | OutJSON _ obj =>
      match choicesOf obj with
      | [choice] =>
          match field choice "message" with
          | Some message =>
              match field message "content" with
              | Some (VString text) => Some text
              | _ => None
              end
          | None => None
          end
      | _ => None
      end
  | OutData _ => None
  end.

(** A message with its role as the upstream sees it. *)
Definition asUser (msg : Message) : Message :=
  mkMessage (upstreamRole (Role msg)) (Content msg).

(** Every match of the pattern takes at least one byte. *)
Fixpoint consumes (re : regex) : bool :=
  match re with
  | Lit l => negb (String.eqb l EmptyString)
  | Class _ => true
  | Star _ => false
  | Plus _ => true
  | Cat a b => consumes a || consumes b
  | Group a => consumes a
  end.

(** Every group of the pattern captures at least one byte. *)
Fixpoint groupsConsume (re : regex) : bool :=
  match re with
  | Lit _ | Class _ | Star _ | Plus _ => true
  | Cat a b => groupsConsume a && groupsConsume b
  | Group a => consumes a && groupsConsume a
  end.

(** The requests of the token acquisition: a [GET] without body to the
    upstream host. *)
Definition isAcquisition (r : Request) : Prop :=
  Method r = "GET" /\ ReqBody r = None /\ HasPrefix (URL r) "https://duckduckgo.com" = true.


(** The response headers the handler itself sets. *)
Definition streamHeaderKeys : list string := ["Content-Type"; "Cache-Control"; "Connection"].

(** A relation between the state before and after that every step of an
    attempt respects, for the requests [Q] allows. *)
Record Frame (Q : Request -> Prop) (R : St -> St -> Prop) : Prop := mkFrame {
  frame_refl : forall st, R st st;
  frame_trans : forall a b c, R a b -> R b c -> R a c;
  frame_Do : forall req st, Q req -> R st (snd (Do req st));
  frame_Now : forall st, R st (snd (Now st));
  frame_writeFrame : forall obj st, R st (snd (writeFrame obj st));
  frame_SetHeader : forall k v st, In k streamHeaderKeys -> R st (snd (SetHeader k v st));
  frame_JSON : forall code obj st, R st (snd (JSON code obj st))
}.

(** What a call of the loop that ends with an error has done: the write
    numbered [n] failed, it was the last write of the call, and each write
    before it delivered its frame. *)
Definition endsAtFailedWrite (st st' : St) (err : string) : Prop :=
  exists e n,
    err = "写入响应失败: " +:+ e
    /\ writeErr E n = Some e
    /\ (writes st <= n)%nat
    /\ writes st' = S n
    /\ (forall i, (writes st <= i < n)%nat -> writeErr E i = None)
    /\ length (out st') = (length (out st) + (n - writes st))%nat.

(** *** Bodies as the upstream sends them *)

(** Blanks are the ASCII white space other than the line feed; visible
    characters are the ASCII characters from [!] to [~]; plain characters
    are those that stand for themselves inside a JSON string. *)
Definition isBlank (c : ascii) : bool :=
  byteIs 32 c || byteIs 9 c || byteIs 11 c || byteIs 12 c || byteIs 13 c.

Definition isVisible (c : ascii) : bool := byteIn 33 126 c.

Definition isPlain (c : ascii) : bool :=
  byteIn 32 126 c && negb (byteIs 34 c) && negb (byteIs 92 c).

Fixpoint endsVisible (p : string) : bool :=
  match p with
  | EmptyString => false
  | String c EmptyString => isVisible c
  | String _ r => endsVisible r
  end.

(** The payload of a record: text on one line that starts and ends with a
    visible character. *)
Definition isPayload (p : string) : bool :=
  match p with
  | EmptyString => false
  | String c _ => isVisible c
  end && endsVisible p && negb (hasLF p).

(** The text [{"action":"success","message":"..."}] around a message. *)
Definition successRecord (message : string) : string :=
  "{" +:+ quoted "action" +:+ ":" +:+ quoted "success" +:+ ","
  +:+ quoted "message" +:+ ":" +:+ quoted message +:+ "}".

(** The lines of an event stream.  [Says message] is the line of a success
    record with a message of plain characters, [Done] the line of the
    terminal marker, [Data lead payload trail] the line of any record, its
    payload between blanks, and [Other text] a line of another kind: a
    blank line, a comment, a field other than [data: ]. *)
Inductive Event : Type :=
| Says (message : string)
| Done
| Data (lead payload trail : string)
| Other (text : string).

Definition eventLine (e : Event) : string :=
  match e with
  | Says message => "data: " +:+ successRecord message +:+ newline
  | Done => "data: [DONE]" +:+ newline
  | Data lead p trail => "data: " +:+ lead +:+ p +:+ trail +:+ newline
  | Other text => text +:+ newline
  end.

Definition wellFormed (e : Event) : bool :=
  match e with
  | Says message => allBytes isPlain message
  | Done => true
  | Data lead p trail => allBytes isBlank lead && isPayload p && allBytes isBlank trail
  | Other text => negb (hasLF text) && negb (HasPrefix text "data: ")
  end.

(** The body made of the lines of [events], followed by [rest], which has
    no line feed. *)
Definition render (events : list Event) (rest : string) : string :=
  unlines (map eventLine events) rest.

Definition isDone (e : Event) : bool :=
  match e with
  | Done => true
  | Data _ p _ => String.eqb p doneMarker
  | _ => false
  end.

(** The events before the first terminal marker. *)
Fixpoint beforeDone (events : list Event) : list Event :=
  match events with
  | [] => []
  | e :: rest => if isDone e then [] else e :: beforeDone rest
  end.

(** The message fragment an event carries. *)
Definition said (e : Event) : option string :=
  match e with
  | Says message => Some message
  | Data _ p _ => fragment p
  | _ => None
  end.

(** *** Names up to the case of letters *)




(** *** Retryable failures *)

(** The attempt made from the state [st] fails for one of the three
    reasons the specification calls retryable: no token can be acquired,
    the chat endpoint gives no answer, or it answers with a status other
    than 200. *)
Definition retryable (model content : string) (st : St) : bool :=
  match requestTokenAndHash st with
  | (Err _, _) => true
  | (Ok (token, vqdHash), st1) =>
      match roundTrip E (length (sent st1)) (upstreamRequest model content token vqdHash) with
      | Err _ => true
      | Ok resp => negb (StatusCode resp =? StatusOK)
      end
  end.

(** [n] passes in a row, from the pass numbered [retryCount], that all
    fail for a retryable reason: their errors in order and the state they
    leave. *)
Fixpoint retryableFailures (req : ChatRequest) (model content : string) (n : nat)
  (retryCount : Z) (st : St) : option (list string * St) :=
  match n with
  | O => Some ([], st)
  | S n' =>
      let st0 := snd ((if 0 <? retryCount then Sleep (RetryDelay config) else ret tt) st) in
      if retryable model content st0 then
        match attempt req model content st0 with
        | (Some err, st1) =>
            match retryableFailures req model content n' (retryCount + 1) st1 with
            | Some (errs, st') => Some (err :: errs, st')
            | None => None
            end
        | (None, _) => None
        end
      else None
  end.

(** *** More sample data *)

(** A stream with a comment, two success records around a progress record
    and a record that is no JSON, a blank line, the terminal marker, and a
    success record after it; then a success record that no line feed
    ends. *)
Definition eventsBefore : list Event :=
  [ Other ": keep-alive";
    Says "Hel";
    Data EmptyString
         ("{" +:+ quoted "action" +:+ ":" +:+ quoted "progress" +:+ ","
          +:+ quoted "message" +:+ ":" +:+ quoted "secret" +:+ "}")
         (String CR EmptyString) ].

Definition brokenEvent : Event := Data " " "{oops" EmptyString.

Definition eventsAfter : list Event :=
  [ Says "lo"; Other EmptyString; Done; Says " again" ].

Definition sampleEvents : list Event := eventsBefore ++ brokenEvent :: eventsAfter.

Definition unterminatedRecord : string := "data: " +:+ successRecord "!".

Definition eventsResponse : Response :=
  mkResponse 200 ∅ (render sampleEvents unterminatedRecord) None.

(** A client that loses every second frame. *)
Definition stutterEnv : Env :=
  mkEnv (fun _ => EmptyString)
        (fun _ req =>
           if String.eqb (URL req) homepageURL then Ok (mkResponse 200 ∅ samplePage None)
           else Ok sampleResponse)
        sampleClock true (fun n => if Nat.odd n then Some "broken pipe" else None).

(** The sample record without a line feed after it. *)
Definition unterminatedResponse : Response :=
  mkResponse 200 ∅ ("data: " +:+ sampleRecord) None.

(** A landing page without a token that links two script assets, the
    first at an address with a broken percent escape; an upstream where
    the second asset holds one token and every other address another. *)
Definition scriptsPage : string :=
  "<script src=" +:+ quoted "/dist/a%zz.js" +:+ "></script><script src="
  +:+ quoted "/dist/app.js" +:+ "></script>".

Definition assetEnv : Env :=
  mkEnv (fun _ => EmptyString)
        (fun _ req =>
           if String.eqb (URL req) homepageURL then Ok (mkResponse 200 ∅ scriptsPage None)
           else if String.eqb (URL req) "https://duckduckgo.com/dist/app.js"
           then Ok (mkResponse 200 ∅ ("vqd=" +:+ quoted "4-DIST") None)
           else Ok (mkResponse 200 ∅ ("vqd=" +:+ quoted "4-OTHER") None))
        sampleClock true (fun _ => None).

Definition truncatedResponse : Response :=
  mkResponse 200 ∅ sampleLine (Some "unexpected EOF").

(** A client that goes away after the first frame. *)
Definition hangupEnv : Env :=
  mkEnv (fun _ => EmptyString)
        (fun _ req =>
           if String.eqb (URL req) homepageURL then Ok (mkResponse 200 ∅ samplePage None)
           else Ok sampleResponse)
        sampleClock true (fun n => if (n =? 1)%nat then Some "broken pipe" else None).

(** ** Strings *)

Lemma append_cons (x : ascii) (a b : string) : String x a +:+ b = String x (a +:+ b).
Proof. reflexivity. Qed.

Lemma append_assoc (a b c : string) : (a +:+ b) +:+ c = a +:+ (b +:+ c).
Proof.
  induction a as [|x a IH]; [reflexivity |].
  now rewrite !append_cons, IH.
Qed.

Lemma append_empty_r (a : string) : a +:+ EmptyString = a.
Proof.
  induction a as [|x a IH]; [reflexivity |].
  now rewrite append_cons, IH.
Qed.

Lemma HasPrefix_append (p s : string) : HasPrefix (p +:+ s) p = true.
Proof.
  induction p as [|x p IH]; [reflexivity |].
  rewrite append_cons. simpl. now rewrite Ascii.eqb_refl, IH.
Qed.

Lemma dropBytes_append (p s : string) : dropBytes (String.length p) (p +:+ s) = s.
Proof.
  induction p as [|x p IH]; [reflexivity |].
  rewrite append_cons. simpl. exact IH.
Qed.

Lemma TrimPrefix_append (p s : string) : TrimPrefix (p +:+ s) p = s.
Proof. unfold TrimPrefix. now rewrite HasPrefix_append, dropBytes_append. Qed.

Lemma HasPrefix_split (s p : string) : HasPrefix s p = true -> s = p +:+ TrimPrefix s p.
Proof.
  unfold TrimPrefix. intros H. rewrite H. revert s H.
  induction p as [|x p IH]; intros s H; simpl in *; [reflexivity |].
  destruct s as [|y s]; [discriminate |].
  apply andb_prop in H as [Hxy Hp]. apply Ascii.eqb_eq in Hxy. subst y.
  rewrite append_cons. simpl. f_equal. now apply IH.
Qed.

Lemma joinAll_app (xs ys : list string) : joinAll (xs ++ ys) = joinAll xs +:+ joinAll ys.
Proof.
  induction xs as [|x xs IH]; [reflexivity |].
  change (x +:+ joinAll (xs ++ ys) = (x +:+ joinAll xs) +:+ joinAll ys).
  now rewrite IH, append_assoc.
Qed.

(** A loop that appends to a builder yields the builder followed by the
    pieces in order. *)
Lemma fold_left_append {A : Type} (f : A -> string) (l : list A) (acc : string) :
  fold_left (fun b x => b +:+ f x) l acc = acc +:+ joinAll (map f l).
Proof.
  revert acc. induction l as [|x l IH]; intros acc.
  - simpl. now rewrite append_empty_r.
  - change (fold_left (fun b y => b +:+ f y) l (acc +:+ f x)
            = acc +:+ (f x +:+ joinAll (map f l))).
    rewrite IH. apply append_assoc.
Qed.

Lemma fold_left_pointwise {A B : Type} (f g : B -> A -> B) (l : list A) (b : B) :
  (forall b x, f b x = g b x) -> fold_left f l b = fold_left g l b.
Proof.
  intros H. revert b. induction l as [|x l IH]; intros b; simpl; [reflexivity |].
  now rewrite H, IH.
Qed.

(** *** Lower-casing *)


Lemma lowerByte_not_upper (c : ascii) : isUpperByte (lowerByte c) = false.
Proof. destruct c as [[] [] [] [] [] [] [] []]; reflexivity. Qed.



Lemma no_upper_after_lower (s : string) : anyByte isUpperByte (mapBytes lowerByte s) = false.
Proof.
  induction s as [|c s IH]; simpl; [reflexivity |].
  now rewrite lowerByte_not_upper, IH.
Qed.





(** *** Names up to case *)





(** ** The model mapping *)



(** ** The flattened prompt *)

Lemma contentStr_normalize (content : Value) : contentStr content = normalizeContent content.
Proof.
  destruct content as [| | | | |items|]; try reflexivity.
  unfold contentStr, normalizeContent.
  enough (H : forall acc, fold_left
              (fun acc item =>
                 match item with
                 | VMap itemMap =>
                     match mapGet itemMap "text" with
                     | Some (VString text) => acc +:+ text
                     | _ => acc
                     end
                 | _ => acc
                 end) items acc = acc +:+ joinAll (omap fragmentText items))
    by apply (H EmptyString).
  induction items as [|item items IH]; intros acc; simpl.
  - now rewrite append_empty_r.
  - rewrite IH. unfold fragmentText at 2.
    destruct item as [| | | | | |m]; try reflexivity.
    destruct (mapGet m "text") as [[]|]; try reflexivity.
    simpl. now rewrite append_assoc.
Qed.

(** C3.  [prepareMessages] returns the lines of the messages, one per
    message and in the order of the messages, each made of the role (with
    [system] replaced by [user]), a colon, the normalized content, a
    semicolon, CR and LF. *)
Theorem prepareMessages_lines (messages : list Message) :
  prepareMessages messages = joinAll (map promptLine messages)
  /\ length (map promptLine messages) = length messages
  /\ (forall i msg, messages !! i = Some msg ->
        map promptLine messages !! i
        = Some ((if String.eqb (Role msg) "system" then "user" else Role msg)
                +:+ ":" +:+ normalizeContent (Content msg) +:+ ";"
                +:+ String CR (String LF EmptyString))).
Proof.
  split; [| split].
  - unfold prepareMessages.
    transitivity (fold_left (fun b msg => b +:+ promptLine msg) messages EmptyString).
    + apply fold_left_pointwise. intros b msg. unfold promptLine, upstreamRole.
      now rewrite contentStr_normalize.
    + now rewrite fold_left_append.
  - apply length_map.
  - intros i msg Hi. rewrite list_lookup_fmap, Hi. reflexivity.
Qed.

(** ** Lines of a body *)

Lemma splitLines_cons (c : ascii) (r : string) :
  splitLines (String c r)
  = if Ascii.eqb c LF then (String c EmptyString :: fst (splitLines r), snd (splitLines r))
    else match fst (splitLines r) with
         | [] => ([], String c (snd (splitLines r)))
         | l :: ls' => (String c l :: ls', snd (splitLines r))
         end.
Proof. simpl. now destruct (splitLines r). Qed.

Lemma splitLines_no_LF (s : string) : hasLF s = false -> splitLines s = ([], s).
Proof.
  unfold hasLF. induction s as [|c s IH]; [reflexivity |].
  cbn [anyByte]. intros H. apply orb_false_elim in H as [Hc Hs].
  rewrite splitLines_cons, (IH Hs). rewrite Ascii.eqb_sym in Hc. now rewrite Hc.
Qed.

Lemma splitLines_line (l s : string) :
  isLine l = true ->
  splitLines (l +:+ s) = (l :: fst (splitLines s), snd (splitLines s)).
Proof.
  induction l as [|c l IH]; [discriminate |].
  intros H. rewrite append_cons, splitLines_cons.
  destruct l as [|d l].
  - cbn [isLine] in H. now rewrite H.
  - change (negb (Ascii.eqb c LF) && isLine (String d l) = true) in H.
    apply andb_prop in H as [Hc Hl]. apply negb_true_iff in Hc.
    rewrite Hc, (IH Hl). reflexivity.
Qed.

(** Reading a body built from lines gives the lines back. *)
Lemma splitLines_unlines (ls : list string) (rest : string) :
  Forall (fun l => isLine l = true) ls ->
  hasLF rest = false ->
  splitLines (unlines ls rest) = (ls, rest).
Proof.
  intros Hls Hrest. induction Hls as [|l ls Hl _ IH].
  - now apply splitLines_no_LF.
  - change (unlines (l :: ls) rest) with (l +:+ unlines ls rest).
    now rewrite (splitLines_line _ _ Hl), IH.
Qed.

(** Every body is built from its lines and its unterminated rest. *)
Lemma unlines_splitLines (s : string) :
  unlines (fst (splitLines s)) (snd (splitLines s)) = s
  /\ Forall (fun l => isLine l = true) (fst (splitLines s))
  /\ hasLF (snd (splitLines s)) = false.
Proof.
  induction s as [|c s (IHs & IHl & IHr)]; [now repeat split |].
  rewrite splitLines_cons.
  destruct (Ascii.eqb c LF) eqn:Hc.
  - cbn [fst snd]. repeat split.
    + change (String c EmptyString +:+ unlines (fst (splitLines s)) (snd (splitLines s))
              = String c s).
      now rewrite IHs.
    + constructor; [cbn [isLine]; exact Hc | exact IHl].
    + exact IHr.
  - destruct (fst (splitLines s)) as [|l ls] eqn:Hls; cbn [fst snd].
    + repeat split; [| constructor |].
      * cbn [unlines fold_right] in *. now rewrite IHs.
      * unfold hasLF in *. cbn [anyByte]. rewrite Ascii.eqb_sym, Hc. exact IHr.
    + inversion IHl as [|? ? Hl Hrest]; subst. repeat split.
      * change (String c (l +:+ unlines ls (snd (splitLines s))) = String c s).
        f_equal. exact IHs.
      * constructor; [| exact Hrest].
        destruct l as [|d l]; [discriminate |].
        change (negb (Ascii.eqb c LF) && isLine (String d l) = true).
        now rewrite Hc, Hl.
      * exact IHr.
Qed.

(** ** The translation loops in the vocabulary of the specification *)

(** The case analysis both loops make on a line. *)
Ltac record_cases line :=
  destruct (HasPrefix line "data: "); [| reflexivity];
  unfold doneMarker;
  destruct (String.eqb (TrimSpace (TrimPrefix line "data: ")) "[DONE]"); [reflexivity |];
  destruct (Unmarshal (TrimSpace (TrimPrefix line "data: "))) as [chunk | e]; [| reflexivity];
  destruct (valueIsString (mapGet chunk "action") "success"); [| reflexivity];
  cbn [negb];
  destruct (mapGet chunk "message") as [[]|]; reflexivity.

Lemma streamLoop_cons (model line : string) (rest : list string) (st : St) :
  streamLoop model (line :: rest) st =
  match payload line with
  | None => streamLoop model rest st
  | Some p =>
      if String.eqb p doneMarker then
        (created <- Now ;;
         err <- writeFrame (stopChunk created model) ;;
         match err with
         | Some e => ret (Some ("写入响应失败: " +:+ e))
         | None => ret None
         end) st
      else
        match fragment p with
        | None => streamLoop model rest st
        | Some msgStr =>
            (created <- Now ;;
             err <- writeFrame (deltaChunk created model msgStr) ;;
             match err with
             | Some e => ret (Some ("写入响应失败: " +:+ e))
             | None => streamLoop model rest
             end) st
        end
  end.
Proof. unfold payload, fragment. cbn [streamLoop]. record_cases line. Qed.

Lemma nonStreamLoop_cons (readErr : option string) (line : string) (rest : list string)
  (full : string) :
  nonStreamLoop readErr (line :: rest) full =
  match payload line with
  | None => nonStreamLoop readErr rest full
  | Some p =>
      if String.eqb p doneMarker then Ok full
      else
        match fragment p with
        | None => nonStreamLoop readErr rest full
        | Some msgStr => nonStreamLoop readErr rest (full +:+ msgStr)
        end
  end.
Proof. unfold payload, fragment. cbn [nonStreamLoop]. record_cases line. Qed.

Lemma streamLoop_silent (model line : string) (rest : list string) (st : St) :
  silent line -> streamLoop model (line :: rest) st = streamLoop model rest st.
Proof.
  unfold silent. intros H. rewrite streamLoop_cons.
  destruct (payload line) as [p|]; [| reflexivity].
  destruct H as [Hp Hf]. apply String.eqb_neq in Hp. now rewrite Hp, Hf.
Qed.

Lemma nonStreamLoop_silent (readErr : option string) (line : string) (rest : list string)
  (full : string) :
  silent line -> nonStreamLoop readErr (line :: rest) full = nonStreamLoop readErr rest full.
Proof.
  unfold silent. intros H. rewrite nonStreamLoop_cons.
  destruct (payload line) as [p|]; [| reflexivity].
  destruct H as [Hp Hf]. apply String.eqb_neq in Hp. now rewrite Hp, Hf.
Qed.

(** A silent line can be taken out of the lines, wherever it stands. *)
Lemma streamLoop_drop_silent (model line : string) (pre post : list string) :
  silent line ->
  forall st, streamLoop model (pre ++ line :: post) st = streamLoop model (pre ++ post) st.
Proof.
  intros H. induction pre as [|l pre IH]; intros st.
  - now apply streamLoop_silent.
  - cbn [app]. rewrite !streamLoop_cons.
    destruct (payload l) as [p|]; [| apply IH].
    destruct (String.eqb p doneMarker); [reflexivity |].
    destruct (fragment p) as [msgStr|]; [| apply IH].
    unfold bind. destruct (Now st) as [created st1].
    destruct (writeFrame (deltaChunk created model msgStr) st1) as [[e|] st2];
      [reflexivity | apply IH].
Qed.

Lemma nonStreamLoop_drop_silent (readErr : option string) (line : string)
  (pre post : list string) :
  silent line ->
  forall full, nonStreamLoop readErr (pre ++ line :: post) full
               = nonStreamLoop readErr (pre ++ post) full.
Proof.
  intros H. induction pre as [|l pre IH]; intros full.
  - now apply nonStreamLoop_silent.
  - cbn [app]. rewrite !nonStreamLoop_cons.
    destruct (payload l) as [p|]; [| apply IH].
    destruct (String.eqb p doneMarker); [reflexivity |].
    destruct (fragment p); apply IH.
Qed.

Lemma handleResponse_drop_silent (resp : Response) (pre post : list string)
  (line rest : string) (isStream : bool) (model : string) (st : St) :
  Forall (fun l => isLine l = true) (pre ++ line :: post) ->
  hasLF rest = false ->
  silent line ->
  handleResponse (withBody resp (unlines (pre ++ line :: post) rest)) isStream model st
  = handleResponse (withBody resp (unlines (pre ++ post) rest)) isStream model st.
Proof.
  intros Hall Hrest Hsilent.
  assert (Hall' : Forall (fun l => isLine l = true) (pre ++ post)).
  { apply Forall_app in Hall as [Hpre Hpost]. apply Forall_app. split; [exact Hpre |].
    now inversion Hpost. }
  unfold handleResponse, handleStreamResponse, handleNonStreamResponse.
  cbn [withBody Body BodyErr].
  rewrite (splitLines_unlines _ _ Hall Hrest), (splitLines_unlines _ _ Hall' Hrest).
  cbn [fst]. destruct isStream.
  - unfold bind. destruct (SetHeader _ _ st) as [u1 st1].
    destruct (SetHeader _ _ st1) as [u2 st2]. destruct (SetHeader _ _ st2) as [u3 st3].
    destruct (negb (isFlusher E)); [reflexivity |].
    now apply streamLoop_drop_silent.
  - now rewrite (nonStreamLoop_drop_silent _ _ _ _ Hsilent).
Qed.

(** ** Streaming translation *)

Lemma sampleBody_lines :
  splitLines sampleBody = ([sampleLine; "data: [DONE]" +:+ newline], EmptyString).
Proof. vm_compute. reflexivity. Qed.

Lemma sampleLine_payload : payload sampleLine = Some sampleRecord.
Proof. vm_compute. reflexivity. Qed.

Lemma sampleRecord_fragment : fragment sampleRecord = Some "Hi".
Proof. vm_compute. reflexivity. Qed.

Lemma doneLine_payload : payload ("data: [DONE]" +:+ newline) = Some doneMarker.
Proof. vm_compute. reflexivity. Qed.

(** C1.  On the body made of the record
    [{"action":"success","message":"Hi"}] on one line and [data: [DONE]] on
    the next, with a client that takes the writes, the streaming translator
    returns without error after exactly two writes.  The first is a
    [chat.completion.chunk] whose one choice has the delta content [Hi] and
    the finish reason [null]; the second is a [chat.completion.chunk] whose
    one choice has the finish reason [stop] and no delta member, so nothing
    in its delta. *)
Theorem stream_sample_two_chunks (resp : Response) (model : string) (st : St) :
  Body resp = sampleBody ->
  isFlusher E = true ->
  writeErr E (writes st) = None ->
  writeErr E (S (writes st)) = None ->
  exists first last st',
    handleStreamResponse resp model st = (None, st')
    /\ out st' = out st ++ [OutData first; OutData last]
    /\ writes st' = S (S (writes st))
    /\ field first "object" = Some (VString "chat.completion.chunk")
    /\ (exists choice, choicesOf first = [choice]
          /\ field choice "delta" = Some (VMap [("content", VString "Hi")])
          /\ field choice "finish_reason" = Some VNil)
    /\ field last "object" = Some (VString "chat.completion.chunk")
    /\ (exists choice, choicesOf last = [choice]
          /\ field choice "finish_reason" = Some (VString "stop")
          /\ field choice "delta" = None).
Proof.
  intros Hbody Hflush Hw0 Hw1.
  exists (deltaChunk (unixTime E (clockReads st)) model "Hi").
  exists (stopChunk (unixTime E (S (clockReads st))) model).
  unfold handleStreamResponse. rewrite Hbody, Hflush, sampleBody_lines.
  cbn [negb fst]. unfold bind at 1 2 3. cbn [SetHeader].
  rewrite streamLoop_cons, sampleLine_payload.
  replace (String.eqb sampleRecord doneMarker) with false by (vm_compute; reflexivity).
  rewrite sampleRecord_fragment.
  unfold bind at 1 2, Now at 1, writeFrame at 1. cbn [writes clockReads out sent slept wHeader].
  rewrite Hw0.
  rewrite streamLoop_cons, doneLine_payload, String.eqb_refl.
  unfold bind, Now, writeFrame, ret. cbn [writes clockReads out sent slept wHeader].
  rewrite Hw1.
  eexists. split; [reflexivity |]. cbn [out writes].
  split; [now rewrite <- app_assoc |].
  split; [reflexivity |].
  split; [reflexivity |].
  split; [eexists; repeat split |].
  split; [reflexivity |].
  eexists; repeat split.
Qed.

(** ** Non-streaming translation *)

Lemma nonStreamLoop_aggregate (lines : list string) (full : string) :
  nonStreamLoop None lines full
  = Ok (full +:+ joinAll (omap fragment (untilDone (omap payload lines)))).
Proof.
  revert full. induction lines as [|line lines IH]; intros full.
  - cbn. now rewrite append_empty_r.
  - rewrite nonStreamLoop_cons. cbn [omap list_omap].
    destruct (payload line) as [p|]; [| apply IH].
    cbn [untilDone]. destruct (String.eqb p doneMarker).
    + cbn. now rewrite append_empty_r.
    + cbn [omap list_omap]. destruct (fragment p) as [msgStr|]; rewrite IH; [| reflexivity].
      change (joinAll (msgStr :: ?l)) with (msgStr +:+ joinAll l).
      now rewrite append_assoc.
Qed.

(** ** Records that are skipped *)

(** C8.  In both modes, a record that decodes and whose [action] is not the
    string [success] adds nothing: the translation of the body is the
    translation of the body without that record, whatever its message. *)
Theorem non_success_record_skipped (resp : Response) (pre post : list string)
  (line rest : string) (chunk : list (string * Value)) (isStream : bool) (model : string)
  (st : St) :
  Forall (fun l => isLine l = true) (pre ++ line :: post) ->
  hasLF rest = false ->
  HasPrefix line "data: " = true ->
  Unmarshal (TrimSpace (TrimPrefix line "data: ")) = Ok chunk ->
  mapGet chunk "action" <> Some (VString "success") ->
  handleResponse (withBody resp (unlines (pre ++ line :: post) rest)) isStream model st
  = handleResponse (withBody resp (unlines (pre ++ post) rest)) isStream model st.
Proof.
  intros Hall Hrest Hprefix Hdecode Haction.
  apply handleResponse_drop_silent; [exact Hall | exact Hrest |].
  unfold silent, payload. rewrite Hprefix. split.
  - intros Hdone. rewrite Hdone in Hdecode. vm_compute in Hdecode. discriminate.
  - unfold fragment. rewrite Hdecode.
    destruct (mapGet chunk "action") as [[]|] eqn:Ha; try reflexivity.
    cbn [valueIsString]. destruct (String.eqb_spec s "success") as [-> | _]; [| reflexivity].
    now contradiction Haction.
Qed.

(** ** Token acquisition *)

Lemma tryPatterns_firstGroup (patterns : list regex) (page : string) (matches : list string) :
  (2 <=? length matches)%nat = false ->
  (if (2 <=? length (tryPatterns patterns page matches))%nat
   then Some (nth 1 (tryPatterns patterns page matches) EmptyString)
   else None)
  = firstGroup patterns page.
Proof.
  revert matches. induction patterns as [|pattern rest IH]; intros matches Hm.
  - cbn [tryPatterns firstGroup]. now rewrite Hm.
  - cbn [tryPatterns firstGroup].
    destruct (2 <=? length (FindStringSubmatch pattern page))%nat eqn:Hp.
    + now rewrite Hp.
    + now apply IH.
Qed.

(** The search of the landing page tries the primary pattern and then the
    alternates, and gives the group of the first that matches. *)
Lemma extractFromPage_firstGroup (page : string) :
  extractFromPage page = firstGroup (vqdRegex :: alternatePatterns) page.
Proof.
  unfold extractFromPage. cbn [firstGroup].
  rewrite Nat.ltb_antisym.
  destruct (2 <=? length (FindStringSubmatch vqdRegex page))%nat eqn:Hp; cbn [negb].
  - now rewrite Hp.
  - now apply tryPatterns_firstGroup.
Qed.

Lemma scanScripts_firstToken (jsMatches : list (list string)) (st : St) :
  scanScripts jsMatches st
  = firstToken
      (map (searchAsset [vqdInJSRegex; vqdInJSRegex2])
           (List.filter ParseOK
              (omap (fun m => if (length m <? 2)%nat then None
                              else Some ("https://duckduckgo.com" +:+ nth 1 m EmptyString))
                    jsMatches))) st.
Proof.
  revert st. induction jsMatches as [|m rest IH]; intros st; [reflexivity |].
  cbn [scanScripts omap list_omap].
  destruct (length m <? 2)%nat; [apply IH |].
  cbn [List.filter].
  destruct (ParseOK ("https://duckduckgo.com" +:+ nth 1 m EmptyString)); cbn [negb];
    [| apply IH].
  cbn [map firstToken]. unfold searchAsset, bind, ret.
  destruct (Do _ st) as [[jsResp | err] st1]; [| apply IH].
  destruct (BodyErr jsResp); [apply IH |].
  cbn [firstGroup].
  destruct (2 <=? length (FindStringSubmatch vqdInJSRegex (Body jsResp)))%nat; [reflexivity |].
  destruct (2 <=? length (FindStringSubmatch vqdInJSRegex2 (Body jsResp)))%nat; [reflexivity |].
  apply IH.
Qed.

(** [url.Parse] accepts the addresses the program spells out, so
    [http.NewRequest] returns no error for them. *)
Lemma constant_addresses_parse :
  Forall (fun url => ParseOK url = true) (homepageURL :: statusURL :: chatURL :: fallbackURLs).
Proof. repeat constructor. Qed.

Lemma scanFallbacks_firstToken (urls : list string) (st : St) :
  scanFallbacks urls st = firstToken (map (searchAsset fallbackPatterns) urls) st.
Proof.
  revert st. induction urls as [|url rest IH]; intros st; [reflexivity |].
  cbn [scanFallbacks map firstToken]. unfold searchAsset, bind, ret.
  destruct (Do _ st) as [[resp | err] st1]; [| apply IH].
  destruct (BodyErr resp); [apply IH |].
  destruct (firstGroup fallbackPatterns (Body resp)); [reflexivity | apply IH].
Qed.

(** C5, as the program has it.  [requestTokenAndHash] first fetches the
    landing page and returns an error at once when that fails (no answer,
    a status other than 200, a body that cannot be read).  With the page it
    tries the four methods in order (the patterns on the page; the linked
    script assets, those whose address a request can be made for, with the
    two asset patterns; the fallback assets with the three patterns; the
    header of the status probe) and returns the first token found with an
    empty hash; it returns an error when all four give none.  The variant
    with a hardcoded token tries no source: it returns its two constants
    and makes no request. *)
Theorem requestTokenAndHash_sources (st : St) :
  match fetchLanding st with
  | (Err e, st1) => requestTokenAndHash st = (Err e, st1)
  | (Ok page, st1) =>
      match fourMethods page st1 with
      | (Some token, st2) => requestTokenAndHash st = (Ok (token, EmptyString), st2)
      | (None, st2) => exists e, requestTokenAndHash st = (Err e, st2)
      end
  end
  /\ requestTokenAndHash_hardcoded st = (Ok (hardcodedToken, hardcodedHash), st).
Proof.
  split; [| reflexivity].
  unfold requestTokenAndHash, fetchLanding, bind, ret.
  destruct (Do _ st) as [[resp | err] st1]; [| reflexivity].
  destruct (negb (StatusCode resp =? StatusOK)); [reflexivity |].
  destruct (BodyErr resp) as [err |]; [reflexivity |].
  unfold fourMethods. cbn [firstToken]. unfold method1 at 1, bind at 1, ret at 1.
  rewrite extractFromPage_firstGroup.
  destruct (firstGroup (vqdRegex :: alternatePatterns) (Body resp)) as [token |];
    [reflexivity |].
  unfold bind at 1. unfold method2, scriptURLs. rewrite scanScripts_firstToken.
  destruct (firstToken _ st1) as [[token |] st2]; [reflexivity |].
  unfold bind at 1. unfold method3. rewrite scanFallbacks_firstToken.
  destruct (firstToken _ st2) as [[token |] st3]; [reflexivity |].
  unfold method4, bind, ret.
  destruct (Do _ st3) as [[statusResp | err] st4]; [| eexists; reflexivity].
  destruct (String.eqb (HeaderGet (RespHeader statusResp) "x-vqd-4") EmptyString);
    [eexists; reflexivity | reflexivity].
Qed.

(** ** The check of the shared secret *)

Lemma authenticated_pass (serve : Context -> M Exit) (c : Context) (st : St) :
  authorized c -> authenticated serve c st = serve c st.
Proof.
  unfold authorized, authenticated. intros [Hnone | Hkey].
  - now rewrite Hnone.
  - destruct (String.eqb_spec (Getenv E "APIKEY") EmptyString) as [He | Hne]; [reflexivity |].
    cbn [negb]. rewrite Hkey, HasPrefix_append, TrimPrefix_append, String.eqb_refl.
    cbn [negb]. reflexivity.
Qed.

Lemma authenticated_reject (serve : Context -> M Exit) (c : Context) (st : St) :
  Getenv E "APIKEY" <> EmptyString ->
  GetHeader c "Authorization" = EmptyString
  \/ HasPrefix (GetHeader c "Authorization") "Bearer " = false
  \/ TrimPrefix (GetHeader c "Authorization") "Bearer " <> Getenv E "APIKEY" ->
  exists msg,
    authenticated serve c st = (Returned, afterJSON StatusUnauthorized (errorBody msg) st).
Proof.
  intros Hkey Hbad. unfold authenticated.
  apply String.eqb_neq in Hkey. rewrite Hkey. cbn [negb].
  destruct (String.eqb (GetHeader c "Authorization") EmptyString) eqn:Hempty;
    [eexists; reflexivity |].
  destruct (HasPrefix (GetHeader c "Authorization") "Bearer ") eqn:Hprefix; cbn [negb];
    [| eexists; reflexivity].
  destruct Hbad as [Habsent | [Hnp | Hwrong]].
  - apply String.eqb_neq in Hempty. contradiction.
  - discriminate.
  - apply String.eqb_neq in Hwrong. rewrite Hwrong. eexists; reflexivity.
Qed.

(** C6.  With an API key configured, a request whose [Authorization]
    header is absent, or does not start with [Bearer ], or carries another
    token after [Bearer ], gets status 401 with an error body and nothing
    else happens, in particular no round trip to the upstream; a request
    with [Bearer ] and the key goes on to the rest of the handler.  With no
    API key configured every request goes on to the rest of the handler.
    (The status is 401 on a response not yet begun, as it is when the
    handler is entered: [statusSent st 401] is 401 then.) *)
Theorem inbound_authentication (c : Context) (st : St) :
  (Getenv E "APIKEY" <> EmptyString ->
   ReqHeader c !! "Authorization" = None
   \/ HasPrefix (GetHeader c "Authorization") "Bearer " = false
   \/ (exists token, GetHeader c "Authorization" = "Bearer " +:+ token
                     /\ token <> Getenv E "APIKEY") ->
   exists msg st',
     handleCompletion c st = (Returned, st')
     /\ out st' = out st ++ [OutJSON (statusSent st 401) (errorBody msg)]
     /\ sent st' = sent st)
  /\ (Getenv E "APIKEY" <> EmptyString ->
      GetHeader c "Authorization" = "Bearer " +:+ Getenv E "APIKEY" ->
      handleCompletion c st = serveCompletion c st)
  /\ (Getenv E "APIKEY" = EmptyString -> handleCompletion c st = serveCompletion c st).
Proof.
  split; [| split].
  - intros Hkey Hbad.
    destruct (authenticated_reject serveCompletion c st Hkey) as [msg Hmsg].
    + destruct Hbad as [Habsent | [Hnp | (token & Htoken & Hwrong)]].
      * left. unfold GetHeader, HeaderGet.
        replace (CanonicalMIMEHeaderKey "Authorization") with "Authorization" by reflexivity.
        now rewrite Habsent.
      * right. now left.
      * right. right. now rewrite Htoken, TrimPrefix_append.
    + exists msg. eexists. split; [exact Hmsg |]. now split.
  - intros _ Hauth. apply authenticated_pass. now right.
  - intros Hnone. apply authenticated_pass. now left.
Qed.

(** ** The retry loop *)

Lemma last_cons {A : Type} (x d : A) (l : list A) : List.last (x :: l) d = List.last l x.
Proof.
  revert x d. induction l as [|y l IH]; intros x d; [reflexivity |].
  change (List.last (x :: y :: l) d) with (List.last (y :: l) d).
  now rewrite (IH y d), (IH y x).
Qed.

(** The loop never runs out of the fuel [handleCompletion] gives it. *)
Lemma retryLoop_fuel (body : M (option string)) (fuel : nat) (retryCount : Z)
  (lastError : option string) (st : St) :
  MaxRetryCount config + 1 <= retryCount + Z.of_nat fuel ->
  fst (retryLoop body fuel retryCount lastError st) <> OutOfFuel.
Proof.
  revert retryCount lastError st. induction fuel as [|fuel IH]; intros k lastError st Hk.
  - cbn [retryLoop]. destruct (Z.leb_spec k (MaxRetryCount config)); [lia |].
    destruct lastError; discriminate.
  - cbn [retryLoop]. destruct (Z.leb_spec k (MaxRetryCount config)).
    + unfold bind.
      destruct ((if 0 <? k then Sleep (RetryDelay config) else ret tt) st) as [u st0].
      destruct (body st0) as [[err |] st1]; [| discriminate].
      apply IH. lia.
    + destruct lastError; discriminate.
Qed.

Lemma handleCompletion_exits (c : Context) (st : St) :
  fst (handleCompletion c st) <> OutOfFuel
  /\ fst (handleCompletion_hardcoded c st) <> OutOfFuel.
Proof.
  assert (Hserve : forall body lastError st0,
            fst (retryLoop body (Z.to_nat (MaxRetryCount config + 1)) 0 lastError st0)
            <> OutOfFuel) by (intros; apply retryLoop_fuel; lia).
  unfold handleCompletion, handleCompletion_hardcoded, authenticated,
    serveCompletion, serveCompletion_hardcoded.
  split;
    repeat match goal with
    | |- context [if ?b then _ else _] => destruct b
    | |- context [match ShouldBindJSON c with _ => _ end] => destruct (ShouldBindJSON c)
    end; try discriminate; apply Hserve.
Qed.

(** When the passes numbered [retryCount] to [MaxRetryCount] all fail, the
    loop makes exactly those passes and then reports the last error
    recorded. *)
Lemma retryLoop_failures (body : M (option string)) (n : nat) (retryCount : Z)
  (lastError : option string) (st st' : St) (errs : list string) :
  retryCount + Z.of_nat n = MaxRetryCount config + 1 ->
  failures body n retryCount st = Some (errs, st') ->
  retryLoop body n retryCount lastError st
  = match List.last (map Some errs) lastError with
    | Some err => (Returned, afterJSON StatusInternalServerError (errorBody err) st')
    | None => (Panicked, st')
    end.
Proof.
  revert retryCount lastError st errs.
  induction n as [|n IH]; intros k lastError st errs Hk Hfail.
  - cbn [failures] in Hfail. injection Hfail as <- <-.
    cbn [retryLoop map List.last].
    destruct (Z.leb_spec k (MaxRetryCount config)); [lia |].
    destruct lastError; reflexivity.
  - cbn [failures] in Hfail. cbn [retryLoop].
    destruct (Z.leb_spec k (MaxRetryCount config)); [| lia].
    unfold pass in Hfail. unfold bind in *.
    destruct ((if 0 <? k then Sleep (RetryDelay config) else ret tt) st) as [u st0].
    destruct (body st0) as [[err |] st1]; [| discriminate].
    destruct (failures body n (k + 1) st1) as [[errs' st''] |] eqn:Hrest; [| discriminate].
    injection Hfail as <- <-.
    rewrite (IH (k + 1) (Some err) st1 errs') by (lia || assumption).
    cbn [map]. now rewrite last_cons.
Qed.

Lemma failures_length (body : M (option string)) (n : nat) (retryCount : Z) (st st' : St)
  (errs : list string) :
  failures body n retryCount st = Some (errs, st') -> length errs = n.
Proof.
  revert retryCount st errs. induction n as [|n IH]; intros k st errs Hfail.
  - cbn in Hfail. now injection Hfail as <- <-.
  - cbn [failures] in Hfail.
    destruct (pass body k st) as [[err |] st1]; [| discriminate].
    destruct (failures body n (k + 1) st1) as [[errs' st''] |] eqn:Hrest; [| discriminate].
    injection Hfail as <- <-. cbn [length]. f_equal. eauto.
Qed.

(** The three kinds of failure the specification names all fail the
    attempt, with these messages. *)
Lemma attempt_failure_kinds (req : ChatRequest) (model content : string) (st : St) :
  match requestTokenAndHash st with
  | (Err err, st1) => attempt req model content st = (Some ("无法获取token: " +:+ err), st1)
  | (Ok (token, vqdHash), st1) =>
      match Do (upstreamRequest model content token vqdHash) st1 with
      | (Err err, st2) => attempt req model content st = (Some ("请求失败: " +:+ err), st2)
      | (Ok resp, st2) =>
          StatusCode resp <> 200 ->
          attempt req model content st
          = (Some ("非200响应: " +:+ itoa (StatusCode resp) +:+ ", 内容: " +:+ Body resp), st2)
      end
  end.
Proof.
  unfold attempt, sendChat, bind, ret.
  destruct (requestTokenAndHash st) as [[[token vqdHash] | err] st1]; [| reflexivity].
  destruct (Do _ st1) as [[resp | err] st2]; [| reflexivity].
  intros Hcode. apply Z.eqb_neq in Hcode. unfold StatusOK. now rewrite Hcode.
Qed.

(** The token acquisition writes nothing to the client. *)
Lemma scanScripts_quiet (jsMatches : list (list string)) (st : St) :
  out (snd (scanScripts jsMatches st)) = out st
  /\ writes (snd (scanScripts jsMatches st)) = writes st.
Proof.
  revert st. induction jsMatches as [|m rest IH]; intros st; [now split |].
  cbn [scanScripts]. destruct (length m <? 2)%nat; [apply IH |].
  destruct (negb (ParseOK ("https://duckduckgo.com" +:+ nth 1 m EmptyString))); [apply IH |].
  unfold bind, Do.
  destruct (roundTrip E (length (sent st)) _) as [jsResp | err];
    [| match goal with |- context [scanScripts rest ?s] => exact (IH s) end].
  destruct (BodyErr jsResp);
    [match goal with |- context [scanScripts rest ?s] => exact (IH s) end |].
  destruct (2 <=? length (FindStringSubmatch vqdInJSRegex (Body jsResp)))%nat; [now split |].
  destruct (2 <=? length (FindStringSubmatch vqdInJSRegex2 (Body jsResp)))%nat; [now split |].
  match goal with |- context [scanScripts rest ?s] => exact (IH s) end.
Qed.

Lemma scanFallbacks_quiet (urls : list string) (st : St) :
  out (snd (scanFallbacks urls st)) = out st
  /\ writes (snd (scanFallbacks urls st)) = writes st.
Proof.
  revert st. induction urls as [|url rest IH]; intros st; [now split |].
  cbn [scanFallbacks]. unfold bind, Do.
  destruct (roundTrip E (length (sent st)) _) as [resp | err];
    [| match goal with |- context [scanFallbacks rest ?s] => exact (IH s) end].
  destruct (BodyErr resp);
    [match goal with |- context [scanFallbacks rest ?s] => exact (IH s) end |].
  destruct (firstGroup fallbackPatterns (Body resp)); [now split |].
  match goal with |- context [scanFallbacks rest ?s] => exact (IH s) end.
Qed.

Lemma requestTokenAndHash_quiet (st : St) :
  out (snd (requestTokenAndHash st)) = out st
  /\ writes (snd (requestTokenAndHash st)) = writes st.
Proof.
  unfold requestTokenAndHash, bind.
  destruct (Do _ st) as [got st0] eqn:HDo. unfold Do in HDo. injection HDo as _ <-.
  destruct got as [resp | err]; [| now split].
  destruct (negb (StatusCode resp =? StatusOK)); [now split |].
  destruct (BodyErr resp); [now split |].
  destruct (extractFromPage (Body resp)); [now split |].
  match goal with |- context [scanScripts ?l ?s] =>
    pose proof (scanScripts_quiet l s) as [Ho1 Hw1]; destruct (scanScripts l s) as [[t |] st1]
  end; unfold ret; cbn [snd out writes] in *; [split; congruence |].
  match goal with |- context [scanFallbacks ?l ?s] =>
    pose proof (scanFallbacks_quiet l s) as [Ho2 Hw2]; destruct (scanFallbacks l s) as [[t |] st2]
  end; unfold ret; cbn [snd out writes] in *; [split; congruence |].
  destruct (Do _ st2) as [got st3] eqn:HDo. unfold Do in HDo. injection HDo as _ <-.
  destruct got as [statusResp | err]; [| unfold ret; cbn [snd out writes]; split; congruence].
  destruct (negb (String.eqb (HeaderGet (RespHeader statusResp) "x-vqd-4") EmptyString));
    unfold ret; cbn [snd out writes]; split; congruence.
Qed.

(** An attempt that fails for a retryable reason fails before the
    response is handled: it writes nothing to the client. *)
Lemma retryable_attempt (req : ChatRequest) (model content : string) (st : St) :
  retryable model content st = true ->
  exists err, fst (attempt req model content st) = Some err
              /\ out (snd (attempt req model content st)) = out st
              /\ writes (snd (attempt req model content st)) = writes st.
Proof.
  unfold retryable, attempt, sendChat, bind.
  pose proof (requestTokenAndHash_quiet st) as [Ho Hw].
  destruct (requestTokenAndHash st) as [[[token vqdHash] | err] st1]; cbn [snd] in Ho, Hw.
  - unfold Do.
    destruct (roundTrip E (length (sent st1)) _) as [resp | err].
    + intros Hcode. rewrite Hcode. eexists. now repeat split.
    + intros _. eexists. now repeat split.
  - intros _. eexists. now repeat split.
Qed.

Lemma retryableFailures_failures (req : ChatRequest) (model content : string) (n : nat)
  (retryCount : Z) (st st' : St) (errs : list string) :
  retryableFailures req model content n retryCount st = Some (errs, st') ->
  failures (attempt req model content) n retryCount st = Some (errs, st')
  /\ out st' = out st /\ writes st' = writes st.
Proof.
  revert retryCount st errs. induction n as [|n IH]; intros k st errs H.
  - cbn in H. injection H as <- <-. now repeat split.
  - cbn [retryableFailures failures] in *. unfold pass, bind.
    assert (Hsleep : out (snd ((if 0 <? k then Sleep (RetryDelay config) else ret tt) st))
                     = out st
                     /\ writes (snd ((if 0 <? k then Sleep (RetryDelay config) else ret tt) st))
                        = writes st) by (destruct (0 <? k); now split).
    destruct ((if 0 <? k then Sleep (RetryDelay config) else ret tt) st) as [u st0].
    cbn [snd] in *. destruct Hsleep as [Ho0 Hw0].
    destruct (retryable model content st0) eqn:Hkind; [| discriminate].
    destruct (retryable_attempt req model content st0 Hkind) as (err & _ & Ho1 & Hw1).
    destruct (attempt req model content st0) as [[err' |] st1]; [| discriminate].
    cbn [snd] in Ho1, Hw1.
    destruct (retryableFailures req model content n (k + 1) st1) as [[errs' st''] |] eqn:Hrest;
      [| discriminate].
    injection H as <- <-.
    destruct (IH _ _ _ Hrest) as (Hf & Ho2 & Hw2). rewrite Hf.
    repeat split; congruence.
Qed.

(** C4, as the program has it.  With a retry count that is not negative,
    when the first attempt and the [MaxRetryCount] retries all fail for a
    retryable reason (no token, no answer of the chat endpoint, a status
    other than 200: [MaxRetryCount + 1] passes through the loop), the
    handler stops and answers with the message of the last of these
    failures, and with nothing else: the failed attempts have written
    nothing.  The answer has status 500 on a response not yet begun
    ([statusSent st 500] is 500 then). *)
Theorem retries_exhausted (c : Context) (req : ChatRequest) (st st' : St)
  (errs : list string) :
  0 <= MaxRetryCount config ->
  authorized c ->
  ShouldBindJSON c = Ok req ->
  retryableFailures req (convertModel (Model req)) (prepareMessages (Messages req))
                    (Z.to_nat (MaxRetryCount config + 1)) 0 st = Some (errs, st') ->
  handleCompletion c st
  = (Returned, afterJSON 500 (errorBody (List.last errs EmptyString)) st')
  /\ out (afterJSON 500 (errorBody (List.last errs EmptyString)) st')
     = out st ++ [OutJSON (statusSent st 500) (errorBody (List.last errs EmptyString))]
  /\ writes st' = writes st
  /\ Z.of_nat (length errs) = MaxRetryCount config + 1.
Proof.
  intros Hmax Hauth Hbind Hretry.
  apply retryableFailures_failures in Hretry as (Hfail & Hout & Hwrites).
  pose proof (failures_length _ _ _ _ _ _ Hfail) as Hlen.
  split; [| split; [| split; [exact Hwrites | lia]]].
  - unfold handleCompletion. rewrite (authenticated_pass _ _ _ Hauth).
    unfold serveCompletion. rewrite Hbind.
    assert (Hk : 0 + Z.of_nat (Z.to_nat (MaxRetryCount config + 1)) = MaxRetryCount config + 1)
      by lia.
    rewrite (retryLoop_failures _ _ _ None _ _ _ Hk Hfail).
    destruct errs as [|err errs]; [cbn in Hlen; lia |].
    cbn [map]. rewrite !last_cons.
    clear. revert err. induction errs as [|e errs IH]; intros err; [reflexivity |].
    cbn [map]. rewrite !last_cons. apply IH.
  - unfold afterJSON, statusSent, committed. cbn [out writes]. now rewrite Hout, Hwrites.
Qed.

(** ** The variant with a hardcoded token *)

Lemma streamLoop_sent (model : string) (lines : list string) (st : St) :
  sent (snd (streamLoop model lines st)) = sent st.
Proof.
  revert st. induction lines as [|line rest IH]; intros st; [reflexivity |].
  rewrite streamLoop_cons.
  destruct (payload line) as [p |]; [| apply IH].
  destruct (String.eqb p doneMarker).
  - unfold bind, Now, writeFrame, ret. cbn [writes].
    destruct (writeErr E (writes st)); reflexivity.
  - destruct (fragment p) as [msgStr |]; [| apply IH].
    unfold bind, Now, writeFrame, ret. cbn [writes].
    destruct (writeErr E (writes st)); [reflexivity |].
    rewrite IH. reflexivity.
Qed.

Lemma handleResponse_sent (resp : Response) (isStream : bool) (model : string) (st : St) :
  sent (snd (handleResponse resp isStream model st)) = sent st.
Proof.
  unfold handleResponse, handleStreamResponse, handleNonStreamResponse.
  destruct isStream.
  - unfold bind. cbn [SetHeader].
    destruct (negb (isFlusher E)); [reflexivity |].
    now rewrite streamLoop_sent.
  - destruct (nonStreamLoop _ _ _); reflexivity.
Qed.

(** An attempt of the variant makes one round trip, the chat call. *)
Lemma attempt_hardcoded_sent (req : ChatRequest) (model content : string) (st : St) :
  sent (snd (attempt_hardcoded req model content st))
  = sent st ++ [upstreamRequest model content
                  (if (1 <? length (Messages req))%nat then multiTurnToken else hardcodedToken)
                  hardcodedHash].
Proof.
  unfold attempt_hardcoded, requestTokenAndHash_hardcoded, sendChat, bind, ret, Do.
  destruct (roundTrip E _ _) as [resp | err]; [| reflexivity].
  destruct (negb (StatusCode resp =? StatusOK)); [reflexivity |].
  now rewrite handleResponse_sent.
Qed.

Lemma upstreamRequest_token (model content token vqdHash : string) :
  URL (upstreamRequest model content token vqdHash) = chatURL
  /\ HeaderGet (Header (upstreamRequest model content token vqdHash)) "x-vqd-4" = token.
Proof.
  unfold upstreamRequest, setHeader, HeaderGet, HeaderSet.
  destruct (negb (String.eqb vqdHash EmptyString)); cbn [URL Header NewRequest];
    (split; [reflexivity |]).
  - rewrite !lookup_insert_ne by (vm_compute; discriminate).
    now rewrite lookup_insert_eq.
  - rewrite !lookup_insert_ne by (vm_compute; discriminate).
    now rewrite lookup_insert_eq.
Qed.

(** Whatever the loop sends, it sends through its passes. *)
Lemma retryLoop_sent (P : Request -> Prop) (body : M (option string)) :
  (forall st, exists r, sent (snd (body st)) = sent st ++ [r] /\ P r) ->
  forall fuel retryCount lastError st,
  exists new,
    sent (snd (retryLoop body fuel retryCount lastError st)) = sent st ++ new
    /\ Forall P new
    /\ (retryCount <= MaxRetryCount config -> fuel <> O -> new <> []).
Proof.
  intros Hbody. induction fuel as [|fuel IH]; intros k lastError st.
  - cbn [retryLoop]. exists []. rewrite app_nil_r.
    destruct (k <=? MaxRetryCount config); [| destruct lastError];
      (split; [reflexivity | split; [constructor | intros _ H; now contradiction H]]).
  - cbn [retryLoop]. destruct (Z.leb_spec k (MaxRetryCount config)) as [Hle | Hgt].
    + unfold bind.
      assert (Hsleep : sent (snd ((if 0 <? k then Sleep (RetryDelay config) else ret tt) st))
                       = sent st) by (destruct (0 <? k); reflexivity).
      destruct ((if 0 <? k then Sleep (RetryDelay config) else ret tt) st) as [u st0].
      cbn [snd] in Hsleep.
      destruct (Hbody st0) as (r & Hr & HP).
      destruct (body st0) as [[err |] st1]; cbn [snd] in Hr.
      * destruct (IH (k + 1) (Some err) st1) as (new & Hnew & Hall & _).
        exists (r :: new). rewrite Hnew, Hr, Hsleep, <- app_assoc.
        split; [reflexivity | split; [now constructor | discriminate]].
      * exists [r]. cbn [snd ret]. rewrite Hr, Hsleep.
        split; [reflexivity | split; [now repeat constructor | discriminate]].
    + exists []. rewrite app_nil_r.
      destruct lastError; (split; [reflexivity | split; [constructor | lia]]).
Qed.

(** C10.  In the variant with a hardcoded token, every request the handler
    sends goes to the chat endpoint, and its [x-vqd-4] header is the fixed
    multi-turn token when the request has more than one message, whatever
    [requestTokenAndHash] returned, and the token [requestTokenAndHash]
    returned when it has at most one.  A request that passes the check of
    the shared secret, with a retry count that is not negative, sends at
    least one such request. *)
Theorem hardcoded_multi_turn_token (c : Context) (req : ChatRequest) (st : St) :
  ShouldBindJSON c = Ok req ->
  exists new,
    sent (snd (handleCompletion_hardcoded c st)) = sent st ++ new
    /\ ((1 < length (Messages req))%nat ->
        Forall (fun r => URL r = chatURL
                         /\ HeaderGet (Header r) "x-vqd-4"
                            = "4-212890776487765339064984812855765849703") new)
    /\ ((length (Messages req) <= 1)%nat ->
        Forall (fun r => URL r = chatURL
                         /\ exists vqdHash st1,
                              requestTokenAndHash_hardcoded st = (Ok (HeaderGet (Header r) "x-vqd-4", vqdHash), st1))
               new)
    /\ (authorized c -> 0 <= MaxRetryCount config -> new <> []).
Proof.
  intros Hbind.
  set (token := if (1 <? length (Messages req))%nat then multiTurnToken else hardcodedToken).
  set (body := attempt_hardcoded req (convertModel (Model req))
                 (prepareMessages (Messages req))).
  assert (Hbody : forall st0, exists r,
            sent (snd (body st0)) = sent st0 ++ [r]
            /\ (URL r = chatURL /\ HeaderGet (Header r) "x-vqd-4" = token)).
  { intros st0. eexists. split; [apply attempt_hardcoded_sent | apply upstreamRequest_token]. }
  pose proof (retryLoop_sent _ body Hbody (Z.to_nat (MaxRetryCount config + 1)) 0 None st)
    as (new & Hnew & Hall & Hsome).
  assert (Hserve : serveCompletion_hardcoded c st
                   = retryLoop body (Z.to_nat (MaxRetryCount config + 1)) 0 None st)
    by (unfold serveCompletion_hardcoded; now rewrite Hbind).
  assert (Hcases : (exists msg, handleCompletion_hardcoded c st
                                = (Returned, afterJSON StatusUnauthorized (errorBody msg) st))
                   \/ handleCompletion_hardcoded c st = serveCompletion_hardcoded c st).
  { unfold handleCompletion_hardcoded, authenticated.
    repeat match goal with
    | |- context [if ?b then _ else _] => destruct b
    end; (now right) || (left; eexists; reflexivity). }
  destruct Hcases as [(msg & Hreject) | Hpass].
  - exists []. rewrite Hreject, app_nil_r.
    split; [reflexivity |]. split; [constructor |]. split; [constructor |].
    intros Hauth Hmax.
    unfold handleCompletion_hardcoded in Hreject.
    rewrite (authenticated_pass _ _ _ Hauth), Hserve in Hreject.
    assert (Hne : new <> []) by (apply Hsome; lia).
    rewrite Hreject in Hnew. cbn [snd afterJSON sent] in Hnew.
    destruct new; [now contradiction Hne |].
    apply (f_equal (@length Request)) in Hnew. rewrite length_app in Hnew. cbn in Hnew. lia.
  - exists new. rewrite Hpass, Hserve.
    split; [exact Hnew |]. subst token. split; [| split].
    + intros Hlen. apply Nat.ltb_lt in Hlen. rewrite Hlen in Hall. exact Hall.
    + intros Hlen. apply Nat.ltb_ge in Hlen. rewrite Hlen in Hall.
      eapply Forall_impl; [exact Hall |].
      intros r [Hurl Htok]. split; [exact Hurl |].
      exists hardcodedHash, st. unfold requestTokenAndHash_hardcoded, ret. now rewrite Htok.
    + intros _ Hmax. apply Hsome; lia.
Qed.

(** ** Further properties of the translators *)

Lemma St_eta (st : St) :
  st = mkSt (sent st) (clockReads st) (slept st) (wHeader st) (writes st) (out st).
Proof. now destruct st. Qed.

Lemma omap_payload_cons (line : string) (rest : list string) :
  omap payload (line :: rest)
  = match payload line with
    | Some p => p :: omap payload rest
    | None => omap payload rest
    end.
Proof. reflexivity. Qed.

(** With a client that takes every write, the loop writes one frame per
    fragment up to the terminal marker, then the frame of the marker if
    there is one. *)
Lemma streamLoop_frames (model : string) (lines : list string) (st : St) :
  (forall n, writeErr E n = None) ->
  streamLoop model lines st
  = (None,
     mkSt (sent st)
          (length (omap fragment (untilDone (omap payload lines)))
           + (if hasDone (omap payload lines) then 1 else 0) + clockReads st)
          (slept st) (wHeader st)
          (length (omap fragment (untilDone (omap payload lines)))
           + (if hasDone (omap payload lines) then 1 else 0) + writes st)
          (out st
           ++ deltaFrames model (clockReads st) (omap fragment (untilDone (omap payload lines)))
           ++ stopFrame model
                (length (omap fragment (untilDone (omap payload lines))) + clockReads st)
                (hasDone (omap payload lines)))).
Proof.
  intros Hwrite. revert st. induction lines as [|line lines IH]; intros st.
  - cbn. rewrite app_nil_r. now destruct st.
  - rewrite streamLoop_cons, omap_payload_cons.
    destruct (payload line) as [p |]; [| apply IH].
    cbn [untilDone hasDone existsb]. fold (hasDone (omap payload lines)).
    destruct (String.eqb p doneMarker) eqn:Hp.
    + unfold bind, Now, writeFrame, ret. cbn [writes clockReads out sent slept wHeader].
      rewrite Hwrite. cbn. reflexivity.
    + cbn [orb].
      change (omap fragment (p :: untilDone (omap payload lines)))
        with (match fragment p with
              | Some m => m :: omap fragment (untilDone (omap payload lines))
              | None => omap fragment (untilDone (omap payload lines))
              end).
      destruct (fragment p) as [msgStr |]; [| apply IH].
      unfold bind at 1 2, Now at 1, writeFrame at 1.
      cbn [writes clockReads out sent slept wHeader]. rewrite Hwrite, IH.
      cbn [writes clockReads out sent slept wHeader length deltaFrames].
      rewrite <- !app_assoc, !Nat.add_succ_r. reflexivity.
Qed.

(** X1.  With a client that takes every write, the streaming translator
    returns without error after writing one delta chunk for each fragment
    of the records before the terminal marker, in order, followed by the
    stop chunk exactly when the body has the marker; a body that ends
    without the marker gets no stop chunk.  It makes no round trip. *)
Theorem stream_frames (resp : Response) (model : string) (st : St) :
  isFlusher E = true ->
  (forall n, writeErr E n = None) ->
  exists st',
    handleStreamResponse resp model st = (None, st')
    /\ out st'
       = out st
         ++ deltaFrames model (clockReads st)
              (omap fragment (untilDone (dataRecords (Body resp))))
         ++ stopFrame model
              (length (omap fragment (untilDone (dataRecords (Body resp)))) + clockReads st)
              (hasDone (dataRecords (Body resp)))
    /\ sent st' = sent st.
Proof.
  intros Hflush Hwrite. unfold handleStreamResponse, dataRecords.
  rewrite Hflush. cbn [negb]. unfold bind at 1 2 3. cbn [SetHeader].
  rewrite (streamLoop_frames _ _ _ Hwrite).
  eexists. split; [reflexivity |]. split; reflexivity.
Qed.

Lemma deltaContent_frames (model : string) (n : nat) (frags : list string) (m : nat) (done : bool) :
  omap deltaContent (deltaFrames model n frags ++ stopFrame model m done) = frags.
Proof.
  revert n. induction frags as [|msgStr frags IH]; intros n.
  - destruct done; reflexivity.
  - cbn [deltaFrames app]. change (omap deltaContent (?x :: ?l))
      with (match deltaContent x with Some y => y :: omap deltaContent l
                                    | None => omap deltaContent l end).
    cbn [deltaContent deltaChunk choicesOf field mapGet String.eqb Ascii.eqb Bool.eqb].
    now rewrite IH.
Qed.

Lemma nonStreamLoop_result (readErr : option string) (lines : list string) (full : string) :
  nonStreamLoop readErr lines full
  = match readErr with
    | Some e =>
        if hasDone (omap payload lines)
        then Ok (full +:+ joinAll (omap fragment (untilDone (omap payload lines))))
        else Err ("读取响应失败: " +:+ e)
    | None => Ok (full +:+ joinAll (omap fragment (untilDone (omap payload lines))))
    end.
Proof.
  destruct readErr as [e |]; [| apply nonStreamLoop_aggregate].
  revert full. induction lines as [|line lines IH]; intros full; [reflexivity |].
  rewrite nonStreamLoop_cons, omap_payload_cons.
  destruct (payload line) as [p |]; [| apply IH].
  cbn [untilDone hasDone existsb]. fold (hasDone (omap payload lines)).
  destruct (String.eqb p doneMarker).
  - cbn. now rewrite append_empty_r.
  - cbn [orb].
    change (omap fragment (p :: untilDone (omap payload lines)))
      with (match fragment p with
            | Some m => m :: omap fragment (untilDone (omap payload lines))
            | None => omap fragment (untilDone (omap payload lines))
            end).
    destruct (fragment p) as [msgStr |]; rewrite IH; [| reflexivity].
    destruct (hasDone (omap payload lines)); [| reflexivity].
    change (joinAll (msgStr :: ?l)) with (msgStr +:+ joinAll l).
    now rewrite append_assoc.
Qed.

(** X2.  The non-streaming translator writes all or nothing.  When the read
    of the body fails before a terminal marker it returns the read error
    and leaves the state as it was, nothing written; in every other case
    (the body ends, or the marker comes before the failure) it returns
    without error after one [c.JSON] with status 200 whose content is made
    of the records before the marker.  (The status is 200 unless the
    response has begun under another one: [statusSent st 200].) *)
Theorem nonstream_all_or_nothing (resp : Response) (model : string) (st : St) :
  (forall e, BodyErr resp = Some e ->
             hasDone (dataRecords (Body resp)) = false ->
             handleNonStreamResponse resp model st = (Some ("读取响应失败: " +:+ e), st))
  /\ (BodyErr resp = None \/ hasDone (dataRecords (Body resp)) = true ->
      exists st',
        handleNonStreamResponse resp model st = (None, st')
        /\ out st' = out st ++ [OutJSON (statusSent st 200)
                                   (completionObject (unixTime E (clockReads st)) model
                                      (aggregate (Body resp)))]
        /\ sent st' = sent st /\ writes st' = writes st).
Proof.
  unfold handleNonStreamResponse, dataRecords, aggregate.
  rewrite nonStreamLoop_result. split.
  - intros e He Hdone. now rewrite He, Hdone.
  - intros [Hnone | Hdone].
    + rewrite Hnone. eexists. split; [reflexivity |]. now repeat split.
    + rewrite Hdone. destruct (BodyErr resp); (eexists; split; [reflexivity |]; now repeat split).
Qed.

(** X3.  For one body the two modes deliver the same text: when the client
    takes every write and the non-streaming translator returns without
    error, the delta contents of the frames streamed, joined in order, are
    the message content of the object the non-streaming translator
    sends. *)
Theorem modes_deliver_same_text (resp : Response) (model : string) (st1 st2 : St) :
  isFlusher E = true ->
  (forall n, writeErr E n = None) ->
  fst (handleNonStreamResponse resp model st2) = None ->
  exists streamed answered,
    out (snd (handleStreamResponse resp model st1)) = out st1 ++ streamed
    /\ out (snd (handleNonStreamResponse resp model st2)) = out st2 ++ answered
    /\ joinAll (omap deltaContent streamed) = joinAll (omap messageContent answered).
Proof.
  intros Hflush Hwrite Hok.
  unfold handleStreamResponse. rewrite Hflush. cbn [negb]. unfold bind at 1 2 3.
  cbn [SetHeader]. rewrite (streamLoop_frames _ _ _ Hwrite). cbn [snd out].
  unfold handleNonStreamResponse in *. rewrite nonStreamLoop_result in *.
  eexists. exists [OutJSON (statusSent st2 StatusOK)
                     (completionObject (unixTime E (clockReads st2)) model
                        (joinAll (omap fragment
                                    (untilDone (omap payload (fst (splitLines (Body resp))))))))].
  split; [reflexivity |]. rewrite deltaContent_frames. split.
  - destruct (BodyErr resp) as [e |]; [| reflexivity].
    destruct (hasDone (omap payload (fst (splitLines (Body resp))))); [reflexivity |].
    discriminate.
  - cbn. now rewrite append_empty_r.
Qed.

Lemma streamLoop_error (model : string) (lines : list string) (st st' : St) (err : string) :
  streamLoop model lines st = (Some err, st') -> endsAtFailedWrite st st' err.
Proof.
  revert st. induction lines as [|line lines IH]; intros st H; [discriminate |].
  rewrite streamLoop_cons in H.
  destruct (payload line) as [p |]; [| now apply IH].
  destruct (String.eqb p doneMarker).
  - unfold bind, Now, writeFrame, ret in H. cbn [writes clockReads out sent slept wHeader] in H.
    destruct (writeErr E (writes st)) as [e |] eqn:Hw; [| discriminate].
    injection H as <- <-. exists e, (writes st). cbn [writes out].
    split; [reflexivity | split; [exact Hw | split; [lia | split; [reflexivity |]]]].
    split; [intros i Hi; lia | lia].
  - destruct (fragment p) as [msgStr |]; [| now apply IH].
    unfold bind at 1 2, Now at 1, writeFrame at 1 in H.
    cbn [writes clockReads out sent slept wHeader] in H.
    destruct (writeErr E (writes st)) as [e |] eqn:Hw.
    + injection H as <- <-. exists e, (writes st). cbn [writes out].
      split; [reflexivity | split; [exact Hw | split; [lia | split; [reflexivity |]]]].
      split; [intros i Hi; lia | lia].
    + apply IH in H. destruct H as (e & n & Herr & Hn & Hle & Hlast & Hbefore & Hlen).
      cbn [writes out] in *. exists e, n. rewrite length_app in Hlen. cbn [length] in Hlen.
      split; [exact Herr | split; [exact Hn | split; [lia | split; [exact Hlast |]]]].
      split; [| lia].
      intros i Hi. destruct (Nat.eq_dec i (writes st)) as [-> | Hne]; [exact Hw |].
      apply Hbefore. lia.
Qed.

(** X4.  The streaming translator returns an error in two cases only.
    Without a flusher it writes nothing and says so.  Otherwise a write
    failed: that write was the last thing the call did, every write before
    it delivered its frame, and the error carries the message of the
    failure. *)
Theorem stream_errors (resp : Response) (model : string) (st st' : St) (err : string) :
  handleStreamResponse resp model st = (Some err, st') ->
  (isFlusher E = false /\ err = "Streaming not supported"
   /\ out st' = out st /\ writes st' = writes st)
  \/ (isFlusher E = true /\ endsAtFailedWrite st st' err).
Proof.
  intros H. unfold handleStreamResponse, bind in H. cbn [SetHeader] in H.
  destruct (isFlusher E); cbn [negb] in H.
  - right. split; [reflexivity |]. apply streamLoop_error in H.
    destruct H as (e & n & H). exists e, n. exact H.
  - left. injection H as <- <-. now repeat split.
Qed.

(** ** Bodies made of events *)

Lemma revBytes_app (acc a b : string) :
  revBytes acc (a +:+ b) = revBytes (revBytes acc a) b.
Proof.
  revert acc. induction a as [|c a IH]; intros acc; [reflexivity |].
  rewrite append_cons. cbn [revBytes]. apply IH.
Qed.

Lemma revBytes_acc (acc s : string) : revBytes acc s = revBytes EmptyString s +:+ acc.
Proof.
  revert acc. induction s as [|c s IH]; intros acc; [reflexivity |].
  cbn [revBytes]. rewrite (IH (String c acc)), (IH (String c EmptyString)).
  now rewrite append_assoc.
Qed.

Lemma revBytes_involutive (s : string) : revBytes EmptyString (revBytes EmptyString s) = s.
Proof.
  induction s as [|c s IH]; [reflexivity |].
  cbn [revBytes]. rewrite (revBytes_acc (String c EmptyString)), revBytes_app.
  cbn [revBytes]. now rewrite IH.
Qed.

Lemma allBytes_app (q : ascii -> bool) (a b : string) :
  allBytes q (a +:+ b) = allBytes q a && allBytes q b.
Proof.
  induction a as [|c a IH]; [reflexivity |].
  rewrite append_cons. cbn [allBytes]. now rewrite IH, andb_assoc.
Qed.

Lemma allBytes_rev (q : ascii -> bool) (s acc : string) :
  allBytes q (revBytes acc s) = allBytes q s && allBytes q acc.
Proof.
  revert acc. induction s as [|c s IH]; intros acc; [reflexivity |].
  cbn [revBytes allBytes]. rewrite IH. cbn [allBytes].
  destruct (q c), (allBytes q s), (allBytes q acc); reflexivity.
Qed.

Lemma allBytes_impl (q q' : ascii -> bool) (s : string) :
  (forall c, q c = true -> q' c = true) -> allBytes q s = true -> allBytes q' s = true.
Proof.
  intros Hq. induction s as [|c s IH]; [reflexivity |].
  cbn [allBytes]. intros H. apply andb_prop in H as [Hc Hs].
  now rewrite (Hq c Hc), (IH Hs).
Qed.

Lemma hasLF_app (a b : string) : hasLF (a +:+ b) = hasLF a || hasLF b.
Proof.
  unfold hasLF. induction a as [|c a IH]; [reflexivity |].
  rewrite append_cons. cbn [anyByte]. now rewrite IH, orb_assoc.
Qed.

Lemma allBytes_no_LF (q : ascii -> bool) (s : string) :
  q LF = false -> allBytes q s = true -> hasLF s = false.
Proof.
  intros Hq. unfold hasLF. induction s as [|c s IH]; [reflexivity |].
  cbn [allBytes anyByte]. intros H. apply andb_prop in H as [Hc Hs].
  rewrite (IH Hs), orb_false_r.
  destruct (Ascii.eqb_spec LF c) as [<- | _]; [congruence | reflexivity].
Qed.

Lemma isBlank_space (c : ascii) : isBlank c = true -> isSpace1 c = true.
Proof. destruct c as [[] [] [] [] [] [] [] []]; vm_compute; congruence. Qed.

Lemma isPlain_visible (c : ascii) :
  isPlain c = true ->
  byteIs 34 c = false /\ (N_of_ascii c <? 32)%N = false /\ byteIs 92 c = false
  /\ (N_of_ascii c <? 128)%N = true.
Proof.
  destruct c as [[] [] [] [] [] [] [] []]; vm_compute; intros H;
    first [discriminate H | repeat split].
Qed.

Lemma trimLeftSpace_visible (c : ascii) (r : string) :
  isVisible c = true -> trimLeftSpace (String c r) = String c r.
Proof.
  intros H. destruct c as [[] [] [] [] [] [] [] []]; vm_compute in H; try discriminate H;
    destruct r as [|b [|d r]]; reflexivity.
Qed.

Lemma trimLeftSpaceRev_visible (c : ascii) (r : string) :
  isVisible c = true -> trimLeftSpaceRev (String c r) = String c r.
Proof.
  intros H. destruct c as [[] [] [] [] [] [] [] []]; vm_compute in H; try discriminate H;
    destruct r as [|b [|d r]]; try reflexivity;
    cbn [trimLeftSpaceRev]; unfold isSpace1, isSpace2, isSpace3;
    repeat match goal with
    | |- context [byteIs ?n (Ascii ?b0 ?b1 ?b2 ?b3 ?b4 ?b5 ?b6 ?b7)] =>
        change (byteIs n (Ascii b0 b1 b2 b3 b4 b5 b6 b7)) with false
    | |- context [byteIn ?lo ?hi (Ascii ?b0 ?b1 ?b2 ?b3 ?b4 ?b5 ?b6 ?b7)] =>
        change (byteIn lo hi (Ascii b0 b1 b2 b3 b4 b5 b6 b7)) with false
    end;
    cbn [orb]; rewrite ?andb_false_r; reflexivity.
Qed.

Lemma trimLeftSpace_spaces (ws s : string) :
  allBytes isSpace1 ws = true -> trimLeftSpace (ws +:+ s) = trimLeftSpace s.
Proof.
  induction ws as [|c ws IH]; [reflexivity |].
  cbn [allBytes]. intros H. apply andb_prop in H as [Hc Hws].
  rewrite append_cons. cbn [trimLeftSpace]. rewrite Hc. now apply IH.
Qed.

Lemma trimLeftSpaceRev_spaces (ws s : string) :
  allBytes isSpace1 ws = true -> trimLeftSpaceRev (ws +:+ s) = trimLeftSpaceRev s.
Proof.
  induction ws as [|c ws IH]; [reflexivity |].
  cbn [allBytes]. intros H. apply andb_prop in H as [Hc Hws].
  rewrite append_cons. cbn [trimLeftSpaceRev]. rewrite Hc. now apply IH.
Qed.

Lemma endsVisible_rev (p : string) :
  endsVisible p = true ->
  exists d r, revBytes EmptyString p = String d r /\ isVisible d = true.
Proof.
  induction p as [|c p IH]; [discriminate |].
  destruct p as [|c' p].
  - cbn. intros H. now exists c, EmptyString.
  - intros H. change (endsVisible (String c' p) = true) in H.
    destruct (IH H) as (d & r & Hrev & Hd).
    exists d, (r +:+ String c EmptyString). split; [| exact Hd].
    cbn [revBytes] in *. rewrite (revBytes_acc (String c' (String c EmptyString))).
    rewrite (revBytes_acc (String c' EmptyString)) in Hrev.
    change (String c' (String c EmptyString)) with (String c' EmptyString +:+ String c EmptyString).
    now rewrite <- append_assoc, Hrev.
Qed.

Lemma endsVisible_app (a b : string) :
  b <> EmptyString -> endsVisible (a +:+ b) = endsVisible b.
Proof.
  intros Hb. induction a as [|c a IH]; [reflexivity |].
  rewrite append_cons. rewrite <- IH.
  destruct (a +:+ b) as [|d r] eqn:Hab; [| reflexivity].
  destruct a; [cbn in Hab; contradiction | discriminate].
Qed.

(** What [strings.TrimSpace] leaves of a payload between blanks, the line
    feed of the line included: the payload. *)
Lemma TrimSpace_payload (lead p trail : string) :
  allBytes isBlank lead = true -> isPayload p = true -> allBytes isBlank trail = true ->
  TrimSpace (lead +:+ p +:+ trail +:+ newline) = p.
Proof.
  intros Hlead Hp Htrail. unfold isPayload in Hp.
  apply andb_prop in Hp as [Hp _]. apply andb_prop in Hp as [Hfirst Hlast].
  destruct p as [|c p]; [discriminate |].
  unfold TrimSpace.
  rewrite trimLeftSpace_spaces by (revert Hlead; apply allBytes_impl, isBlank_space).
  rewrite append_cons, (trimLeftSpace_visible _ _ Hfirst), <- append_cons.
  rewrite revBytes_app.
  destruct (endsVisible_rev _ Hlast) as (d & r & Hrev & Hd). rewrite Hrev.
  rewrite (revBytes_acc (String d r)).
  rewrite trimLeftSpaceRev_spaces, (trimLeftSpaceRev_visible _ _ Hd).
  - now rewrite <- Hrev, revBytes_involutive.
  - rewrite allBytes_rev, allBytes_app. cbn [allBytes].
    rewrite (allBytes_impl _ _ _ isBlank_space Htrail). reflexivity.
Qed.

(** *** The success record *)

Lemma successRecord_shape (message : string) :
  successRecord message
  = "{" +:+ quoted "action" +:+ ":" +:+ quoted "success" +:+ "," +:+ quoted "message" +:+ ":"
    +:+ String dquote (message +:+ String dquote "}").
Proof.
  unfold successRecord.
  do 7 match goal with |- ?a +:+ ?x = ?a +:+ ?y => apply (f_equal (String.append a)) end.
  unfold quoted. rewrite append_cons. f_equal. apply append_assoc.
Qed.

Lemma unquoteBody_plain (message rest : string) :
  allBytes isPlain message = true ->
  unquoteBody (message +:+ String dquote rest) = Some (message, rest).
Proof.
  induction message as [|c message IH]; [reflexivity |].
  cbn [allBytes]. intros H. apply andb_prop in H as [Hc Hm].
  destruct (isPlain_visible c Hc) as (H34 & H32 & H92 & H128).
  rewrite append_cons. cbn [unquoteBody]. rewrite H34, H32, H92, H128, (IH Hm).
  reflexivity.
Qed.

Lemma parseValue_string (fuel : nat) (depth : Z) (s t rest : string) :
  unquoteBody s = Some (t, rest) ->
  parseValue (S fuel) depth (String dquote s) = Some (VString t, rest).
Proof.
  intros Hs. cbn [parseValue].
  change (skipWS (String dquote s)) with (String dquote s). cbv beta iota.
  change (byteIs 123 dquote) with false. change (byteIs 91 dquote) with false.
  change (byteIs 34 dquote) with true. cbv beta iota. now rewrite Hs.
Qed.

Lemma parseValue_object (fuel : nat) (s : string) :
  parseValue (S fuel) 0 (String "{" (String dquote s))
  = parseMembers fuel 1 (String dquote s) [].
Proof. reflexivity. Qed.

Lemma parseMembers_member (fuel : nat) (depth : Z) (s : string) (acc : list (string * Value))
  (k r2 : string) (v : Value) (rest : string) :
  unquoteBody s = Some (k, String ":" r2) ->
  parseValue fuel depth r2 = Some (v, rest) ->
  parseMembers (S fuel) depth (String dquote s) acc
  = match skipWS rest with
    | String c r3 =>
        if byteIs 44 c then parseMembers fuel depth r3 (mapSet k v acc)
        else if byteIs 125 c then Some (VMap (mapSet k v acc), r3)
        else None
    | EmptyString => None
    end.
Proof.
  intros Hk Hv. cbn [parseMembers].
  change (skipWS (String dquote s)) with (String dquote s). cbv beta iota.
  change (byteIs 34 dquote) with true. cbv beta iota. rewrite Hk.
  change (skipWS (String ":" r2)) with (String ":" r2). cbv beta iota.
  change (byteIs 58 ":") with true. cbv beta iota. now rewrite Hv.
Qed.

Lemma successRecord_decodes (message : string) :
  allBytes isPlain message = true ->
  Unmarshal (successRecord message)
  = Ok [("action", VString "success"); ("message", VString message)].
Proof.
  intros Hm. unfold Unmarshal.
  assert (Hparse : forall n,
            parseValue (S (S (S (S n)))) 0 (successRecord message)
            = Some (VMap [("action", VString "success"); ("message", VString message)],
                    EmptyString)).
  { intros n. rewrite successRecord_shape.
    set (t := message +:+ String dquote "}").
    pose proof (parseValue_string n 1 t message "}" (unquoteBody_plain message "}" Hm)) as Hv2.
    pose proof (parseMembers_member (S n) 1 ("message" +:+ String dquote (String ":" (String dquote t)))
                  [("action", VString "success")] "message" (String dquote t)
                  (VString message) "}" eq_refl Hv2) as Hm2.
    set (rest1 := String "," (String dquote
                                ("message" +:+ String dquote (String ":" (String dquote t))))).
    pose proof (parseValue_string (S n) 1 ("success" +:+ String dquote rest1) "success" rest1
                  eq_refl) as Hv1.
    pose proof (parseMembers_member (S (S n)) 1
                  ("action" +:+ String dquote (String ":"
                     (String dquote ("success" +:+ String dquote rest1))))
                  [] "action" (String dquote ("success" +:+ String dquote rest1))
                  (VString "success") rest1 eq_refl Hv1) as Hm1.
    etransitivity; [exact (parseValue_object _ _) |].
    etransitivity; [exact Hm1 |].
    etransitivity; [exact Hm2 |].
    reflexivity. }
  assert (Hlen : exists n, (2 * String.length (successRecord message) + 2 = S (S (S (S n))))%nat).
  { rewrite successRecord_shape.
    change (String.length ("{" +:+ ?x)) with (S (String.length x)).
    eexists. rewrite Nat.mul_succ_r, !Nat.add_succ_r. reflexivity. }
  destruct Hlen as [n ->]. now rewrite Hparse.
Qed.

Lemma successRecord_fragment (message : string) :
  allBytes isPlain message = true -> fragment (successRecord message) = Some message.
Proof. intros Hm. unfold fragment. now rewrite (successRecord_decodes _ Hm). Qed.

Lemma successRecord_payload (message : string) :
  allBytes isPlain message = true ->
  isPayload (successRecord message) = true /\ successRecord message <> doneMarker.
Proof.
  intros Hm. split.
  - rewrite successRecord_shape. unfold isPayload.
    apply andb_true_intro. split; [apply andb_true_intro; split |].
    + reflexivity.
    + change (endsVisible (("{" +:+ quoted "action" +:+ ":" +:+ quoted "success" +:+ ","
                            +:+ quoted "message" +:+ ":" +:+ String dquote EmptyString)
                           +:+ (message +:+ String dquote "}")) = true).
      rewrite endsVisible_app by (destruct message; discriminate).
      rewrite endsVisible_app by discriminate. reflexivity.
    + change (negb (hasLF (("{" +:+ quoted "action" +:+ ":" +:+ quoted "success" +:+ ","
                            +:+ quoted "message" +:+ ":" +:+ String dquote EmptyString)
                           +:+ (message +:+ String dquote "}"))) = true).
      rewrite !hasLF_app, (allBytes_no_LF isPlain message eq_refl Hm). reflexivity.
  - rewrite successRecord_shape. discriminate.
Qed.

(** *** The lines of events *)

Lemma isLine_newline (s : string) : hasLF s = false -> isLine (s +:+ newline) = true.
Proof.
  unfold hasLF. induction s as [|c s IH]; [reflexivity |].
  cbn [anyByte]. intros H. apply orb_false_elim in H as [Hc Hs].
  rewrite append_cons. specialize (IH Hs).
  destruct (s +:+ newline) as [|d r] eqn:Hs'; [discriminate |].
  cbn [isLine]. rewrite Ascii.eqb_sym, Hc. exact IH.
Qed.

Lemma HasPrefix_newline (text p : string) :
  hasLF p = false -> HasPrefix text p = false -> HasPrefix (text +:+ newline) p = false.
Proof.
  unfold hasLF. revert text. induction p as [|a p IH]; intros text Hp H; [discriminate |].
  cbn [anyByte] in Hp. apply orb_false_elim in Hp as [Ha Hp].
  destruct text as [|b text].
  - change (Ascii.eqb a LF && HasPrefix EmptyString p = false).
    now rewrite Ascii.eqb_sym, Ha.
  - rewrite append_cons. cbn [HasPrefix] in *.
    destruct (Ascii.eqb a b); [| reflexivity]. cbn [andb] in *. now apply IH.
Qed.

Lemma eventLine_isLine (e : Event) : wellFormed e = true -> isLine (eventLine e) = true.
Proof.
  destruct e as [message | | lead p trail | text]; cbn [wellFormed eventLine]; intros H.
  - change (isLine (("data: " +:+ successRecord message) +:+ newline) = true).
    apply isLine_newline. rewrite hasLF_app.
    destruct (successRecord_payload message H) as [Hp _]. unfold isPayload in Hp.
    apply andb_prop in Hp as [_ Hp]. apply negb_true_iff in Hp. now rewrite Hp.
  - reflexivity.
  - apply andb_prop in H as [H Htrail]. apply andb_prop in H as [Hlead Hp].
    unfold isPayload in Hp. apply andb_prop in Hp as [_ Hp]. apply negb_true_iff in Hp.
    rewrite <- !append_assoc. apply isLine_newline.
    rewrite !hasLF_app, Hp, (allBytes_no_LF isBlank lead eq_refl Hlead),
      (allBytes_no_LF isBlank trail eq_refl Htrail). reflexivity.
  - apply andb_prop in H as [H _]. apply negb_true_iff in H. now apply isLine_newline.
Qed.

(** The payload the loops find on the line of an event. *)
Lemma eventLine_payload (e : Event) :
  wellFormed e = true ->
  payload (eventLine e)
  = match e with
    | Says message => Some (successRecord message)
    | Done => Some doneMarker
    | Data _ p _ => Some p
    | Other _ => None
    end.
Proof.
  destruct e as [message | | lead p trail | text]; cbn [wellFormed eventLine]; intros H.
  - unfold payload. rewrite HasPrefix_append, TrimPrefix_append.
    destruct (successRecord_payload message H) as [Hp _].
    pose proof (TrimSpace_payload EmptyString (successRecord message) EmptyString
                  eq_refl Hp eq_refl) as Htrim.
    change (TrimSpace (successRecord message +:+ newline) = successRecord message) in Htrim.
    now rewrite Htrim.
  - reflexivity.
  - apply andb_prop in H as [H Htrail]. apply andb_prop in H as [Hlead Hp].
    unfold payload. rewrite HasPrefix_append, TrimPrefix_append.
    now rewrite (TrimSpace_payload lead p trail Hlead Hp Htrail).
  - apply andb_prop in H as [_ H]. apply negb_true_iff in H.
    unfold payload. now rewrite (HasPrefix_newline text "data: " eq_refl H).
Qed.

(** Reading a body made of events gives their lines back, and the records
    and fragments the loops find are those of the events. *)
Lemma render_lines (events : list Event) (rest : string) :
  Forall (fun e => wellFormed e = true) events ->
  hasLF rest = false ->
  splitLines (render events rest) = (map eventLine events, rest).
Proof.
  intros Hev Hrest. apply splitLines_unlines; [| exact Hrest].
  induction Hev as [|e events He _ IH]; constructor; [now apply eventLine_isLine | exact IH].
Qed.

Lemma events_records (events : list Event) :
  Forall (fun e => wellFormed e = true) events ->
  omap fragment (untilDone (omap payload (map eventLine events))) = omap said (beforeDone events)
  /\ hasDone (omap payload (map eventLine events)) = existsb isDone events.
Proof.
  intros Hev. induction Hev as [|e events He _ [IH1 IH2]]; [now split |].
  cbn [map]. rewrite omap_payload_cons, (eventLine_payload e He).
  destruct e as [message | | lead p trail | text]; cbn [wellFormed] in He.
  - destruct (successRecord_payload message He) as [_ Hne]. apply String.eqb_neq in Hne.
    cbn [untilDone hasDone existsb beforeDone isDone]. rewrite Hne.
    fold (hasDone (omap payload (map eventLine events))).
    split; [| exact IH2].
    change (omap fragment (successRecord message :: ?l))
      with (match fragment (successRecord message) with
            | Some m => m :: omap fragment l
            | None => omap fragment l
            end).
    rewrite (successRecord_fragment message He), IH1. reflexivity.
  - now split.
  - cbn [untilDone hasDone existsb beforeDone isDone].
    fold (hasDone (omap payload (map eventLine events))).
    destruct (String.eqb p doneMarker); [now split |].
    split; [| exact IH2].
    change (omap fragment (p :: ?l))
      with (match fragment p with
            | Some m => m :: omap fragment l
            | None => omap fragment l
            end).
    change (omap said (Data lead p trail :: ?l))
      with (match fragment p with
            | Some m => m :: omap said l
            | None => omap said l
            end).
    now rewrite IH1.
  - now split.
Qed.

(** An event that is no marker and carries no fragment can be left out. *)
Lemma events_drop (pre post : list Event) (e : Event) :
  isDone e = false -> said e = None ->
  omap said (beforeDone (pre ++ e :: post)) = omap said (beforeDone (pre ++ post))
  /\ existsb isDone (pre ++ e :: post) = existsb isDone (pre ++ post).
Proof.
  intros Hdone Hsaid. induction pre as [|x pre [IH1 IH2]].
  - cbn [app beforeDone existsb]. rewrite Hdone. split; [| reflexivity].
    change (omap said (e :: ?l))
      with (match said e with Some m => m :: omap said l | None => omap said l end).
    now rewrite Hsaid.
  - cbn [app beforeDone existsb]. rewrite IH2. split; [| reflexivity].
    destruct (isDone x); [reflexivity |].
    change (omap said (x :: ?l))
      with (match said x with Some m => m :: omap said l | None => omap said l end).
    now rewrite IH1.
Qed.

(** C2, as the program has it.  On a body that is read to its end, the
    non-streaming translator returns without error after one [c.JSON] and
    nothing else: a [chat.completion] object with one choice and three
    usage counters that are zero, under status 200 (on a response not yet
    begun).  The message content is the concatenation, in order, of the
    fragments of the [data: ] records that decode and are tagged
    [success], up to the terminal marker or the end of the body, a record
    being a line that a line feed ends.  For a body made of events this is
    the concatenation of the messages of the events before the first
    terminal marker, whatever follows the marker and whatever text follows
    the last line feed, a record included. *)
Theorem nonstream_one_aggregate (resp : Response) (model : string) (st : St) :
  BodyErr resp = None ->
  exists obj content st',
    handleNonStreamResponse resp model st = (None, st')
    /\ out st' = out st ++ [OutJSON (statusSent st 200) obj]
    /\ writes st' = writes st
    /\ field obj "object" = Some (VString "chat.completion")
    /\ (exists choice message, choicesOf obj = [choice]
          /\ field choice "message" = Some message
          /\ field message "content" = Some (VString content))
    /\ field obj "usage"
       = Some (VMap [("prompt_tokens", VInt 0); ("completion_tokens", VInt 0);
                     ("total_tokens", VInt 0)])
    /\ content = aggregate (Body resp)
    /\ (forall events rest,
          Forall (fun e => wellFormed e = true) events ->
          hasLF rest = false ->
          Body resp = render events rest ->
          content = joinAll (omap said (beforeDone events))).
Proof.
  intros Heof.
  exists (completionObject (unixTime E (clockReads st)) model (aggregate (Body resp))).
  exists (aggregate (Body resp)).
  unfold handleNonStreamResponse. rewrite Heof, nonStreamLoop_aggregate.
  eexists. split; [reflexivity |].
  split; [reflexivity |]. split; [reflexivity |]. split; [reflexivity |].
  split; [eexists; eexists; repeat split |].
  split; [reflexivity |]. split; [reflexivity |].
  intros events rest Hev Hrest Hbody.
  unfold aggregate, dataRecords. rewrite Hbody, (render_lines _ _ Hev Hrest). cbn [fst].
  now rewrite (proj1 (events_records _ Hev)).
Qed.

(** C7.  In both modes, a record whose payload is not the terminal marker
    and does not decode as JSON is skipped and nothing else changes.  For
    every body and in every environment, the translation of the body is
    the translation of the body without the line of that record.  For a
    body made of events and a client that takes every write, the
    streaming translator writes the frames of the messages of the events
    around the record, those after it as well as those before it, up to
    the first terminal marker, and then the stop frame if there is a
    marker; the non-streaming translator answers with the concatenation
    of these messages. *)
Theorem malformed_record_skipped (resp : Response) (model : string) (st : St) :
  (forall (pre post : list string) (bad rest e : string) (isStream : bool),
     Forall (fun l => isLine l = true) (pre ++ bad :: post) ->
     hasLF rest = false ->
     HasPrefix bad "data: " = true ->
     TrimSpace (TrimPrefix bad "data: ") <> "[DONE]" ->
     Unmarshal (TrimSpace (TrimPrefix bad "data: ")) = Err e ->
     handleResponse (withBody resp (unlines (pre ++ bad :: post) rest)) isStream model st
     = handleResponse (withBody resp (unlines (pre ++ post) rest)) isStream model st)
  /\ (forall (pre post : list Event) (lead bad trail rest e : string),
        Forall (fun ev => wellFormed ev = true) (pre ++ Data lead bad trail :: post) ->
        hasLF rest = false ->
        bad <> doneMarker ->
        Unmarshal bad = Err e ->
        Body resp = render (pre ++ Data lead bad trail :: post) rest ->
        (isFlusher E = true ->
         (forall n, writeErr E n = None) ->
         exists st',
           handleResponse resp true model st = (None, st')
           /\ out st'
              = out st
                ++ deltaFrames model (clockReads st) (omap said (beforeDone (pre ++ post)))
                ++ stopFrame model
                     (length (omap said (beforeDone (pre ++ post))) + clockReads st)
                     (existsb isDone (pre ++ post)))
        /\ (BodyErr resp = None ->
            exists st',
              handleResponse resp false model st = (None, st')
              /\ out st'
                 = out st
                   ++ [OutJSON (statusSent st 200)
                         (completionObject (unixTime E (clockReads st)) model
                            (joinAll (omap said (beforeDone (pre ++ post)))))])).
Proof.
  split.
  - intros pre post bad rest e isStream Hall Hrest Hprefix Hdone Hdecode.
    apply handleResponse_drop_silent; [exact Hall | exact Hrest |].
    unfold silent, payload. rewrite Hprefix. split; [exact Hdone |].
    unfold fragment. now rewrite Hdecode.
  - intros pre post lead bad trail rest e Hev Hrest Hmarker Hdecode Hbody.
    assert (Hbad : isDone (Data lead bad trail) = false /\ said (Data lead bad trail) = None).
    { cbn [isDone said]. split; [now apply String.eqb_neq |].
      unfold fragment. now rewrite Hdecode. }
    destruct (events_drop pre post _ (proj1 Hbad) (proj2 Hbad)) as [Hsaid Hdone].
    destruct (events_records _ Hev) as [Hfrags HhasDone].
    split.
    + intros Hflush Hwrite. unfold handleResponse, handleStreamResponse.
      rewrite Hflush, Hbody, (render_lines _ _ Hev Hrest). cbn [negb fst].
      unfold bind at 1 2 3. cbn [SetHeader].
      rewrite (streamLoop_frames _ _ _ Hwrite), Hfrags, HhasDone, Hsaid, Hdone.
      eexists. split; reflexivity.
    + intros Heof. unfold handleResponse, handleNonStreamResponse.
      rewrite Heof, Hbody, (render_lines _ _ Hev Hrest). cbn [fst].
      rewrite nonStreamLoop_aggregate, Hfrags, Hsaid.
      eexists. split; reflexivity.
Qed.

(** ** Steps that respect a relation on states *)

Lemma streamLoop_frame (Q : Request -> Prop) (R : St -> St -> Prop) (HR : Frame Q R)
  (model : string) (lines : list string) (st : St) :
  R st (snd (streamLoop model lines st)).
Proof.
  revert st. induction lines as [|line lines IH]; intros st.
  - apply (frame_refl Q R HR).
  - rewrite streamLoop_cons.
    destruct (payload line) as [p |]; [| apply IH].
    destruct (String.eqb p doneMarker).
    + unfold bind.
      pose proof (frame_Now Q R HR st) as H1. destruct (Now st) as [created st1].
      pose proof (frame_writeFrame Q R HR (stopChunk created model) st1) as H2.
      destruct (writeFrame _ st1) as [[e |] st2]; cbn [snd ret] in *;
        exact (frame_trans Q R HR _ _ _ H1 H2).
    + destruct (fragment p) as [msgStr |]; [| apply IH].
      unfold bind.
      pose proof (frame_Now Q R HR st) as H1. destruct (Now st) as [created st1].
      pose proof (frame_writeFrame Q R HR (deltaChunk created model msgStr) st1) as H2.
      destruct (writeFrame _ st1) as [[e |] st2]; cbn [snd ret] in *.
      * exact (frame_trans Q R HR _ _ _ H1 H2).
      * exact (frame_trans Q R HR _ _ _ H1 (frame_trans Q R HR _ _ _ H2 (IH st2))).
Qed.

Lemma handleResponse_frame (Q : Request -> Prop) (R : St -> St -> Prop) (HR : Frame Q R)
  (resp : Response) (isStream : bool) (model : string) (st : St) :
  R st (snd (handleResponse resp isStream model st)).
Proof.
  unfold handleResponse, handleStreamResponse, handleNonStreamResponse.
  destruct isStream.
  - unfold bind.
    pose proof (frame_SetHeader Q R HR "Content-Type" "text/event-stream" st
                  ltac:(cbn; auto)) as H1.
    destruct (SetHeader "Content-Type" _ st) as [u1 st1]. cbn [snd] in H1.
    pose proof (frame_SetHeader Q R HR "Cache-Control" "no-cache" st1 ltac:(cbn; auto)) as H2.
    destruct (SetHeader "Cache-Control" _ st1) as [u2 st2]. cbn [snd] in H2.
    pose proof (frame_SetHeader Q R HR "Connection" "keep-alive" st2 ltac:(cbn; auto)) as H3.
    destruct (SetHeader "Connection" _ st2) as [u3 st3]. cbn [snd] in H3.
    assert (H : R st st3)
      by exact (frame_trans Q R HR _ _ _ H1 (frame_trans Q R HR _ _ _ H2 H3)).
    destruct (negb (isFlusher E)); [exact H |].
    exact (frame_trans Q R HR _ _ _ H (streamLoop_frame Q R HR model _ st3)).
  - destruct (nonStreamLoop _ _ _) as [full | e]; [| apply (frame_refl Q R HR)].
    unfold bind.
    pose proof (frame_Now Q R HR st) as H1. destruct (Now st) as [created st1].
    pose proof (frame_JSON Q R HR StatusOK (completionObject created model full) st1) as H2.
    destruct (JSON _ _ st1) as [u st2]. cbn [snd ret] in *.
    exact (frame_trans Q R HR _ _ _ H1 H2).
Qed.

Lemma sendChat_frame (Q : Request -> Prop) (R : St -> St -> Prop) (HR : Frame Q R)
  (req : ChatRequest) (model content token vqdHash : string) (st : St) :
  Q (upstreamRequest model content token vqdHash) ->
  R st (snd (sendChat req model content token vqdHash st)).
Proof.
  intros HQ. unfold sendChat, bind.
  pose proof (frame_Do Q R HR _ st HQ) as H1.
  destruct (Do _ st) as [[resp | err] st1]; cbn [snd ret] in *; [| exact H1].
  destruct (negb (StatusCode resp =? StatusOK)); [exact H1 |].
  exact (frame_trans Q R HR _ _ _ H1 (handleResponse_frame Q R HR resp _ model st1)).
Qed.

Lemma NewRequest_acquisition (url : string) :
  HasPrefix url "https://duckduckgo.com" = true -> isAcquisition (NewRequest "GET" url None).
Proof. intros H. now repeat split. Qed.

Lemma scanScripts_frame (Q : Request -> Prop) (R : St -> St -> Prop) (HR : Frame Q R)
  (HQ : forall r, isAcquisition r -> Q r) (jsMatches : list (list string)) (st : St) :
  R st (snd (scanScripts jsMatches st)).
Proof.
  revert st. induction jsMatches as [|m rest IH]; intros st; [apply (frame_refl Q R HR) |].
  cbn [scanScripts]. destruct (length m <? 2)%nat; [apply IH |].
  destruct (negb (ParseOK ("https://duckduckgo.com" +:+ nth 1 m EmptyString))); [apply IH |].
  unfold bind.
  pose proof (frame_Do Q R HR _ st
                (HQ _ (NewRequest_acquisition _ (HasPrefix_append _ (nth 1 m EmptyString)))))
    as H1.
  destruct (Do _ st) as [[jsResp | err] st1]; cbn [snd] in H1;
    [| exact (frame_trans Q R HR _ _ _ H1 (IH st1))].
  destruct (BodyErr jsResp); [exact (frame_trans Q R HR _ _ _ H1 (IH st1)) |].
  destruct (2 <=? length (FindStringSubmatch vqdInJSRegex (Body jsResp)))%nat; [exact H1 |].
  destruct (2 <=? length (FindStringSubmatch vqdInJSRegex2 (Body jsResp)))%nat; [exact H1 |].
  exact (frame_trans Q R HR _ _ _ H1 (IH st1)).
Qed.

Lemma scanFallbacks_frame (Q : Request -> Prop) (R : St -> St -> Prop) (HR : Frame Q R)
  (HQ : forall r, isAcquisition r -> Q r) (urls : list string) (st : St) :
  Forall (fun url => HasPrefix url "https://duckduckgo.com" = true) urls ->
  R st (snd (scanFallbacks urls st)).
Proof.
  intros Hurls. revert st.
  induction Hurls as [|url rest Hurl _ IH]; intros st; [apply (frame_refl Q R HR) |].
  cbn [scanFallbacks]. unfold bind.
  pose proof (frame_Do Q R HR _ st (HQ _ (NewRequest_acquisition _ Hurl))) as H1.
  destruct (Do _ st) as [[resp | err] st1]; cbn [snd] in H1;
    [| exact (frame_trans Q R HR _ _ _ H1 (IH st1))].
  destruct (BodyErr resp); [exact (frame_trans Q R HR _ _ _ H1 (IH st1)) |].
  destruct (firstGroup fallbackPatterns (Body resp)); [exact H1 |].
  exact (frame_trans Q R HR _ _ _ H1 (IH st1)).
Qed.

Lemma requestTokenAndHash_frame (Q : Request -> Prop) (R : St -> St -> Prop) (HR : Frame Q R)
  (HQ : forall r, isAcquisition r -> Q r) (st : St) : R st (snd (requestTokenAndHash st)).
Proof.
  unfold requestTokenAndHash, bind.
  pose proof (frame_Do Q R HR _ st (HQ _ (NewRequest_acquisition homepageURL eq_refl))) as H1.
  destruct (Do _ st) as [[resp | err] st1]; cbn [snd ret] in *; [| exact H1].
  destruct (negb (StatusCode resp =? StatusOK)); [exact H1 |].
  destruct (BodyErr resp); [exact H1 |].
  destruct (extractFromPage (Body resp)); [exact H1 |].
  pose proof (scanScripts_frame Q R HR HQ (FindAllStringSubmatch jsURLRegex (Body resp)) st1) as H2.
  destruct (scanScripts _ st1) as [[token |] st2]; cbn [snd ret] in *;
    [exact (frame_trans Q R HR _ _ _ H1 H2) |].
  pose proof (scanFallbacks_frame Q R HR HQ fallbackURLs st2
                ltac:(repeat constructor)) as H3.
  destruct (scanFallbacks _ st2) as [[token |] st3]; cbn [snd ret] in *;
    [exact (frame_trans Q R HR _ _ _ H1 (frame_trans Q R HR _ _ _ H2 H3)) |].
  assert (Hstatus : isAcquisition (setHeader "x-vqd-accept" "1" (NewRequest "GET" statusURL None)))
    by now repeat split.
  pose proof (frame_Do Q R HR _ st3 (HQ _ Hstatus)) as H4.
  assert (H : R st (snd (Do (setHeader "x-vqd-accept" "1" (NewRequest "GET" statusURL None)) st3)))
    by exact (frame_trans Q R HR _ _ _ H1
                (frame_trans Q R HR _ _ _ H2 (frame_trans Q R HR _ _ _ H3 H4))).
  destruct (Do _ st3) as [[statusResp | err] st4]; cbn [snd ret] in *; [| exact H].
  destruct (negb (String.eqb (HeaderGet (RespHeader statusResp) "x-vqd-4") EmptyString));
    exact H.
Qed.

(** ** What the patterns capture *)

Lemma HasPrefix_length (s l : string) :
  HasPrefix s l = true ->
  (String.length (dropBytes (String.length l) s) + String.length l)%nat = String.length s.
Proof.
  revert s. induction l as [|a l IH]; intros s H.
  - cbn. lia.
  - destruct s as [|b s]; [discriminate |].
    cbn [HasPrefix] in H. apply andb_prop in H as [_ H].
    cbn [String.length dropBytes]. specialize (IH s H). lia.
Qed.

Lemma takeBytes_not_empty (n : nat) (s : string) :
  (0 < n)%nat -> s <> EmptyString -> takeBytes n s <> EmptyString.
Proof. destruct n; [lia |]. destruct s; [congruence | discriminate]. Qed.

Lemma starK_shorter {A : Type} (p : ascii -> bool) (s : string) (k : string -> option A) (x : A) :
  starK p s k = Some x ->
  exists r, k r = Some x /\ (String.length r <= String.length s)%nat.
Proof.
  revert x. induction s as [|c s IH]; intros x H; cbn [starK] in H.
  - eauto.
  - destruct (p c); [| eauto].
    destruct (starK p s k) as [y |] eqn:Hs; [| eauto].
    injection H as ->. destruct (IH x eq_refl) as (r & Hr & Hlen).
    exists r. split; [exact Hr |]. cbn [String.length]. lia.
Qed.

(** A successful match hands its continuation a shorter input, strictly
    shorter when the pattern takes a byte, and groups that are not empty. *)
Lemma matchK_groups {A : Type} (re : regex) :
  forall (s : string) (caps : list string) (k : string -> list string -> option A) (x : A),
  groupsConsume re = true ->
  matchK re s caps k = Some x ->
  exists r caps',
    k r caps' = Some x
    /\ (String.length r <= String.length s)%nat
    /\ (consumes re = true -> (String.length r < String.length s)%nat)
    /\ (Forall (fun t => t <> EmptyString) caps -> Forall (fun t => t <> EmptyString) caps').
Proof.
  induction re as [l | p | p | p | a IHa b IHb | a IHa]; intros s caps k x Hg H;
    cbn [matchK] in H.
  - destruct (HasPrefix s l) eqn:Hp; [| discriminate].
    pose proof (HasPrefix_length s l Hp) as Hlen.
    exists (dropBytes (String.length l) s), caps.
    split; [exact H |]. split; [lia |]. split; [| exact (fun Hc => Hc)].
    cbn [consumes]. intros Hl. apply negb_true_iff, String.eqb_neq in Hl.
    destruct l; [congruence |]. cbn [String.length] in *. lia.
  - destruct s as [|c r]; [discriminate |]. destruct (p c); [| discriminate].
    exists r, caps. cbn [String.length].
    split; [exact H |]. split; [lia |]. split; [intros _; lia | exact (fun Hc => Hc)].
  - apply starK_shorter in H as (r & Hr & Hlen).
    exists r, caps. split; [exact Hr |]. split; [exact Hlen |].
    split; [discriminate | exact (fun Hc => Hc)].
  - destruct s as [|c r0]; [discriminate |]. destruct (p c); [| discriminate].
    apply starK_shorter in H as (r & Hr & Hlen).
    exists r, caps. cbn [String.length]. split; [exact Hr |].
    split; [lia |]. split; [intros _; lia | exact (fun Hc => Hc)].
  - cbn [groupsConsume] in Hg. apply andb_prop in Hg as [Hga Hgb].
    apply (IHa _ _ _ _ Hga) in H as (r1 & caps1 & H1 & Hlen1 & Hc1 & Hne1).
    apply (IHb _ _ _ _ Hgb) in H1 as (r2 & caps2 & H2 & Hlen2 & Hc2 & Hne2).
    exists r2, caps2. split; [exact H2 |]. split; [lia |].
    split; [| exact (fun Hc => Hne2 (Hne1 Hc))].
    cbn [consumes]. intros Hc. apply orb_prop in Hc as [Hc | Hc].
    + specialize (Hc1 Hc). lia.
    + specialize (Hc2 Hc). lia.
  - cbn [groupsConsume] in Hg. apply andb_prop in Hg as [Hca Hga].
    apply (IHa _ _ _ _ Hga) in H as (r & caps1 & H1 & Hlen & Hc & Hne).
    specialize (Hc Hca).
    exists r, (caps1 ++ [takeBytes (String.length s - String.length r) s]).
    split; [exact H1 |]. split; [exact Hlen |]. split; [intros _; exact Hc |].
    intros Hcaps. apply Forall_app. split; [now apply Hne |].
    constructor; [| constructor].
    apply takeBytes_not_empty; [lia |]. destruct s; [cbn in Hc; lia | discriminate].
Qed.

Lemma findFirst_groups (re : regex) (s : string) (m : list string) (rest : string) :
  groupsConsume re = true ->
  findFirst re s = Some (m, rest) ->
  exists whole caps, m = whole :: caps /\ Forall (fun t => t <> EmptyString) caps.
Proof.
  intros Hg. induction s as [|c s IH]; cbn [findFirst]; unfold matchHere.
  - destruct (matchK re EmptyString [] _) as [[m' rest'] |] eqn:Hm; [| discriminate].
    intros H. injection H as <- <-.
    apply (matchK_groups re _ _ _ _ Hg) in Hm as (r & caps & Hk & _ & _ & Hne).
    injection Hk as <- <-. eauto.
  - destruct (matchK re (String c s) [] _) as [[m' rest'] |] eqn:Hm.
    + intros H. injection H as <- <-.
      apply (matchK_groups re _ _ _ _ Hg) in Hm as (r & caps & Hk & _ & _ & Hne).
      injection Hk as <- <-. eauto.
    + exact IH.
Qed.

(** The first group of a match is never empty. *)
Lemma FindStringSubmatch_group (re : regex) (s : string) :
  groupsConsume re = true ->
  (2 <=? length (FindStringSubmatch re s))%nat = true ->
  nth 1 (FindStringSubmatch re s) EmptyString <> EmptyString.
Proof.
  intros Hg. unfold FindStringSubmatch.
  destruct (findFirst re s) as [[m rest] |] eqn:Hf; [| discriminate].
  apply (findFirst_groups re s m rest Hg) in Hf as (whole & caps & -> & Hne).
  destruct caps as [|cap caps]; [discriminate |].
  intros _. cbn [nth]. now inversion Hne.
Qed.

Lemma firstGroup_not_empty (patterns : list regex) (content token : string) :
  Forall (fun re => groupsConsume re = true) patterns ->
  firstGroup patterns content = Some token -> token <> EmptyString.
Proof.
  intros Hall. induction Hall as [|re rest Hre _ IH]; [discriminate |].
  cbn [firstGroup].
  destruct (2 <=? length (FindStringSubmatch re content))%nat eqn:Hm; [| exact IH].
  intros H. injection H as <-. now apply FindStringSubmatch_group.
Qed.

Lemma page_patterns_capture : Forall (fun re => groupsConsume re = true) (vqdRegex :: alternatePatterns).
Proof. repeat constructor. Qed.

Lemma fallback_patterns_capture : Forall (fun re => groupsConsume re = true) fallbackPatterns.
Proof. repeat constructor. Qed.

Lemma scanScripts_token (jsMatches : list (list string)) (st st' : St) (token : string) :
  scanScripts jsMatches st = (Some token, st') -> token <> EmptyString.
Proof.
  revert st. induction jsMatches as [|m rest IH]; intros st; [discriminate |].
  cbn [scanScripts]. destruct (length m <? 2)%nat; [apply IH |].
  destruct (negb (ParseOK ("https://duckduckgo.com" +:+ nth 1 m EmptyString))); [apply IH |].
  unfold bind, ret. destruct (Do _ st) as [[jsResp | err] st1]; [| apply IH].
  destruct (BodyErr jsResp); [apply IH |].
  destruct (2 <=? length (FindStringSubmatch vqdInJSRegex (Body jsResp)))%nat eqn:H1.
  - intros H. injection H as <- _. now apply FindStringSubmatch_group.
  - destruct (2 <=? length (FindStringSubmatch vqdInJSRegex2 (Body jsResp)))%nat eqn:H2;
      [| apply IH].
    intros H. injection H as <- _. now apply FindStringSubmatch_group.
Qed.

Lemma scanFallbacks_token (urls : list string) (st st' : St) (token : string) :
  scanFallbacks urls st = (Some token, st') -> token <> EmptyString.
Proof.
  revert st. induction urls as [|url rest IH]; intros st; [discriminate |].
  cbn [scanFallbacks]. unfold bind, ret.
  destruct (Do _ st) as [[resp | err] st1]; [| apply IH].
  destruct (BodyErr resp); [apply IH |].
  destruct (firstGroup fallbackPatterns (Body resp)) as [t |] eqn:Hf; [| apply IH].
  intros H. injection H as <- _.
  exact (firstGroup_not_empty _ _ _ fallback_patterns_capture Hf).
Qed.

Lemma requestTokenAndHash_token (st st' : St) (token vqdHash : string) :
  requestTokenAndHash st = (Ok (token, vqdHash), st') ->
  token <> EmptyString /\ vqdHash = EmptyString.
Proof.
  unfold requestTokenAndHash, bind, ret.
  destruct (Do _ st) as [[resp | err] st1]; [| discriminate].
  destruct (negb (StatusCode resp =? StatusOK)); [discriminate |].
  destruct (BodyErr resp); [discriminate |].
  destruct (extractFromPage (Body resp)) as [t |] eqn:Hpage.
  { intros H. injection H as <- <- _. split; [| reflexivity].
    rewrite extractFromPage_firstGroup in Hpage.
    exact (firstGroup_not_empty _ _ _ page_patterns_capture Hpage). }
  destruct (scanScripts _ st1) as [[t |] st2] eqn:Hscripts.
  { intros H. injection H as <- <- _. split; [| reflexivity].
    exact (scanScripts_token _ _ _ _ Hscripts). }
  destruct (scanFallbacks _ st2) as [[t |] st3] eqn:Hfall.
  { intros H. injection H as <- <- _. split; [| reflexivity].
    exact (scanFallbacks_token _ _ _ _ Hfall). }
  destruct (Do _ st3) as [[statusResp | err] st4]; [| discriminate].
  destruct (String.eqb_spec (HeaderGet (RespHeader statusResp) "x-vqd-4") EmptyString)
    as [Heq | Hne]; cbn [negb]; [discriminate |].
  intros H. injection H as <- <- _. now split.
Qed.

(** X5.  A credential that the live acquisition of main.go returns has a
    token that is not empty and an empty hash, whichever of the four
    methods found it; so has the token of [requestToken]. *)
Theorem acquired_token_not_empty (st : St) :
  (forall token vqdHash st',
     requestTokenAndHash st = (Ok (token, vqdHash), st') ->
     token <> EmptyString /\ vqdHash = EmptyString)
  /\ (forall token st', requestToken st = (Ok token, st') -> token <> EmptyString).
Proof.
  split.
  - intros token vqdHash st'. apply requestTokenAndHash_token.
  - intros token st'. unfold requestToken, bind, ret.
    destruct (requestTokenAndHash st) as [[[t h] | err] st1] eqn:Hr; [| discriminate].
    intros H. injection H as <- _. exact (proj1 (requestTokenAndHash_token _ _ _ _ Hr)).
Qed.

(** ** The request sent to the chat endpoint *)

Lemma upstreamRequest_shape (model content token vqdHash : string) :
  let r := upstreamRequest model content token vqdHash in
  Method r = "POST" /\ URL r = chatURL /\ ReqBody r = Some (chatBody model content)
  /\ HeaderGet (Header r) "Accept" = "text/event-stream"
  /\ HeaderGet (Header r) "Content-Type" = "application/json"
  /\ HeaderGet (Header r) "x-vqd-4" = token
  /\ (vqdHash <> EmptyString -> HeaderGet (Header r) "x-vqd-hash-1" = vqdHash)
  /\ (forall k,
        ~ In (CanonicalMIMEHeaderKey k)
             (["Accept"; "Content-Type"; "X-Vqd-4"]
              ++ if String.eqb vqdHash EmptyString then [] else ["X-Vqd-Hash-1"]) ->
        HeaderGet (Header r) k = HeaderGet (Header (NewRequest "POST" chatURL None)) k).
Proof.
  unfold upstreamRequest, setHeader, HeaderGet, HeaderSet.
  destruct (String.eqb_spec vqdHash EmptyString) as [-> | Hne];
    cbn [negb URL Header Method ReqBody NewRequest app].
  - repeat (split; [reflexivity |]).
    split; [now rewrite lookup_insert_eq |].
    split; [rewrite lookup_insert_ne by (vm_compute; discriminate);
            now rewrite lookup_insert_eq |].
    split; [rewrite !lookup_insert_ne by (vm_compute; discriminate);
            now rewrite lookup_insert_eq |].
    split; [congruence |].
    intros k Hk. cbn [In] in Hk.
    rewrite !lookup_insert_ne; [reflexivity | | |];
      vm_compute (CanonicalMIMEHeaderKey (String _ _)); intros Heq; apply Hk; rewrite <- Heq;
      auto.
  - repeat (split; [reflexivity |]).
    split; [now rewrite lookup_insert_eq |].
    split; [rewrite lookup_insert_ne by (vm_compute; discriminate);
            now rewrite lookup_insert_eq |].
    split; [rewrite !lookup_insert_ne by (vm_compute; discriminate);
            now rewrite lookup_insert_eq |].
    split; [intros _; rewrite !lookup_insert_ne by (vm_compute; discriminate);
            now rewrite lookup_insert_eq |].
    intros k Hk. cbn [In] in Hk.
    rewrite !lookup_insert_ne; [reflexivity | | | |];
      vm_compute (CanonicalMIMEHeaderKey (String _ _)); intros Heq; apply Hk; rewrite <- Heq;
      auto.
Qed.

(** X6.  Whatever [config.FakeHeaders] holds, the request sent to the chat
    endpoint is a [POST] to the chat address whose body is the model and one
    [user] message with the prompt; its [Accept] header is
    [text/event-stream], its [Content-Type] is [application/json], its
    [x-vqd-4] is the token, and its [x-vqd-hash-1] is the hash when the hash
    is not empty.  With an empty hash that header, like every header other
    than these four, is as the fake headers leave it. *)
Theorem upstreamRequest_headers (model content token vqdHash : string) :
  let r := upstreamRequest model content token vqdHash in
  Method r = "POST" /\ URL r = chatURL /\ ReqBody r = Some (chatBody model content)
  /\ HeaderGet (Header r) "Accept" = "text/event-stream"
  /\ HeaderGet (Header r) "Content-Type" = "application/json"
  /\ HeaderGet (Header r) "x-vqd-4" = token
  /\ (vqdHash <> EmptyString -> HeaderGet (Header r) "x-vqd-hash-1" = vqdHash)
  /\ (forall k,
        ~ In (CanonicalMIMEHeaderKey k)
             (["Accept"; "Content-Type"; "X-Vqd-4"]
              ++ if String.eqb vqdHash EmptyString then [] else ["X-Vqd-Hash-1"]) ->
        HeaderGet (Header r) k = HeaderGet (Header (NewRequest "POST" chatURL None)) k).
Proof. apply upstreamRequest_shape. Qed.

(** ** What an attempt touches *)

Lemma attempt_frame (Q : Request -> Prop) (R : St -> St -> Prop) (HR : Frame Q R)
  (HQ : forall r, isAcquisition r -> Q r) (req : ChatRequest) (model content : string)
  (st : St) :
  (forall token, token <> EmptyString -> Q (upstreamRequest model content token EmptyString)) ->
  R st (snd (attempt req model content st)).
Proof.
  intros Hchat. unfold attempt, bind.
  pose proof (requestTokenAndHash_frame Q R HR HQ st) as H1.
  destruct (requestTokenAndHash st) as [[[token vqdHash] | err] st1] eqn:Hacq;
    cbn [snd ret] in *; [| exact H1].
  destruct (requestTokenAndHash_token _ _ _ _ Hacq) as [Htoken ->].
  exact (frame_trans Q R HR _ _ _ H1
           (sendChat_frame Q R HR req model content token EmptyString st1 (Hchat _ Htoken))).
Qed.

Lemma retryLoop_frame (Q : Request -> Prop) (R : St -> St -> Prop) (HR : Frame Q R)
  (body : M (option string)) :
  (forall st, R st (snd (body st))) ->
  (forall d st, R st (snd (Sleep d st))) ->
  forall fuel retryCount lastError st,
    R st (snd (retryLoop body fuel retryCount lastError st)).
Proof.
  intros Hbody Hsleep. induction fuel as [|fuel IH]; intros k lastError st; cbn [retryLoop].
  - destruct (k <=? MaxRetryCount config); [apply (frame_refl Q R HR) |].
    destruct lastError; [apply (frame_JSON Q R HR) | apply (frame_refl Q R HR)].
  - destruct (k <=? MaxRetryCount config).
    + unfold bind.
      assert (H0 : R st (snd ((if 0 <? k then Sleep (RetryDelay config) else ret tt) st)))
        by (destruct (0 <? k); [apply Hsleep | apply (frame_refl Q R HR)]).
      destruct ((if 0 <? k then Sleep (RetryDelay config) else ret tt) st) as [u st0].
      cbn [snd] in H0. pose proof (Hbody st0) as H1.
      destruct (body st0) as [[err |] st1]; cbn [snd ret] in *.
      * exact (frame_trans Q R HR _ _ _ H0 (frame_trans Q R HR _ _ _ H1 (IH _ _ st1))).
      * exact (frame_trans Q R HR _ _ _ H0 H1).
    + destruct lastError; [apply (frame_JSON Q R HR) | apply (frame_refl Q R HR)].
Qed.

Lemma authenticated_frame (Q : Request -> Prop) (R : St -> St -> Prop) (HR : Frame Q R)
  (serve : Context -> M Exit) (c : Context) (st : St) :
  R st (snd (serve c st)) -> R st (snd (authenticated serve c st)).
Proof.
  intros Hserve. unfold authenticated.
  repeat match goal with
  | |- context [if ?b then _ else _] => destruct b
  end; (exact Hserve) || (apply (frame_JSON Q R HR)).
Qed.

Lemma handleCompletion_frame (Q : Request -> Prop) (R : St -> St -> Prop) (HR : Frame Q R)
  (HQ : forall r, isAcquisition r -> Q r) (c : Context) (st : St) :
  (forall d st0, R st0 (snd (Sleep d st0))) ->
  (forall req token,
     ShouldBindJSON c = Ok req -> token <> EmptyString ->
     Q (upstreamRequest (convertModel (Model req)) (prepareMessages (Messages req))
          token EmptyString)) ->
  R st (snd (handleCompletion c st)).
Proof.
  intros Hsleep Hchat. apply (authenticated_frame Q R HR).
  unfold serveCompletion. destruct (ShouldBindJSON c) as [req | err];
    [| apply (frame_JSON Q R HR)].
  apply (retryLoop_frame Q R HR); [| exact Hsleep].
  intros st0. apply (attempt_frame Q R HR HQ). intros token Htoken. now apply Hchat.
Qed.

(** The requests sent grow by requests that [P] allows. *)
Lemma sent_Frame (P : Request -> Prop) :
  Frame P (fun st st' => exists new, sent st' = sent st ++ new /\ Forall P new).
Proof.
  constructor.
  - intros st. exists []. now rewrite app_nil_r.
  - intros a b c (n1 & H1 & P1) (n2 & H2 & P2). exists (n1 ++ n2).
    rewrite H2, H1, <- app_assoc. split; [reflexivity | now apply Forall_app].
  - intros req st HP. exists [req]. split; [reflexivity | now repeat constructor].
  - intros st. exists []. cbn. now rewrite app_nil_r.
  - intros obj st. exists []. unfold writeFrame.
    destruct (writeErr E (writes st)); cbn; now rewrite app_nil_r.
  - intros k v st _. exists []. cbn. now rewrite app_nil_r.
  - intros code obj st. exists []. cbn. now rewrite app_nil_r.
Qed.

(** The sleeps stay as they are. *)
Lemma slept_Frame : Frame (fun _ => True) (fun st st' => slept st' = slept st).
Proof.
  constructor; try reflexivity.
  - intros a b c H1 H2. now rewrite H2.
  - intros obj st. unfold writeFrame. now destruct (writeErr E (writes st)).
Qed.

(** A response header other than the three of the streaming translator
    stays as it is. *)
Lemma header_Frame (k : string) :
  ~ In k streamHeaderKeys ->
  Frame (fun _ => True) (fun st st' => wHeader st' !! k = wHeader st !! k).
Proof.
  intros Hk. constructor; try reflexivity.
  - intros a b c H1 H2. now rewrite H2.
  - intros obj st. unfold writeFrame. now destruct (writeErr E (writes st)).
  - intros k' v st Hin. cbn [SetHeader snd wHeader]. unfold HeaderSet.
    apply lookup_insert_ne. intros Heq. apply Hk. rewrite <- Heq.
    cbn [streamHeaderKeys In] in *.
    destruct Hin as [<- | [<- | [<- | []]]]; vm_compute (CanonicalMIMEHeaderKey _); auto.
Qed.


(** ** Rejections *)

(** [authorized] is exactly the condition under which the check lets a
    request through. *)
Lemma authenticated_cases (serve : Context -> M Exit) (c : Context) (st : St) :
  (authorized c /\ authenticated serve c st = serve c st)
  \/ (~ authorized c
      /\ exists msg,
           authenticated serve c st
           = (Returned, afterJSON StatusUnauthorized (errorBody msg) st)).
Proof.
  destruct (String.eqb_spec (Getenv E "APIKEY") EmptyString) as [Hnone | Hkey].
  { left. split; [now left | apply authenticated_pass; now left]. }
  destruct (String.eqb_spec (GetHeader c "Authorization") EmptyString) as [Hempty | Hfull].
  { right. split.
    - intros [H | H]; [contradiction |]. rewrite Hempty in H. discriminate.
    - apply authenticated_reject; [exact Hkey | now left]. }
  destruct (HasPrefix (GetHeader c "Authorization") "Bearer ") eqn:Hprefix.
  - destruct (String.eqb_spec (TrimPrefix (GetHeader c "Authorization") "Bearer ")
                (Getenv E "APIKEY")) as [Hright | Hwrong].
    + assert (Hauth : authorized c).
      { right. rewrite (HasPrefix_split _ _ Hprefix) at 1. now rewrite Hright. }
      left. split; [exact Hauth | now apply authenticated_pass].
    + right. split.
      * intros [H | H]; [contradiction |]. apply Hwrong. now rewrite H, TrimPrefix_append.
      * apply authenticated_reject; [exact Hkey | now right; right].
  - right. split.
    + intros [H | H]; [contradiction |]. rewrite H, HasPrefix_append in Hprefix. discriminate.
    + apply authenticated_reject; [exact Hkey | now right; left].
Qed.

(** X8.  The handler rejects a request before it does anything else, and
    the check of the secret comes first: a request that does not pass it
    gets status 401 whatever its body, and a request that passes it with a
    body that does not bind gets status 400 with the binding error.  In
    both cases the state changes by that one answer only: no round trip, no
    sleep. *)
Theorem early_rejections (c : Context) (st : St) :
  (~ authorized c ->
   exists msg, handleCompletion c st = (Returned, afterJSON 401 (errorBody msg) st))
  /\ (forall err, authorized c -> ShouldBindJSON c = Err err ->
        handleCompletion c st = (Returned, afterJSON 400 (errorBody err) st)).
Proof.
  unfold handleCompletion. split.
  - intros Hno. destruct (authenticated_cases serveCompletion c st) as [[Hyes _] | [_ H]];
      [contradiction | exact H].
  - intros err Hauth Hbind. rewrite (authenticated_pass _ _ _ Hauth).
    unfold serveCompletion. now rewrite Hbind.
Qed.

(** ** More on the retry loop *)

Lemma retryLoop_recorded (body : M (option string)) (fuel : nat) (retryCount : Z)
  (err : string) (st : St) :
  fst (retryLoop body fuel retryCount (Some err) st) <> Panicked.
Proof.
  revert retryCount err st. induction fuel as [|fuel IH]; intros k err st; cbn [retryLoop].
  - destruct (k <=? MaxRetryCount config); discriminate.
  - destruct (k <=? MaxRetryCount config); [| discriminate].
    unfold bind.
    destruct ((if 0 <? k then Sleep (RetryDelay config) else ret tt) st) as [u st0].
    destruct (body st0) as [[err' |] st1]; [apply IH | discriminate].
Qed.

(** X9.  The handler panics exactly when a request that passes the check
    and binds meets a negative [MaxRetryCount]: the loop makes no attempt
    and the message of an error that was never recorded is asked for.
    Nothing has been sent or written by then. *)
Theorem panics_only_without_attempt (c : Context) (st : St) :
  (fst (handleCompletion c st) = Panicked
   <-> authorized c /\ (exists req, ShouldBindJSON c = Ok req) /\ MaxRetryCount config < 0)
  /\ (fst (handleCompletion c st) = Panicked -> snd (handleCompletion c st) = st).
Proof.
  unfold handleCompletion.
  destruct (authenticated_cases serveCompletion c st) as [[Hauth ->] | [Hno (msg & ->)]].
  - unfold serveCompletion.
    destruct (ShouldBindJSON c) as [req | err] eqn:Hbind.
    + destruct (Z.ltb_spec (MaxRetryCount config) 0) as [Hneg | Hpos].
      * replace (Z.to_nat (MaxRetryCount config + 1)) with 0%nat by lia.
        cbn [retryLoop]. destruct (Z.leb_spec 0 (MaxRetryCount config)); [lia |].
        split; [| reflexivity]. split; [intros _ | reflexivity].
        split; [exact Hauth | split; [now exists req | exact Hneg]].
      * destruct (Z.to_nat (MaxRetryCount config + 1)) as [|fuel] eqn:Hfuel; [lia |].
        cbn [retryLoop]. destruct (Z.leb_spec 0 (MaxRetryCount config)); [| lia].
        unfold bind. cbn [Z.ltb Z.compare ret].
        destruct (attempt _ _ _ st) as [[err |] st1]; cbn [fst].
        -- split; [split |].
           ++ intros Hp. now apply retryLoop_recorded in Hp.
           ++ intros (_ & _ & Hneg). lia.
           ++ intros Hp. now apply retryLoop_recorded in Hp.
        -- split; [split |]; try discriminate. intros (_ & _ & Hneg). lia.
    + split; [split |]; try discriminate. intros (_ & (req & Hreq) & _). discriminate.
  - split; [split |]; try discriminate. intros (Hauth & _). contradiction.
Qed.

(** After [n] failed passes a pass that succeeds ends the loop. *)
Lemma retryLoop_success (body : M (option string)) (n : nat) :
  forall (fuel : nat) (retryCount : Z) (lastError : option string) (st st1 st2 : St)
         (errs : list string),
  failures body n retryCount st = Some (errs, st1) ->
  pass body (retryCount + Z.of_nat n) st1 = (None, st2) ->
  retryCount + Z.of_nat n <= MaxRetryCount config ->
  (n < fuel)%nat ->
  retryLoop body fuel retryCount lastError st = (Returned, st2).
Proof.
  induction n as [|n IH]; intros fuel k lastError st st1 st2 errs Hfail Hpass Hmax Hfuel.
  - cbn [failures] in Hfail. injection Hfail as <- <-.
    destruct fuel as [|fuel]; [lia |]. cbn [retryLoop].
    destruct (Z.leb_spec k (MaxRetryCount config)); [| lia].
    replace (k + Z.of_nat 0) with k in Hpass by lia.
    unfold pass, bind in *.
    destruct ((if 0 <? k then Sleep (RetryDelay config) else ret tt) st) as [u st0].
    destruct (body st0) as [[err |] st3]; [discriminate |].
    now injection Hpass as <-.
  - cbn [failures] in Hfail. destruct fuel as [|fuel]; [lia |]. cbn [retryLoop].
    destruct (Z.leb_spec k (MaxRetryCount config)); [| lia].
    unfold pass at 1 in Hfail. unfold bind in *.
    destruct ((if 0 <? k then Sleep (RetryDelay config) else ret tt) st) as [u st0].
    destruct (body st0) as [[err |] st3]; [| discriminate].
    destruct (failures body n (k + 1) st3) as [[errs' st4] |] eqn:Hrest; [| discriminate].
    injection Hfail as <- <-.
    apply (IH fuel (k + 1) (Some err) st3 st4 st2 errs' Hrest); [| lia | lia].
    now replace (k + 1 + Z.of_nat n) with (k + Z.of_nat (S n)) by lia.
Qed.

Lemma attempt_slept (req : ChatRequest) (model content : string) (st : St) :
  slept (snd (attempt req model content st)) = slept st.
Proof. apply (attempt_frame _ _ slept_Frame); intros; exact I. Qed.

Lemma pass_slept (body : M (option string)) (retryCount : Z) (st : St) :
  (forall st0, slept (snd (body st0)) = slept st0) ->
  slept (snd (pass body retryCount st))
  = slept st ++ (if 0 <? retryCount then [RetryDelay config] else []).
Proof.
  intros Hbody. unfold pass, bind.
  destruct (0 <? retryCount); cbn [Sleep ret].
  - rewrite (surjective_pairing (body _)). cbn [snd]. now rewrite Hbody.
  - rewrite (surjective_pairing (body _)). cbn [snd]. now rewrite Hbody, app_nil_r.
Qed.

Lemma failures_slept (body : M (option string)) (n : nat) :
  (forall st0, slept (snd (body st0)) = slept st0) ->
  forall (retryCount : Z) (st st' : St) (errs : list string),
  1 <= retryCount ->
  failures body n retryCount st = Some (errs, st') ->
  slept st' = slept st ++ repeat (RetryDelay config) n.
Proof.
  intros Hbody. induction n as [|n IH]; intros k st st' errs Hk Hfail; cbn [failures] in Hfail.
  - injection Hfail as <- <-. cbn. now rewrite app_nil_r.
  - pose proof (pass_slept body k st Hbody) as Hp.
    destruct (pass body k st) as [[err |] st1]; [| discriminate]. cbn [snd] in Hp.
    destruct (failures body n (k + 1) st1) as [[errs' st2] |] eqn:Hrest; [| discriminate].
    injection Hfail as <- <-.
    assert (Hnext : 1 <= k + 1) by lia.
    rewrite (IH (k + 1) st1 st2 errs' Hnext Hrest), Hp.
    destruct (Z.ltb_spec 0 k); [| lia]. now rewrite <- app_assoc.
Qed.

(** X10.  When the first [k] attempts fail, [k] being at most
    [MaxRetryCount], and the next one succeeds, the handler returns with
    the state that attempt leaves: no status 500 is written and no further
    attempt is made.  The handler has slept [k] times by then, each time
    for [RetryDelay]. *)
Theorem success_after_failures (c : Context) (req : ChatRequest) (k : nat)
  (st st1 st2 : St) (errs : list string) :
  authorized c ->
  ShouldBindJSON c = Ok req ->
  Z.of_nat k <= MaxRetryCount config ->
  failures (attempt req (convertModel (Model req)) (prepareMessages (Messages req)))
           k 0 st = Some (errs, st1) ->
  pass (attempt req (convertModel (Model req)) (prepareMessages (Messages req)))
       (Z.of_nat k) st1 = (None, st2) ->
  handleCompletion c st = (Returned, st2)
  /\ slept st2 = slept st ++ repeat (RetryDelay config) k.
Proof.
  intros Hauth Hbind Hk Hfail Hpass. split.
  - unfold handleCompletion. rewrite (authenticated_pass _ _ _ Hauth).
    unfold serveCompletion. rewrite Hbind.
    apply (retryLoop_success _ k _ 0 None st st1 st2 errs Hfail); [exact Hpass | lia |].
    assert (0 <= Z.of_nat k) by lia. lia.
  - set (body := attempt req (convertModel (Model req)) (prepareMessages (Messages req))) in *.
    assert (Hbody : forall st0, slept (snd (body st0)) = slept st0)
      by (intros st0; apply attempt_slept).
    pose proof (pass_slept body (Z.of_nat k) st1 Hbody) as Hlast.
    rewrite Hpass in Hlast. cbn [snd] in Hlast.
    destruct k as [|k].
    + cbn [failures] in Hfail. injection Hfail as <- <-. exact Hlast.
    + cbn [failures] in Hfail.
      pose proof (pass_slept body 0 st Hbody) as Hfirst.
      destruct (pass body 0 st) as [[err |] st3]; [| discriminate]. cbn [snd] in Hfirst.
      destruct (failures body k (0 + 1) st3) as [[errs' st4] |] eqn:Hrest; [| discriminate].
      injection Hfail as <- <-.
      assert (Hone : 1 <= 0 + 1) by lia.
      rewrite Hlast, (failures_slept body k Hbody _ _ _ _ Hone Hrest), Hfirst.
      destruct (Z.ltb_spec 0 (Z.of_nat (S k))); [| lia].
      cbn [Z.ltb Z.compare]. rewrite app_nil_r, <- app_assoc.
      f_equal. symmetry. apply repeat_cons.
Qed.

Lemma retryLoop_slept (body : M (option string)) :
  (forall st0, slept (snd (body st0)) = slept st0) ->
  forall (fuel : nat) (retryCount : Z) (lastError : option string) (st : St),
  1 <= retryCount ->
  exists j,
    slept (snd (retryLoop body fuel retryCount lastError st))
    = slept st ++ repeat (RetryDelay config) j
    /\ Z.of_nat j <= Z.max 0 (MaxRetryCount config + 1 - retryCount).
Proof.
  intros Hbody. induction fuel as [|fuel IH]; intros k lastError st Hk; cbn [retryLoop].
  - exists 0%nat. split; [| lia].
    destruct (k <=? MaxRetryCount config); [| destruct lastError]; cbn; now rewrite app_nil_r.
  - destruct (Z.leb_spec k (MaxRetryCount config)).
    + unfold bind. destruct (Z.ltb_spec 0 k); [| lia]. cbn [Sleep].
      pose proof (Hbody (mkSt (sent st) (clockReads st) (slept st ++ [RetryDelay config])
                           (wHeader st) (writes st) (out st))) as H1.
      destruct (body _) as [[err |] st1]; cbn [snd slept ret] in *.
      * destruct (IH (k + 1) (Some err) st1 ltac:(lia)) as (j & Hj & Hbound).
        exists (S j). rewrite Hj, H1, <- app_assoc. split; [reflexivity | lia].
      * exists 1%nat. rewrite H1. split; [reflexivity | lia].
    + exists 0%nat. split; [| lia]. destruct lastError; cbn; now rewrite app_nil_r.
Qed.

(** X11.  Whatever happens, the handler sleeps at most [MaxRetryCount]
    times for a request, each time for [RetryDelay], and not at all when
    [MaxRetryCount] is zero or negative. *)
Theorem sleeps_bounded (c : Context) (st : St) :
  exists j,
    slept (snd (handleCompletion c st)) = slept st ++ repeat (RetryDelay config) j
    /\ Z.of_nat j <= Z.max 0 (MaxRetryCount config).
Proof.
  unfold handleCompletion.
  destruct (authenticated_cases serveCompletion c st) as [[_ ->] | [_ (msg & ->)]];
    [| exists 0%nat; cbn; rewrite app_nil_r; split; [reflexivity | lia]].
  unfold serveCompletion. destruct (ShouldBindJSON c) as [req | err];
    [| exists 0%nat; cbn; rewrite app_nil_r; split; [reflexivity | lia]].
  set (body := attempt req (convertModel (Model req)) (prepareMessages (Messages req))).
  assert (Hbody : forall st0, slept (snd (body st0)) = slept st0)
    by (intros st0; apply attempt_slept).
  destruct (Z.to_nat (MaxRetryCount config + 1)) as [|fuel] eqn:Hfuel; cbn [retryLoop].
  - destruct (Z.leb_spec 0 (MaxRetryCount config)); [lia |].
    exists 0%nat. cbn. rewrite app_nil_r. split; [reflexivity | lia].
  - destruct (Z.leb_spec 0 (MaxRetryCount config)); [| lia].
    unfold bind. cbn [Z.ltb Z.compare ret].
    pose proof (Hbody st) as H1.
    destruct (body st) as [[err |] st1]; cbn [snd] in *.
    + destruct (retryLoop_slept body Hbody fuel (0 + 1) (Some err) st1 ltac:(lia))
        as (j & Hj & Hbound).
      exists j. rewrite Hj, H1. split; [reflexivity | lia].
    + exists 0%nat. unfold ret. cbn [fst snd repeat]. rewrite H1, app_nil_r.
      split; [reflexivity | lia].
Qed.

(** ** The CORS middleware *)

Lemma handleCompletion_header (k : string) (c : Context) (st : St) :
  ~ In k streamHeaderKeys ->
  wHeader (snd (handleCompletion c st)) !! k = wHeader st !! k.
Proof.
  intros Hk. apply (handleCompletion_frame _ _ (header_Frame k Hk)); intros;
    (exact I || reflexivity).
Qed.

(** X12.  Behind [corsMiddleware] every answer of the completion handler,
    whatever the request and however the handler ends, carries the three
    [Access-Control-Allow-...] headers with the value [*].  A request with
    the method [OPTIONS] is aborted with status 204 before the handler
    runs: no round trip, nothing written, no sleep. *)
Theorem cors_on_every_answer (method : string) (c : Context) (st : St) :
  Forall (fun k => HeaderGet (wHeader (snd (corsMiddleware method (handleCompletion c) st))) k
                   = "*")
         ["Access-Control-Allow-Origin"; "Access-Control-Allow-Methods";
          "Access-Control-Allow-Headers"]
  /\ (method = "OPTIONS" ->
      fst (corsMiddleware method (handleCompletion c) st) = Aborted 204
      /\ sent (snd (corsMiddleware method (handleCompletion c) st)) = sent st
      /\ out (snd (corsMiddleware method (handleCompletion c) st)) = out st
      /\ slept (snd (corsMiddleware method (handleCompletion c) st)) = slept st).
Proof.
  unfold corsMiddleware, bind. cbn [SetHeader].
  destruct (String.eqb_spec method "OPTIONS") as [-> | Hne].
  - split; [| intros _; now repeat split].
    cbn [ret snd wHeader]. unfold HeaderGet, HeaderSet.
    repeat constructor.
    + rewrite !lookup_insert_ne by (vm_compute; discriminate). now rewrite lookup_insert_eq.
    + rewrite lookup_insert_ne by (vm_compute; discriminate). now rewrite lookup_insert_eq.
    + now rewrite lookup_insert_eq.
  - split; [| intros H; contradiction].
    match goal with
    | |- context [handleCompletion c ?s0] => set (st0 := s0)
    end.
    rewrite (surjective_pairing (handleCompletion c st0)). cbn [ret snd].
    unfold HeaderGet.
    repeat constructor;
      vm_compute (CanonicalMIMEHeaderKey _);
      (rewrite handleCompletion_header
         by (cbn [streamHeaderKeys In]; intros [H | [H | [H | []]]]; discriminate));
      subst st0; cbn [wHeader]; unfold HeaderSet.
    + rewrite !lookup_insert_ne by (vm_compute; discriminate). now rewrite lookup_insert_eq.
    + rewrite lookup_insert_ne by (vm_compute; discriminate). now rewrite lookup_insert_eq.
    + now rewrite lookup_insert_eq.
Qed.

(** ** The models the service lists *)

(** X13.  Whatever model name a request gives, it is served as one of the
    models the [/v1/models] object lists: its upstream identifier is that
    of a listed model.  No two listed models share an upstream identifier. *)
Theorem listed_models_cover_convertModel :
  (forall s, exists id, In id (modelIDs modelsResponse) /\ convertModel s = convertModel id)
  /\ (forall a b, In a (modelIDs modelsResponse) -> In b (modelIDs modelsResponse) ->
                  convertModel a = convertModel b -> a = b).
Proof.
  split.
  - intros s. unfold convertModel at 1.
    destruct (String.eqb (ToLower s) "claude-3-haiku");
      [exists "claude-3-haiku"; split; [cbn; auto 10 | reflexivity] |].
    destruct (String.eqb (ToLower s) "llama-3.3-70b");
      [exists "llama-3.3-70b"; split; [cbn; auto 10 | reflexivity] |].
    destruct (String.eqb (ToLower s) "mistral-small");
      [exists "mistral-small"; split; [cbn; auto 10 | reflexivity] |].
    destruct (String.eqb (ToLower s) "o3-mini");
      [exists "o3-mini"; split; [cbn; auto 10 | reflexivity] |].
    exists "gpt-4o-mini". split; [cbn; auto 10 | reflexivity].
  - intros a b Ha Hb. cbn in Ha, Hb.
    destruct Ha as [<- | [<- | [<- | [<- | [<- | []]]]]];
      destruct Hb as [<- | [<- | [<- | [<- | [<- | []]]]]];
      intros H; try reflexivity; vm_compute in H; discriminate.
Qed.

(** ** More on the prompt *)

Lemma prepareMessages_join (messages : list Message) :
  prepareMessages messages = joinAll (map promptLine messages).
Proof.
  unfold prepareMessages.
  transitivity (fold_left (fun b msg => b +:+ promptLine msg) messages EmptyString).
  - apply fold_left_pointwise. intros b msg. unfold promptLine, upstreamRole.
    now rewrite contentStr_normalize.
  - now rewrite fold_left_append.
Qed.

(** X14.  The prompt of a conversation continued by further messages is
    the prompt of the conversation followed by the prompt of those
    messages: earlier lines do not change. *)
Theorem prepareMessages_app (earlier later : list Message) :
  prepareMessages (earlier ++ later) = prepareMessages earlier +:+ prepareMessages later.
Proof. now rewrite !prepareMessages_join, map_app, joinAll_app. Qed.

(** X15.  The prompt cannot tell a [system] message from a [user] message:
    relabelling every [system] message as [user] leaves the prompt as it
    is. *)
Theorem prepareMessages_ignores_system (messages : list Message) :
  prepareMessages (map asUser messages) = prepareMessages messages
  /\ Forall (fun msg => Role msg <> "system") (map asUser messages).
Proof.
  split.
  - rewrite !prepareMessages_join, map_map. f_equal. apply map_ext. intros msg.
    unfold promptLine, asUser, upstreamRole. cbn [Role Content].
    destruct (String.eqb_spec (Role msg) "system") as [Hs | Hn]; [reflexivity |].
    apply String.eqb_neq in Hn. now rewrite Hn.
  - induction messages as [|m messages IH]; cbn [map]; constructor; [| exact IH].
    unfold asUser, upstreamRole. cbn [Role].
    destruct (String.eqb_spec (Role m) "system"); [discriminate | assumption].
Qed.

(** ** More on the variant with a hardcoded token *)

(** X16.  In the variant with a hardcoded token every request the handler
    sends is a [POST] whose [x-vqd-hash-1] header is the hardcoded hash,
    also when the token sent is the multi-turn token and not the token the
    hash came with. *)
Theorem hardcoded_hash_always_sent (c : Context) (req : ChatRequest) (st : St) :
  ShouldBindJSON c = Ok req ->
  exists new,
    sent (snd (handleCompletion_hardcoded c st)) = sent st ++ new
    /\ Forall (fun r => Method r = "POST"
                        /\ HeaderGet (Header r) "x-vqd-hash-1" = hardcodedHash) new.
Proof.
  intros Hbind. unfold handleCompletion_hardcoded.
  apply (authenticated_frame _ _ (sent_Frame _)).
  unfold serveCompletion_hardcoded. rewrite Hbind.
  apply (retryLoop_frame _ _ (sent_Frame _)).
  - intros st0. unfold attempt_hardcoded, requestTokenAndHash_hardcoded, bind, ret.
    apply (sendChat_frame _ _ (sent_Frame _)).
    pose proof (upstreamRequest_shape (convertModel (Model req))
                  (prepareMessages (Messages req))
                  (if (1 <? length (Messages req))%nat then multiTurnToken else hardcodedToken)
                  hardcodedHash) as (Hm & _ & _ & _ & _ & _ & Hhash & _).
    split; [exact Hm | apply Hhash; discriminate].
  - intros d st0. exists []. cbn. now rewrite app_nil_r.
Qed.

End Program.

(** ** The properties at sample inputs *)


Lemma stream_sample_two_chunks_sample :
  exists first last st',
    handleStreamResponse healthyEnv sampleResponse "gpt-4o-mini" idle = (None, st')
    /\ out st' = out idle ++ [OutData first; OutData last]
    /\ writes st' = S (S (writes idle))
    /\ field first "object" = Some (VString "chat.completion.chunk")
    /\ (exists choice, choicesOf first = [choice]
          /\ field choice "delta" = Some (VMap [("content", VString "Hi")])
          /\ field choice "finish_reason" = Some VNil)
    /\ field last "object" = Some (VString "chat.completion.chunk")
    /\ (exists choice, choicesOf last = [choice]
          /\ field choice "finish_reason" = Some (VString "stop")
          /\ field choice "delta" = None).
Proof.
  exact (stream_sample_two_chunks healthyEnv sampleResponse "gpt-4o-mini" idle
           eq_refl eq_refl eq_refl eq_refl).
Defined.

Lemma sampleEvents_wellFormed : Forall (fun e => wellFormed e = true) sampleEvents.
Proof. repeat constructor. Qed.

(** On the sample stream followed by a record that no line feed ends, the
    answer is [Hello]: the record after the marker and the unterminated
    one add nothing. *)
Lemma nonstream_one_aggregate_sample :
  exists obj st',
    handleNonStreamResponse healthyEnv eventsResponse "gpt-4o-mini" idle = (None, st')
    /\ out st' = [OutJSON 200 obj]
    /\ field obj "object" = Some (VString "chat.completion")
    /\ (exists choice message, choicesOf obj = [choice]
          /\ field choice "message" = Some message
          /\ field message "content" = Some (VString "Hello"))
    /\ field obj "usage"
       = Some (VMap [("prompt_tokens", VInt 0); ("completion_tokens", VInt 0);
                     ("total_tokens", VInt 0)]).
Proof.
  destruct (nonstream_one_aggregate healthyEnv eventsResponse "gpt-4o-mini" idle eq_refl)
    as (obj & content & st' & Hrun & Hout & _ & Hobject & Hchoice & Husage & _ & Hevents).
  rewrite (Hevents sampleEvents unterminatedRecord sampleEvents_wellFormed eq_refl eq_refl)
    in Hchoice.
  exists obj, st'. repeat split; assumption.
Defined.

(** The sample stream with its broken record, in both modes. *)
Lemma malformed_record_skipped_sample :
  out (snd (handleResponse healthyEnv eventsResponse true "gpt-4o-mini" idle))
  = [ OutData (deltaChunk 1700000000 "gpt-4o-mini" "Hel");
      OutData (deltaChunk 1700000001 "gpt-4o-mini" "lo");
      OutData (stopChunk 1700000002 "gpt-4o-mini") ]
  /\ out (snd (handleResponse healthyEnv eventsResponse false "gpt-4o-mini" idle))
     = [ OutJSON 200 (completionObject 1700000000 "gpt-4o-mini" "Hello") ].
Proof.
  destruct (malformed_record_skipped healthyEnv eventsResponse "gpt-4o-mini" idle)
    as [_ Hevents].
  destruct (Hevents eventsBefore eventsAfter " " "{oops" EmptyString unterminatedRecord
              "invalid JSON" sampleEvents_wellFormed eq_refl ltac:(discriminate) eq_refl eq_refl)
    as (Hstream & Hplain).
  destruct (Hstream eq_refl (fun _ => eq_refl)) as (st1 & Hrun1 & Hout1).
  destruct (Hplain eq_refl) as (st2 & Hrun2 & Hout2).
  rewrite Hrun1, Hrun2. split; [exact Hout1 | exact Hout2].
Defined.

Lemma sample_lines_are_lines (ls : list string) :
  forallb isLine ls = true -> Forall (fun l => isLine l = true) ls.
Proof.
  induction ls as [|l ls IH]; [constructor |].
  cbn [forallb]. intros H. apply andb_prop in H as [Hl Hls].
  constructor; [exact Hl | exact (IH Hls)].
Qed.

Lemma non_success_record_skipped_sample :
  let body := unlines ([sampleLine] ++ progressLine :: [sampleLine; "data: [DONE]" +:+ newline])
                EmptyString in
  let cleaned := unlines ([sampleLine] ++ [sampleLine; "data: [DONE]" +:+ newline])
                   EmptyString in
  handleResponse healthyEnv (withBody sampleResponse body) true "gpt-4o-mini" idle
  = handleResponse healthyEnv (withBody sampleResponse cleaned) true "gpt-4o-mini" idle
  /\ handleResponse healthyEnv (withBody sampleResponse body) false "gpt-4o-mini" idle
     = handleResponse healthyEnv (withBody sampleResponse cleaned) false "gpt-4o-mini" idle.
Proof.
  split;
    (apply (non_success_record_skipped healthyEnv sampleResponse [sampleLine]
              [sampleLine; "data: [DONE]" +:+ newline] progressLine EmptyString
              [("action", VString "progress"); ("message", VString "secret")]);
     [ apply sample_lines_are_lines; vm_compute; reflexivity
     | reflexivity
     | vm_compute; reflexivity
     | vm_compute; reflexivity
     | vm_compute; discriminate ]).
Defined.

Lemma inbound_authentication_sample :
  (exists msg st',
     handleCompletion asciiLower sampleSprint defaultConfig guardedEnv sampleContext idle
     = (Returned, st')
     /\ out st' = out idle ++ [OutJSON 401 (errorBody msg)]
     /\ sent st' = sent idle)
  /\ (exists msg st',
        handleCompletion asciiLower sampleSprint defaultConfig guardedEnv
          (contextWith "Bearer guess") idle
        = (Returned, st')
        /\ out st' = out idle ++ [OutJSON 401 (errorBody msg)]
        /\ sent st' = sent idle)
  /\ handleCompletion asciiLower sampleSprint defaultConfig guardedEnv
       (contextWith "Bearer secret") idle
     = serveCompletion asciiLower sampleSprint defaultConfig guardedEnv
         (contextWith "Bearer secret") idle
  /\ handleCompletion asciiLower sampleSprint defaultConfig healthyEnv sampleContext idle
     = serveCompletion asciiLower sampleSprint defaultConfig healthyEnv sampleContext idle.
Proof.
  split; [| split; [| split]].
  - apply (proj1 (inbound_authentication asciiLower sampleSprint defaultConfig guardedEnv
                    sampleContext idle)).
    + vm_compute. discriminate.
    + left. reflexivity.
  - apply (proj1 (inbound_authentication asciiLower sampleSprint defaultConfig guardedEnv
                    (contextWith "Bearer guess") idle)).
    + vm_compute. discriminate.
    + right. right. exists "guess". split; [vm_compute; reflexivity | vm_compute; discriminate].
  - apply (proj1 (proj2 (inbound_authentication asciiLower sampleSprint defaultConfig
                           guardedEnv (contextWith "Bearer secret") idle))).
    + vm_compute. discriminate.
    + vm_compute. reflexivity.
  - apply (proj2 (proj2 (inbound_authentication asciiLower sampleSprint defaultConfig
                           healthyEnv sampleContext idle))).
    reflexivity.
Defined.

(** With the default configuration and a chat endpoint that answers 503
    four times, the fourth failure is reported under status 500 and
    nothing else is written. *)
Lemma retries_exhausted_sample :
  out (snd (handleCompletion asciiLower sampleSprint defaultConfig (flakyEnv 4)
              sampleContext idle))
  = [OutJSON 500 (errorBody "非200响应: 503, 内容: busy")].
Proof.
  assert (Herrs :
    option_map fst
      (retryableFailures defaultConfig (flakyEnv 4) sampleRequest
         (convertModel asciiLower (Model sampleRequest))
         (prepareMessages sampleSprint (Messages sampleRequest))
         (Z.to_nat (MaxRetryCount defaultConfig + 1)) 0 idle)
    = Some (repeat "非200响应: 503, 内容: busy" 4)) by (vm_compute; reflexivity).
  destruct (retryableFailures defaultConfig _ _ _ _ _ 0 idle) as [[errs st'] |] eqn:Hretry;
    [| discriminate].
  cbn [option_map fst] in Herrs. injection Herrs as ->.
  destruct (retries_exhausted asciiLower sampleSprint defaultConfig (flakyEnv 4)
              sampleContext sampleRequest idle st' _
              ltac:(discriminate) (or_introl eq_refl) eq_refl Hretry) as (Hrun & Hout & _).
  rewrite Hrun. cbn [snd]. exact Hout.
Defined.

Lemma hardcoded_multi_turn_token_sample :
  exists new,
    sent (snd (handleCompletion_hardcoded asciiLower sampleSprint defaultConfig healthyEnv
                 sampleContext idle)) = sent idle ++ new
    /\ Forall (fun r => URL r = chatURL
                        /\ HeaderGet (Header r) "x-vqd-4"
                           = "4-212890776487765339064984812855765849703") new
    /\ new <> [].
Proof.
  destruct (hardcoded_multi_turn_token asciiLower sampleSprint defaultConfig healthyEnv
              sampleContext sampleRequest idle eq_refl) as (new & Hsent & Hmulti & _ & Hsome).
  exists new. split; [exact Hsent |]. split.
  - apply Hmulti. cbn. lia.
  - apply Hsome; [left; reflexivity | discriminate].
Defined.

(** ** Where the program departs from the specification *)

(** With the default [MaxRetryCount] of 3, three upstream-status failures
    in a row do not end the request: a fourth attempt is made, and when it
    succeeds the caller gets the translated stream and no status 500. *)
Lemma three_status_failures_then_success :
  MaxRetryCount defaultConfig = 3
  /\ option_map fst
       (failures defaultConfig
          (attempt defaultConfig (flakyEnv 3) sampleRequest
             (convertModel asciiLower (Model sampleRequest))
             (prepareMessages sampleSprint (Messages sampleRequest)))
          3 0 idle)
     = Some (repeat "非200响应: 503, 内容: busy" 3)
  /\ out (snd (handleCompletion asciiLower sampleSprint defaultConfig (flakyEnv 3)
                 sampleContext idle))
     = [ OutData (deltaChunk 1700000000 "claude-3-haiku-20240307" "Hi");
         OutData (stopChunk 1700000001 "claude-3-haiku-20240307") ].
Proof. vm_compute. repeat split. Qed.

(** With a negative [MaxRetryCount] no attempt is made and [lastError] is
    still [nil] when its message is asked for. *)
Lemma negative_retry_count_panics :
  handleCompletion asciiLower sampleSprint
    (mkConfig "/" (-1) 5000 defaultFakeHeaders EmptyString) healthyEnv sampleContext idle
  = (Panicked, idle).
Proof. vm_compute. reflexivity. Qed.

(** When the landing page cannot be fetched, [requestTokenAndHash] returns
    an error after that one round trip, although the status probe, asked
    at that point, yields a token. *)
Lemma landing_failure_preempts_probe :
  exists st1,
    requestTokenAndHash defaultConfig probeOnlyEnv idle
    = (Err "homepage request failed: connection refused", st1)
    /\ length (sent st1) = 1%nat
    /\ fst (method4 defaultConfig probeOnlyEnv st1) = Some "4-77".
Proof. eexists. vm_compute. repeat split. Qed.

(** A success record that no line feed ends is not translated: the
    answer to the sample record alone is empty, and it is [Hi] once a line
    feed follows the record. *)
Lemma unterminated_record_dropped :
  Body unterminatedResponse = "data: " +:+ sampleRecord
  /\ fragment sampleRecord = Some "Hi"
  /\ out (snd (handleNonStreamResponse healthyEnv unterminatedResponse "gpt-4o-mini" idle))
     = [OutJSON 200 (completionObject 1700000000 "gpt-4o-mini" EmptyString)]
  /\ out (snd (handleNonStreamResponse healthyEnv
                 (withBody unterminatedResponse ("data: " +:+ sampleRecord +:+ newline))
                 "gpt-4o-mini" idle))
     = [OutJSON 200 (completionObject 1700000000 "gpt-4o-mini" "Hi")].
Proof. vm_compute. repeat split. Qed.

(** When a write fails in the middle of every streamed attempt, each
    retry streams the first frame again, and the error that ends the
    request arrives as one more body under the status 200 that the first
    frame went out with. *)
Lemma mid_stream_failures_keep_status :
  out (snd (handleCompletion asciiLower sampleSprint defaultConfig stutterEnv
              sampleContext idle))
  = [ OutData (deltaChunk 1700000000 "claude-3-haiku-20240307" "Hi");
      OutData (deltaChunk 1700000002 "claude-3-haiku-20240307" "Hi");
      OutData (deltaChunk 1700000004 "claude-3-haiku-20240307" "Hi");
      OutData (deltaChunk 1700000006 "claude-3-haiku-20240307" "Hi");
      OutJSON 200 (errorBody "写入响应失败: broken pipe") ].
Proof. vm_compute. reflexivity. Qed.

(** The unterminated rest of a body is never translated. *)
Lemma unterminated_rest_ignored (E : Env) (resp : Response) (ls : list string)
  (rest : string) (isStream : bool) (model : string) (st : St) :
  Forall (fun l => isLine l = true) ls ->
  hasLF rest = false ->
  handleResponse E (withBody resp (unlines ls rest)) isStream model st
  = handleResponse E (withBody resp (unlines ls EmptyString)) isStream model st.
Proof.
  intros Hls Hrest.
  unfold handleResponse, handleStreamResponse, handleNonStreamResponse.
  cbn [withBody Body BodyErr].
  rewrite (splitLines_unlines ls rest Hls Hrest), (splitLines_unlines ls EmptyString Hls eq_refl).
  reflexivity.
Qed.

Lemma prepareMessages_lines_sample :
  prepareMessages sampleSprint sampleMessages
  = "user:be brief;" +:+ String CR (String LF EmptyString)
    +:+ "user:hello there;" +:+ String CR (String LF EmptyString)
  /\ map (promptLine sampleSprint) sampleMessages !! 0%nat
     = Some ("user:be brief;" +:+ String CR (String LF EmptyString)).
Proof.
  destruct (prepareMessages_lines sampleSprint sampleMessages) as (Hjoin & _ & Hline).
  split.
  - rewrite Hjoin. vm_compute. reflexivity.
  - rewrite (Hline 0%nat (mkMessage "system" (VString "be brief")) eq_refl).
    vm_compute. reflexivity.
Defined.

(** With a token on the landing page the page gives it.  Without one,
    and with two script assets linked, the first at an address that
    [url.Parse] rejects, the second asset gives the token after two round
    trips: no request is made for the first. *)
Lemma requestTokenAndHash_sources_sample :
  fst (requestTokenAndHash defaultConfig healthyEnv idle) = Ok ("4-99", EmptyString)
  /\ fst (requestTokenAndHash defaultConfig assetEnv idle) = Ok ("4-DIST", EmptyString)
  /\ map URL (sent (snd (requestTokenAndHash defaultConfig assetEnv idle)))
     = [homepageURL; "https://duckduckgo.com/dist/app.js"].
Proof.
  split.
  - destruct (requestTokenAndHash_sources defaultConfig healthyEnv idle) as [H _].
    set (landing := fetchLanding defaultConfig healthyEnv idle) in H.
    assert (Hlanding : landing = (Ok samplePage, snd landing)) by (vm_compute; reflexivity).
    rewrite Hlanding in H.
    set (found := fourMethods defaultConfig healthyEnv samplePage (snd landing)) in H.
    assert (Hfound : found = (Some "4-99", snd found)) by (vm_compute; reflexivity).
    rewrite Hfound in H. now rewrite H.
  - destruct (requestTokenAndHash_sources defaultConfig assetEnv idle) as [H _].
    set (landing := fetchLanding defaultConfig assetEnv idle) in H.
    assert (Hlanding : landing = (Ok scriptsPage, snd landing)) by (vm_compute; reflexivity).
    rewrite Hlanding in H.
    set (found := fourMethods defaultConfig assetEnv scriptsPage (snd landing)) in H.
    assert (Hfound : found = (Some "4-DIST", snd found)) by (vm_compute; reflexivity).
    rewrite Hfound in H. rewrite H. cbn [fst snd]. split; [reflexivity |].
    vm_compute. reflexivity.
Defined.

(** ** The further properties at sample inputs *)

Lemma stream_frames_sample :
  exists st',
    handleStreamResponse healthyEnv (withBody sampleResponse sampleLine) "gpt-4o-mini" idle
    = (None, st')
    /\ out st' = [OutData (deltaChunk 1700000000 "gpt-4o-mini" "Hi")].
Proof.
  destruct (stream_frames healthyEnv (withBody sampleResponse sampleLine) "gpt-4o-mini" idle
              eq_refl (fun _ => eq_refl)) as (st' & Hrun & Hout & _).
  exists st'. split; [exact Hrun |]. rewrite Hout. vm_compute. reflexivity.
Defined.

Lemma nonstream_all_or_nothing_sample :
  handleNonStreamResponse healthyEnv truncatedResponse "gpt-4o-mini" idle
  = (Some "读取响应失败: unexpected EOF", idle)
  /\ exists st',
       handleNonStreamResponse healthyEnv sampleResponse "gpt-4o-mini" idle = (None, st')
       /\ out st' = out idle ++ [OutJSON 200 (completionObject (unixTime healthyEnv (clockReads idle))
                                                "gpt-4o-mini" (aggregate (Body sampleResponse)))]
       /\ sent st' = sent idle /\ writes st' = writes idle.
Proof.
  split.
  - apply (proj1 (nonstream_all_or_nothing healthyEnv truncatedResponse "gpt-4o-mini" idle)
             "unexpected EOF" eq_refl).
    vm_compute. reflexivity.
  - apply (proj2 (nonstream_all_or_nothing healthyEnv sampleResponse "gpt-4o-mini" idle)).
    left. reflexivity.
Defined.

Lemma modes_deliver_same_text_sample :
  exists streamed answered,
    out (snd (handleStreamResponse healthyEnv sampleResponse "gpt-4o-mini" idle))
    = out idle ++ streamed
    /\ out (snd (handleNonStreamResponse healthyEnv sampleResponse "gpt-4o-mini" idle))
       = out idle ++ answered
    /\ joinAll (omap deltaContent streamed) = joinAll (omap messageContent answered).
Proof.
  apply (modes_deliver_same_text healthyEnv sampleResponse "gpt-4o-mini" idle idle
           eq_refl (fun _ => eq_refl)).
  vm_compute. reflexivity.
Defined.

Lemma stream_errors_sample :
  exists st',
    handleStreamResponse hangupEnv sampleResponse "gpt-4o-mini" idle
    = (Some "写入响应失败: broken pipe", st')
    /\ endsAtFailedWrite hangupEnv idle st' "写入响应失败: broken pipe".
Proof.
  assert (Hrun : exists st',
            handleStreamResponse hangupEnv sampleResponse "gpt-4o-mini" idle
            = (Some "写入响应失败: broken pipe", st'))
    by (eexists; vm_compute; reflexivity).
  destruct Hrun as [st' Hrun]. exists st'. split; [exact Hrun |].
  destruct (stream_errors hangupEnv sampleResponse "gpt-4o-mini" idle st' _ Hrun)
    as [(Hflush & _) | (_ & Hend)]; [discriminate | exact Hend].
Defined.

Lemma acquired_token_not_empty_sample :
  exists token vqdHash st',
    requestTokenAndHash defaultConfig healthyEnv idle = (Ok (token, vqdHash), st')
    /\ token <> EmptyString /\ vqdHash = EmptyString.
Proof.
  assert (Hrun : exists st',
            requestTokenAndHash defaultConfig healthyEnv idle = (Ok ("4-99", EmptyString), st'))
    by (eexists; vm_compute; reflexivity).
  destruct Hrun as [st' Hrun]. exists "4-99", EmptyString, st'. split; [exact Hrun |].
  exact (proj1 (acquired_token_not_empty defaultConfig healthyEnv idle) _ _ _ Hrun).
Defined.

Lemma upstreamRequest_headers_sample :
  HeaderGet (Header (upstreamRequest defaultConfig "gpt-4o-mini" "user:hi;" "4-99" "h1"))
    "x-vqd-hash-1" = "h1"
  /\ HeaderGet (Header (upstreamRequest defaultConfig "gpt-4o-mini" "user:hi;" "4-99" "h1"))
       "Referer"
     = HeaderGet (Header (NewRequest defaultConfig "POST" chatURL None)) "Referer".
Proof.
  pose proof (upstreamRequest_headers defaultConfig "gpt-4o-mini" "user:hi;" "4-99" "h1") as H.
  cbv zeta in H. destruct H as (_ & _ & _ & _ & _ & _ & Hhash & Hother).
  split.
  - apply Hhash. discriminate.
  - apply Hother. vm_compute. intros [H | [H | [H | [H | []]]]]; discriminate.
Defined.


Lemma early_rejections_sample :
  (exists msg,
     handleCompletion asciiLower sampleSprint defaultConfig guardedEnv sampleContext idle
     = (Returned, afterJSON 401 (errorBody msg) idle))
  /\ handleCompletion asciiLower sampleSprint defaultConfig healthyEnv
       (mkContext ∅ (Err "unexpected end of JSON input")) idle
     = (Returned, afterJSON 400 (errorBody "unexpected end of JSON input") idle).
Proof.
  split.
  - apply (proj1 (early_rejections asciiLower sampleSprint defaultConfig guardedEnv
                    sampleContext idle)).
    intros [H | H]; vm_compute in H; discriminate.
  - apply (proj2 (early_rejections asciiLower sampleSprint defaultConfig healthyEnv
                    (mkContext ∅ (Err "unexpected end of JSON input")) idle)).
    + left. reflexivity.
    + reflexivity.
Defined.

Lemma panics_only_without_attempt_sample :
  fst (handleCompletion asciiLower sampleSprint
         (mkConfig "/" (-1) 5000 defaultFakeHeaders EmptyString) healthyEnv sampleContext idle)
  = Panicked
  /\ fst (handleCompletion asciiLower sampleSprint defaultConfig healthyEnv sampleContext idle)
     <> Panicked.
Proof.
  split.
  - apply (proj1 (panics_only_without_attempt asciiLower sampleSprint
                    (mkConfig "/" (-1) 5000 defaultFakeHeaders EmptyString) healthyEnv
                    sampleContext idle)).
    split; [left; reflexivity | split; [now exists sampleRequest | reflexivity]].
  - intros H.
    apply (proj1 (panics_only_without_attempt asciiLower sampleSprint defaultConfig healthyEnv
                    sampleContext idle)) in H.
    destruct H as (_ & _ & H). discriminate.
Defined.

Lemma success_after_failures_sample :
  exists st2,
    handleCompletion asciiLower sampleSprint defaultConfig (flakyEnv 2) sampleContext idle
    = (Returned, st2)
    /\ slept st2 = slept idle ++ repeat (RetryDelay defaultConfig) 2.
Proof.
  set (body := attempt defaultConfig (flakyEnv 2) sampleRequest
                 (convertModel asciiLower (Model sampleRequest))
                 (prepareMessages sampleSprint (Messages sampleRequest))).
  set (failed := failures defaultConfig body 2 0 idle).
  set (errs := match failed with Some p => fst p | None => [] end).
  set (st1 := match failed with Some p => snd p | None => idle end).
  assert (Hfail : failed = Some (errs, st1)) by (vm_compute; reflexivity).
  set (st2 := snd (pass defaultConfig body (Z.of_nat 2) st1)).
  assert (Hpass : pass defaultConfig body (Z.of_nat 2) st1 = (None, st2))
    by (vm_compute; reflexivity).
  exists st2.
  exact (success_after_failures asciiLower sampleSprint defaultConfig (flakyEnv 2)
           sampleContext sampleRequest 2 idle st1 st2 errs
           (or_introl eq_refl) eq_refl ltac:(discriminate) Hfail Hpass).
Defined.

Lemma sleeps_bounded_sample :
  exists j,
    slept (snd (handleCompletion asciiLower sampleSprint defaultConfig (flakyEnv 4)
                  sampleContext idle))
    = slept idle ++ repeat (RetryDelay defaultConfig) j
    /\ Z.of_nat j <= Z.max 0 (MaxRetryCount defaultConfig).
Proof.
  exact (sleeps_bounded asciiLower sampleSprint defaultConfig (flakyEnv 4) sampleContext idle).
Defined.

Lemma cors_on_every_answer_sample :
  fst (corsMiddleware "OPTIONS"
         (handleCompletion asciiLower sampleSprint defaultConfig healthyEnv sampleContext) idle)
  = Aborted 204
  /\ sent (snd (corsMiddleware "OPTIONS"
                  (handleCompletion asciiLower sampleSprint defaultConfig healthyEnv
                     sampleContext) idle)) = sent idle
  /\ out (snd (corsMiddleware "OPTIONS"
                 (handleCompletion asciiLower sampleSprint defaultConfig healthyEnv
                    sampleContext) idle)) = out idle
  /\ slept (snd (corsMiddleware "OPTIONS"
                   (handleCompletion asciiLower sampleSprint defaultConfig healthyEnv
                      sampleContext) idle)) = slept idle.
Proof.
  exact (proj2 (cors_on_every_answer asciiLower sampleSprint defaultConfig healthyEnv
                  "OPTIONS" sampleContext idle) eq_refl).
Defined.

Lemma listed_models_cover_convertModel_sample :
  (exists id, In id (modelIDs modelsResponse)
              /\ convertModel asciiLower "Mistral-Small" = convertModel asciiLower id)
  /\ ("o3-mini" = "gpt-4o-mini" -> False).
Proof.
  destruct (listed_models_cover_convertModel asciiLower) as [Hcover Hinj].
  split; [apply Hcover |].
  intros H. discriminate.
Defined.

Lemma prepareMessages_app_sample :
  prepareMessages sampleSprint (sampleMessages ++ [mkMessage "assistant" (VString "ok")])
  = prepareMessages sampleSprint sampleMessages
    +:+ prepareMessages sampleSprint [mkMessage "assistant" (VString "ok")].
Proof. exact (prepareMessages_app sampleSprint sampleMessages _). Defined.

Lemma prepareMessages_ignores_system_sample :
  prepareMessages sampleSprint (map asUser sampleMessages)
  = prepareMessages sampleSprint sampleMessages
  /\ Forall (fun msg => Role msg <> "system") (map asUser sampleMessages).
Proof. exact (prepareMessages_ignores_system sampleSprint sampleMessages). Defined.

Lemma hardcoded_hash_always_sent_sample :
  exists new,
    sent (snd (handleCompletion_hardcoded asciiLower sampleSprint defaultConfig healthyEnv
                 sampleContext idle)) = sent idle ++ new
    /\ Forall (fun r => Method r = "POST"
                        /\ HeaderGet (Header r) "x-vqd-hash-1" = hardcodedHash) new.
Proof.
  exact (hardcoded_hash_always_sent asciiLower sampleSprint defaultConfig healthyEnv
           sampleContext sampleRequest idle eq_refl).
Defined.
